(** * Fl_Image_Surface.cxx: draw-to-image surfaces of FLTK

    A shallow embedding of [src/Fl_Image_Surface.cxx] and the properties
    its specification states about it.

    - a state-and-failure monad with counted loops, and [Mem], a
      block-structured heap.  A computation that performs an access C++
      leaves undefined (out of bounds, dangling pointer, signed overflow)
      fails.
    - the pixel routines [copy_with_mask] and [RGB3_to_RGB1];
    - the surface object, the activation stack and the [fl_*_offscreen]
      registry. *)

From Stdlib Require Import ZArith Lia List.
From stdpp Require Import base option list gmap.

Local Open Scope Z_scope.

(** ** The state-and-failure monad *)

Definition M (St A : Type) : Type := St → option (A * St).

Global Instance M_ret {St} : MRet (M St) := λ A a s, Some (a, s).
Global Instance M_bind {St} : MBind (M St) := λ A B f m s,
  match m s with
  | Some (a, s') => f a s'
  | None => None
  end.

Definition mfail_ {St A} : M St A := λ _, None.
Definition get_state {St} : M St St := λ s, Some (s, s).
Definition put_state {St} (s : St) : M St unit := λ _, Some (tt, s).
Definition when_ {St} (b : bool) (m : M St unit) : M St unit :=
  if b then m else mret tt.

(** [for (int i = lo; ...; i++)] run [n] times, threading the local
    variables [st] the body updates. *)
Fixpoint for_loop {St L} (n : nat) (i : Z) (st : L)
    (body : Z → L → M St L) : M St L :=
  match n with
  | O => mret st
  | S n' => st' ← body i st; for_loop n' (i + 1) st' body
  end.

(** [for (int i = 0; i < hi; i++)]. *)
Definition for_upto {St L} (hi : Z) (st : L) (body : Z → L → M St L) : M St L :=
  for_loop (Z.to_nat hi) 0 st body.

(** ** Machine integers *)

Definition INT_MAX : Z := 2147483647.
Definition INT_MIN : Z := -2147483648.

(** The value of an [int] expression; signed overflow is undefined. *)
Definition int_ {St} (z : Z) : M St Z :=
  if decide (INT_MIN ≤ z ≤ INT_MAX) then mret z else mfail_.

(** Conversion to [uchar]. *)
Definition uchar (z : Z) : Z := z mod 256.

Definition is_uchar (z : Z) : Prop := 0 ≤ z ≤ 255.

(** ** The heap *)

Module Mem.

Definition addr := positive.

(** A pointer: a block and a byte offset into it. *)
Definition ptr : Type := addr * Z.

Definition padd (p : ptr) (k : Z) : ptr := (p.1, p.2 + k).

(** [Fl_RGB_Image]: the fields of the image class this file reads. *)
Record Fl_RGB_Image := mkRGB {
  array : ptr;          (* the pixel bytes *)
  alloc_array : bool;   (* the image owns [array] *)
  data_w : Z;           (* pixel width of [array] *)
  data_h : Z;           (* pixel height of [array] *)
  d : Z;                (* bytes per pixel *)
  ld : Z;               (* row stride in bytes, 0 = packed *)
  w_ : Z;               (* Fl_Image::w(), drawing width  *)
  h_ : Z                (* Fl_Image::h(), drawing height *)
}.

(** [Fl_Image_Surface_Driver]: the fields of the driver base class this
    file reads and writes.  [Fl_Offscreen] handles are integers, 0 the
    null handle. *)
Record Fl_Image_Surface_Driver := mkDriver {
  image_surface_ : option addr;  (* the Fl_Image_Surface it serves *)
  width : Z;
  height : Z;
  offscreen : Z;                 (* Fl_Offscreen *)
  external_offscreen : bool      (* the buffer is the caller's *)
}.

(** [Fl_Image_Surface]: its one data member; [None] is the null pointer. *)
Record Fl_Image_Surface := mkSurface {
  platform_surface : option addr
}.

Inductive obj :=
| Bytes (bs : list Z)
| Rgb (img : Fl_RGB_Image)
| Drv (drv : Fl_Image_Surface_Driver)
| Surf (s : Fl_Image_Surface)
| Shared (image : addr) (sw sh : Z)
| Device.   (* any other Fl_Surface_Device, such as the display *)

Abbreviation heap := (gmap addr obj).

Definition alloc (o : obj) : M heap addr := λ h,
  let a := fresh (dom h) in Some (a, <[a := o]> h).

Definition free (a : addr) : M heap unit := λ h,
  match h !! a with
  | Some _ => Some (tt, delete a h)
  | None => None
  end.

(** [*p] *)
Definition load (p : ptr) : M heap Z := λ h,
  match h !! p.1 with
  | Some (Bytes bs) =>
      if decide (0 ≤ p.2) then
        match bs !! Z.to_nat p.2 with
        | Some v => Some (v, h)
        | None => None
        end
      else None
  | _ => None
  end.

(** [*p = v] *)
Definition store (p : ptr) (v : Z) : M heap unit := λ h,
  match h !! p.1 with
  | Some (Bytes bs) =>
      if decide (0 ≤ p.2 < Z.of_nat (length bs)) then
        Some (tt, <[p.1 := Bytes (<[Z.to_nat p.2 := uchar v]> bs)]> h)
      else None
  | _ => None
  end.

(** Dereference of an image pointer. *)
Definition load_img (a : addr) : M heap Fl_RGB_Image := λ h,
  match h !! a with
  | Some (Rgb img) => Some (img, h)
  | _ => None
  end.

Definition store_img (a : addr) (img : Fl_RGB_Image) : M heap unit := λ h,
  match h !! a with
  | Some (Rgb _) => Some (tt, <[a := Rgb img]> h)
  | _ => None
  end.

End Mem.
Import Mem.

(** ** The pixel routines *)

(** One channel of the mix: [dst[0] = (dst[0] * v + src[0] * u) / 255],
    in [int] arithmetic with a truncating quotient, the result converted
    back to [uchar]. *)
Definition mix_store (dst src : ptr) (u v : Z) : M heap unit :=
  b ← load dst;
  f ← load src;
  store dst ((b * v + f * u) ÷ 255).

(** The mask row read for buffer row [i]:
    [bottom_to_top ? (h-i-1) : i]. *)
Definition mask_row (bottom_to_top : bool) (h i : Z) : Z :=
  if bottom_to_top then h - i - 1 else i.

(** The body of the inner loop of [copy_with_mask]: mixes the three
    channels of one pixel and advances the three pointers. *)
Definition copy_with_mask_pixel (st : ptr * ptr * ptr) : M heap (ptr * ptr * ptr) :=
  let '(alpha, src, dst) := st in
  u ← load alpha;
  let alpha := padd alpha 1 in
  let v := uchar (255 - u) in
  mix_store dst src u v;;
  let dst := padd dst 1 in let src := padd src 1 in
  mix_store dst src u v;;
  let dst := padd dst 1 in let src := padd src 1 in
  mix_store dst src u v;;
  let dst := padd dst 1 in let src := padd src 1 in
  mret (alpha, src, dst).

(** [Fl_Image_Surface_Driver::copy_with_mask] *)
Definition copy_with_mask (mask : addr) (dib_dst dib_src : ptr)
    (line_size : Z) (bottom_to_top : bool) : M heap unit :=
  m ← load_img mask;
  let w := data_w m in
  let h := data_h m in
  for_upto h tt (λ i _,
    row ← int_ (mask_row bottom_to_top h i * w);
    off ← int_ (i * line_size);
    let alpha := padd (array m) row in
    let src := padd dib_src off in
    let dst := padd dib_dst off in
    for_upto w (alpha, src, dst) (λ j st, copy_with_mask_pixel st);;
    mret tt);;
  mret tt.

(** The blend the compositor is specified to compute. *)
Definition blend (b f a : Z) : Z := (b * (255 - a) + f * a) ÷ 255.

(** Byte offset of channel [c] of pixel [(i, j)] in a buffer whose rows
    are [line_size] bytes apart. *)
Definition px (line_size i j c : Z) : Z := i * line_size + 3 * j + c.

(** The byte at index [k] of a buffer. *)
Definition byte_at (l : list Z) (k : Z) : Z :=
  if decide (0 ≤ k) then default 0 (l !! Z.to_nat k) else 0.

(** The value the compositor is specified to leave in channel [c] of
    pixel [(i, j)]: background [D], foreground [S], mask bytes [A]. *)
Definition cwm_expected (A D S : list Z) (w h line_size : Z) (b2t : bool)
    (i j c : Z) : Z :=
  blend (byte_at D (px line_size i j c)) (byte_at S (px line_size i j c))
        (byte_at A (mask_row b2t h i * w + j)).

(** Pixel [(i', j')] has been mixed when the loops stand at [(i, j)]. *)
Definition mixed (i j i' j' : Z) : Prop := i' < i ∨ (i' = i ∧ j' < j).

(** The background buffer [Dc] when the loops stand at [(i, j)]: mixed
    pixels hold the specified value, every other byte is as in [D]. *)
Definition cwm_inv (A D S : list Z) (w h line_size : Z) (b2t : bool)
    (i j : Z) (Dc : list Z) : Prop :=
  length Dc = length D ∧
  (∀ i' j' c, 0 ≤ i' < h → 0 ≤ j' < w → 0 ≤ c < 3 → mixed i j i' j' →
     byte_at Dc (px line_size i' j' c)
     = cwm_expected A D S w h line_size b2t i' j' c) ∧
  (∀ k, (∀ i' j' c, 0 ≤ i' < h → 0 ≤ j' < w → 0 ≤ c < 3 →
           mixed i j i' j' → k ≠ px line_size i' j' c) →
     byte_at Dc k = byte_at D k).

(** What [copy_with_mask] expects of its arguments: [mask] is a
    single-channel image whose bytes [A] start block [ma]; [dstb] and [srcb]
    are the background and foreground blocks [D] and [S], [data_h m] rows of
    [line_size] bytes each holding [data_w m] RGB pixels; the background
    block is neither the foreground nor the mask block; sizes fit in [int]. *)
Record cwm_buffers (h0 : heap) (mask dstb srcb : addr) (line_size : Z)
    (m : Fl_RGB_Image) (ma : addr) (A D S : list Z) : Prop := {
  cb_mask : h0 !! mask = Some (Rgb m);
  cb_array : array m = (ma, 0);
  cb_A : h0 !! ma = Some (Bytes A);
  cb_D : h0 !! dstb = Some (Bytes D);
  cb_S : h0 !! srcb = Some (Bytes S);
  cb_dst_src : dstb ≠ srcb;
  cb_dst_mask : dstb ≠ ma;
  cb_w : 0 ≤ data_w m;
  cb_h : 0 ≤ data_h m;
  cb_line : 3 * data_w m ≤ line_size;
  cb_len_D : data_h m * line_size ≤ Z.of_nat (length D);
  cb_len_S : data_h m * line_size ≤ Z.of_nat (length S);
  cb_len_A : data_w m * data_h m ≤ Z.of_nat (length A);
  cb_uchar_D : Forall is_uchar D;
  cb_uchar_S : Forall is_uchar S;
  cb_uchar_A : Forall is_uchar A;
  cb_int : data_h m * line_size ≤ INT_MAX
}.

(** The mask with its rows in the opposite order: row [i] of the result
    is row [h - 1 - i] of [A]. *)
Definition reverse_rows (w h : Z) (A : list Z) : list Z :=
  (λ k, byte_at A ((h - 1 - k `div` w) * w + k `mod` w)) <$> seqZ 0 (w * h).

Definition test_heap : heap :=
  <[1%positive := Rgb (mkRGB (2%positive, 0) false 2 2 1 0 2 2)]>
  (<[2%positive := Bytes [0; 255; 128; 64]]>
  (<[3%positive := Bytes [10; 20; 30; 40; 50; 60; 7; 70; 80; 90; 100; 110; 120; 7]]>
  (<[4%positive := Bytes [200; 210; 220; 230; 240; 250; 9; 1; 2; 3; 4; 5; 6; 9]]> ∅))).

(** *** Image objects *)

(** Modelled from the spec: the constructor
    [Fl_RGB_Image(bits, W, H, D, LD)] is declared outside this file; it
    wraps [bits] without taking ownership, and the image reports its pixel
    size as its drawing size. *)
Definition new_Fl_RGB_Image (bits : ptr) (W H D LD : Z) : M heap addr :=
  alloc (Rgb {| array := bits; alloc_array := false;
                data_w := W; data_h := H; d := D; ld := LD;
                w_ := W; h_ := H |}).

(** Modelled from the spec: [delete img] releases the image and, when the
    image owns it, its pixel array. *)
Definition delete_Fl_RGB_Image (a : addr) : M heap unit :=
  img ← load_img a;
  when_ (alloc_array img) (free (array img).1);;
  free a.

(** [img->alloc_array = b] *)
Definition set_alloc_array (b : bool) (img : Fl_RGB_Image) : Fl_RGB_Image :=
  {| array := array img; alloc_array := b;
     data_w := data_w img; data_h := data_h img;
     d := d img; ld := ld img; w_ := w_ img; h_ := h_ img |}.

(** [new uchar[n]]; the contents are indeterminate until written, and are
    given as zeros. *)
Definition new_uchar (n : Z) : M heap addr :=
  if decide (0 ≤ n) then alloc (Bytes (replicate (Z.to_nat n) 0)) else mfail_.

(** The bytes an image pointer designates. *)
Definition load_pixels (p : ptr) : M heap (list Z) := λ h,
  match h !! p.1 with
  | Some (Bytes bs) => if decide (0 ≤ p.2) then Some (drop (Z.to_nat p.2) bs, h) else None
  | _ => None
  end.

Section Luminance.
(** The image-resampling collaborator: the pixel bytes of [img] resampled
    to [W] x [H] pixels. *)
Variable resample : Fl_RGB_Image → list Z → Z → Z → list Z.

(** Modelled from the spec: [Fl_RGB_Image::copy(W, H)] is declared outside
    this file; it leaves the source alone and returns a new image of
    [W] x [H] pixels that owns its packed, resampled pixel array. *)
Definition Fl_RGB_Image_copy (rgb : addr) (W H : Z) : M heap addr :=
  img ← load_img rgb;
  bs ← load_pixels (array img);
  new_array ← alloc (Bytes (resample img bs W H));
  alloc (Rgb {| array := (new_array, 0); alloc_array := true;
                data_w := W; data_h := H; d := d img; ld := 0;
                w_ := W; h_ := H |}).

(** The body of the inner loop of [RGB3_to_RGB1]:
    [*p++ = (alpha[0] + alpha[1] + alpha[2]) / 3; alpha += 3;] *)
Definition RGB3_to_RGB1_pixel (st : ptr * ptr) : M heap (ptr * ptr) :=
  let '(p, alpha) := st in
  r ← load alpha;
  g ← load (padd alpha 1);
  b ← load (padd alpha 2);
  store p ((r + g + b) ÷ 3);;
  mret (padd p 1, padd alpha 3).

(** [Fl_Image_Surface_Driver::RGB3_to_RGB1], from the allocation of
    [data] on: [rgb3] is the image the loops read, the caller's or its
    resampled copy, which [need_copy] says is released at the end. *)
Definition RGB3_to_RGB1_reduce (rgb3 : addr) (need_copy : bool) (W H : Z)
    : M heap addr :=
  n ← int_ (W * H);
  data ← new_uchar n;
  img ← load_img rgb3;
  ld ← (if decide (ld img = 0) then int_ (3 * W) else mret (ld img));
  for_upto H (data, 0) (λ i p,
    off ← int_ (i * ld);
    let alpha := padd (array img) off in
    '(p, _) ← for_upto W (p, alpha) (λ j st, RGB3_to_RGB1_pixel st);
    mret p);;
  rgb1 ← new_Fl_RGB_Image (data, 0) W H 1 0;
  out ← load_img rgb1;
  store_img rgb1 (set_alloc_array true out);;
  when_ need_copy (delete_Fl_RGB_Image rgb3);;
  mret rgb1.

(** [Fl_Image_Surface_Driver::RGB3_to_RGB1] *)
Definition RGB3_to_RGB1 (rgb3 : addr) (W H : Z) : M heap addr :=
  img ← load_img rgb3;
  '(rgb3, need_copy) ←
    (if decide (W ≠ data_w img ∨ H ≠ data_h img)
     then c ← Fl_RGB_Image_copy rgb3 W H; mret (c, true)
     else mret (rgb3, false));
  RGB3_to_RGB1_reduce rgb3 need_copy W H.
End Luminance.

(** The intensity the reducer is specified to give pixel [(i, j)] of a
    source with bytes [Src] and row stride [ld]. *)
Definition gray (Src : list Z) (ld i j : Z) : Z :=
  (byte_at Src (i * ld + 3 * j) + byte_at Src (i * ld + 3 * j + 1)
   + byte_at Src (i * ld + 3 * j + 2)) ÷ 3.

(** The row stride [RGB3_to_RGB1] reads an image with:
    [ld = rgb3->ld(); if (!ld) ld = 3 * W;] *)
Definition stride (img : Fl_RGB_Image) (W : Z) : Z :=
  if decide (ld img = 0) then 3 * W else ld img.

(** What [RGB3_to_RGB1] expects of its arguments: [rgb3] is a depth-3
    image whose bytes [Sb] start block [sb]; the requested size is not
    negative and fits in [int]; an image that already has the requested
    size holds all the rows the loops read. *)
Record rgb3_source (h0 : heap) (rgb3 : addr) (img : Fl_RGB_Image)
    (sb : addr) (Sb : list Z) (W H : Z) : Prop := {
  rs_img : h0 !! rgb3 = Some (Rgb img);
  rs_array : array img = (sb, 0);
  rs_bytes : h0 !! sb = Some (Bytes Sb);
  rs_depth : d img = 3;
  rs_uchar : Forall is_uchar Sb;
  rs_W : 0 ≤ W;
  rs_H : 0 ≤ H;
  rs_int_row : 3 * W ≤ INT_MAX;
  rs_int : 3 * W * H ≤ INT_MAX;
  rs_extent : W = data_w img → H = data_h img →
    0 ≤ stride img W ∧ H * stride img W ≤ INT_MAX ∧
    (0 < W → 0 < H → (H - 1) * stride img W + 3 * W ≤ Z.of_nat (length Sb))
}.

(** What the reducer expects of the resampling collaborator: [W] x [H]
    pixels of the depth of the source, each byte a [uchar]. *)
Record resampler (resample : Fl_RGB_Image → list Z → Z → Z → list Z) : Prop := {
  resample_length : ∀ img bs W H, 0 ≤ W → 0 ≤ H → 0 ≤ d img →
    Z.of_nat (length (resample img bs W H)) = W * H * d img;
  resample_uchar : ∀ img bs W H,
    Forall is_uchar bs → Forall is_uchar (resample img bs W H)
}.

(** The bytes and the row stride the loops of [RGB3_to_RGB1] read: those
    of the source, or of its resampled copy when the sizes differ. *)
Definition reduced_source (resample : Fl_RGB_Image → list Z → Z → Z → list Z)
    (img : Fl_RGB_Image) (Sb : list Z) (W H : Z) : list Z * Z :=
  if decide (W ≠ data_w img ∨ H ≠ data_h img)
  then (resample img Sb W H, 3 * W)
  else (Sb, stride img W).

(** The output buffer [Oc] when the loops of [RGB3_to_RGB1] stand at
    [(i, j)]. *)
Definition gray_inv (Src O0 : list Z) (W H ld : Z) (i j : Z) (Oc : list Z) : Prop :=
  length Oc = length O0 ∧
  ∀ i' j', 0 ≤ i' < H → 0 ≤ j' < W → mixed i j i' j' →
    byte_at Oc (i' * W + j') = gray Src ld i' j'.

(** A nearest-neighbour resampler, to run the reducer on. *)
Definition nearest (img : Fl_RGB_Image) (bs : list Z) (W H : Z) : list Z :=
  let row := if decide (ld img = 0) then data_w img * d img else ld img in
  (λ k, let i := k `div` (W * d img) in
        let j := (k `mod` (W * d img)) `div` d img in
        let c := k `mod` d img in
        byte_at bs ((i * data_h img) `div` H * row
                    + (j * data_w img) `div` W * d img + c))
  <$> seqZ 0 (W * H * d img).

Definition rgb_heap : heap :=
  <[1%positive := Rgb (mkRGB (2%positive, 0) false 2 2 3 0 2 2)]>
  (<[2%positive := Bytes [10; 20; 30; 40; 50; 60; 70; 80; 91; 255; 255; 255]]> ∅).

(** ** Surfaces *)

(** A pixel buffer of the platform: its pixel size and its RGB bytes. *)
Record pixmap := mkPixmap {
  pm_w : Z;
  pm_h : Z;
  pm_bytes : list Z
}.

(** The program state this file works on. *)
Record World := mkWorld {
  heap_ : heap;
  (* the platform: pixel buffers by [Fl_Offscreen] handle, and the screen
     scale factor as a fraction *)
  buffers : gmap Z pixmap;
  scale_ : Z * Z;
  (* [Fl_Surface_Device]: the current drawing surface and the stack under it *)
  surface_ : addr;
  surface_stack : list addr;
  (* the statics of the fl_XXX_offscreen() functions; [max] is the static
     local of [find_slot] *)
  offscreen_api_surface : list (option addr);
  count_offscreens : Z;
  max : Z
}.

Definition with_heap (h : heap) (W : World) : World :=
  mkWorld h (buffers W) (scale_ W) (surface_ W) (surface_stack W)
          (offscreen_api_surface W) (count_offscreens W) (max W).
Definition with_buffers (b : gmap Z pixmap) (W : World) : World :=
  mkWorld (heap_ W) b (scale_ W) (surface_ W) (surface_stack W)
          (offscreen_api_surface W) (count_offscreens W) (max W).
Definition with_scale (sc : Z * Z) (W : World) : World :=
  mkWorld (heap_ W) (buffers W) sc (surface_ W) (surface_stack W)
          (offscreen_api_surface W) (count_offscreens W) (max W).
Definition with_surface (cur : addr) (stk : list addr) (W : World) : World :=
  mkWorld (heap_ W) (buffers W) (scale_ W) cur stk
          (offscreen_api_surface W) (count_offscreens W) (max W).
Definition with_registry (arr : list (option addr)) (count mx : Z) (W : World) : World :=
  mkWorld (heap_ W) (buffers W) (scale_ W) (surface_ W) (surface_stack W)
          arr count mx.

(** A heap computation, run on the heap of the world. *)
Definition in_heap {A} (m : M heap A) : M World A := λ W,
  match m (heap_ W) with
  | Some (a, h) => Some (a, with_heap h W)
  | None => None
  end.

Definition load_surface (a : addr) : M World Fl_Image_Surface := λ W,
  match heap_ W !! a with
  | Some (Surf s) => Some (s, W)
  | _ => None
  end.

Definition load_driver (a : addr) : M World Fl_Image_Surface_Driver := λ W,
  match heap_ W !! a with
  | Some (Drv drv) => Some (drv, W)
  | _ => None
  end.

(** Assignment to a member of a live driver or surface. *)
Definition store_driver (a : addr) (drv : Fl_Image_Surface_Driver) : M World unit := λ W,
  match heap_ W !! a with
  | Some (Drv _) => Some (tt, with_heap (<[a := Drv drv]> (heap_ W)) W)
  | _ => None
  end.

Definition store_surface (a : addr) (s : Fl_Image_Surface) : M World unit := λ W,
  match heap_ W !! a with
  | Some (Surf _) => Some (tt, with_heap (<[a := Surf s]> (heap_ W)) W)
  | _ => None
  end.

(** [p->member] through a pointer that may be null. *)
Definition deref {St} (p : option addr) : M St addr :=
  match p with
  | Some a => mret a
  | None => mfail_
  end.

(** *** The platform *)

(** Modelled from the spec: the pixel size of [l] logical units at scale
    factor [sc], [round(logical x scale)]. *)
Definition physical (sc : Z * Z) (l : Z) : Z :=
  (2 * l * sc.1 + sc.2) `div` (2 * sc.2).

(** Modelled from the spec: [Fl_Image_Surface_Driver::newImageSurfaceDriver]
    is the platform's factory, declared outside this file.  Given a buffer
    it wraps it, borrowed, ignoring [high_res]; otherwise it allocates an
    owned buffer whose pixel size is the logical size, scaled by the current
    scale factor when [high_res] is set.  The driver records the size it
    was asked for: what [printable_rect] reports and [rescale] passes back
    as the unchanged logical size. *)
Definition newImageSurfaceDriver (w h high_res off : Z) : M World addr :=
  if decide (off ≠ 0) then
    in_heap (alloc (Drv (mkDriver None w h off true)))
  else
    W ← get_state;
    let pw := if decide (high_res ≠ 0) then physical (scale_ W) w else w in
    let ph := if decide (high_res ≠ 0) then physical (scale_ W) h else h in
    let handle := fresh ({[0]} ∪ dom (buffers W)) in
    put_state (with_buffers
      (<[handle := mkPixmap pw ph (replicate (Z.to_nat (3 * pw * ph)) 0)]>
         (buffers W)) W);;
    in_heap (alloc (Drv (mkDriver None w h handle false))).

(** Modelled from the spec: the driver's destructor, declared outside this
    file, releases the buffer it owns and nothing when the buffer is
    borrowed or was taken away by [get_offscreen_before_delete_]. *)
Definition delete_driver (a : addr) : M World unit :=
  drv ← load_driver a;
  W ← get_state;
  when_ (negb (external_offscreen drv) && bool_decide (offscreen drv ≠ 0))
    (put_state (with_buffers (delete (offscreen drv) (buffers W)) W));;
  in_heap (free a).

(** Modelled from the spec: the driver's [image()], declared outside this
    file, returns the content of the pixel buffer as a new depth-3 image of
    the buffer's pixel size that owns its copy of the bytes. *)
Definition driver_image (a : addr) : M World addr :=
  drv ← load_driver a;
  W ← get_state;
  pm ← (match buffers W !! offscreen drv with
        | Some pm => mret pm
        | None => mfail_
        end);
  bits ← in_heap (alloc (Bytes (pm_bytes pm)));
  img ← in_heap (new_Fl_RGB_Image (bits, 0) (pm_w pm) (pm_h pm) 3 0);
  out ← in_heap (load_img img);
  in_heap (store_img img (set_alloc_array true out));;
  mret img.

(** Modelled from the spec: [Fl_Image::scale(width, height, 1, 1)],
    declared outside this file, sets the size the image reports and draws
    at, leaving the pixel data alone. *)
Definition set_size (width height : Z) (img : Fl_RGB_Image) : Fl_RGB_Image :=
  {| array := array img; alloc_array := alloc_array img;
     data_w := data_w img; data_h := data_h img;
     d := d img; ld := ld img; w_ := width; h_ := height |}.

Definition Fl_Image_scale (img : addr) (width height proportional can_expand : Z)
    : M World unit :=
  i ← in_heap (load_img img);
  in_heap (store_img img (set_size width height i)).

(** Modelled from the spec: [Fl_Shared_Image::get(rgb)] and
    [Fl_Shared_Image::scale], declared outside this file: a shared image
    wrapping [rgb], and the size it reports. *)
Definition Fl_Shared_Image_get (rgb : addr) : M World addr :=
  i ← in_heap (load_img rgb);
  in_heap (alloc (Shared rgb (w_ i) (h_ i))).

Definition Fl_Shared_Image_scale (s_img : addr) (width height proportional can_expand : Z)
    : M World unit := λ W,
  match heap_ W !! s_img with
  | Some (Shared rgb _ _) =>
      Some (tt, with_heap (<[s_img := Shared rgb width height]> (heap_ W)) W)
  | _ => None
  end.

(** *** [Fl_Surface_Device] *)

(** Modelled from the spec: [Fl_Surface_Device::surface()], declared
    outside this file, is the active drawing destination. *)
Definition surface : M World addr := W ← get_state; mret (surface_ W).

(** Modelled from the spec: the driver's [set_current()], declared outside
    this file, makes the driver the active drawing destination. *)
Definition driver_set_current (a : addr) : M World unit :=
  W ← get_state; put_state (with_surface a (surface_stack W) W).

(** [Fl_Image_Surface::set_current] *)
Definition Fl_Image_Surface_set_current (this : addr) : M World unit :=
  s ← load_surface this;
  match platform_surface s with
  | Some ps => driver_set_current ps
  | None => mret tt
  end.

(** The virtual call [dev->set_current()]: [Fl_Image_Surface::set_current]
    for an image surface; a driver or another device becomes the active
    destination itself. *)
Definition set_current (dev : addr) : M World unit :=
  W ← get_state;
  match heap_ W !! dev with
  | Some (Surf _) => Fl_Image_Surface_set_current dev
  | Some (Drv _) | Some Device => driver_set_current dev
  | _ => mfail_
  end.

(** Modelled from the spec: [Fl_Surface_Device::push_current] and
    [pop_current], declared outside this file, are the activation protocol:
    make a surface the active target, keeping the previous one on a stack;
    restore the previous one.  Popping the empty stack is a contract
    violation. *)
Definition push_current (new_current : addr) : M World unit :=
  W ← get_state;
  put_state (with_surface (surface_ W) (surface_ W :: surface_stack W) W);;
  set_current new_current.

Definition pop_current : M World unit :=
  W ← get_state;
  match surface_stack W with
  | prev :: rest => put_state (with_surface prev rest W)
  | [] => mfail_
  end.

(** Modelled from the spec: the driver's [end_current()], declared outside
    this file, is the deactivation of the surface: the surface is popped
    off the activation stack, the surface under it becoming the current
    one. *)
Definition driver_end_current (a : addr) : M World unit :=
  _ ← load_driver a; pop_current.

(** *** [Fl_Image_Surface] *)

Section Surfaces.
(** The rasteriser: the bytes of a pixel buffer after the image with
    header [img] and bytes [bs] is drawn on it at [(x, y)]. *)
Variable paint : Fl_RGB_Image → list Z → Z → Z → pixmap → list Z.

(** Modelled from the spec: [Fl_RGB_Image::draw(x, y)], declared outside
    this file, draws the image on the current surface; what it does to
    a surface that is no image surface is outside this model. *)
Definition Fl_RGB_Image_draw (rgb : addr) (x y : Z) : M World unit :=
  img ← in_heap (load_img rgb);
  bs ← in_heap (load_pixels (array img));
  W ← get_state;
  match heap_ W !! surface_ W with
  | Some (Drv drv) =>
      match buffers W !! offscreen drv with
      | Some pm =>
          put_state (with_buffers
            (<[offscreen drv := mkPixmap (pm_w pm) (pm_h pm) (paint img bs x y pm)]>
               (buffers W)) W)
      | None => mfail_
      end
  | Some Device => mret tt
  | _ => mfail_
  end.

(** [new Fl_Image_Surface(w, h, high_res, off)]; the graphics driver the
    constructor also installs is not part of this state. *)
Definition Fl_Image_Surface_new (w h high_res off : Z) : M World addr :=
  this ← in_heap (alloc (Surf (mkSurface None)));
  ps ← newImageSurfaceDriver w h high_res off;
  store_surface this (mkSurface (Some ps));;
  drv ← load_driver ps;
  store_driver ps (mkDriver (Some this) (width drv) (height drv)
                            (offscreen drv) (external_offscreen drv));;
  mret this.

(** [Fl_Image_Surface::is_current] *)
Definition is_current (this : addr) : M World bool :=
  s ← load_surface this;
  cur ← surface;
  mret (bool_decide (Some cur = platform_surface s)).

(** [delete surface]: [Fl_Image_Surface::~Fl_Image_Surface], then the
    release of the object; [delete] of a null driver pointer does
    nothing. *)
Definition Fl_Image_Surface_delete (this : addr) : M World unit :=
  cur ← is_current this;
  s ← load_surface this;
  when_ cur (ps ← deref (platform_surface s); driver_end_current ps);;
  match platform_surface s with
  | Some ps => delete_driver ps
  | None => mret tt
  end;;
  in_heap (free this).

(** [Fl_Image_Surface::offscreen] *)
Definition Fl_Image_Surface_offscreen (this : addr) : M World Z :=
  s ← load_surface this;
  match platform_surface s with
  | Some ps => drv ← load_driver ps; mret (offscreen drv)
  | None => mret 0
  end.

(** [Fl_Image_Surface_Driver::printable_rect]: the values stored through
    [w] and [h]. *)
Definition driver_printable_rect (ps : addr) : M World (Z * Z) :=
  drv ← load_driver ps;
  mret (width drv, height drv).

(** [Fl_Image_Surface::printable_rect] *)
Definition printable_rect (this : addr) : M World (Z * Z) :=
  s ← load_surface this;
  ps ← deref (platform_surface s);
  driver_printable_rect ps.

(** [Fl_Image_Surface::image], the virtual call
    [platform_surface->image()] being [read]: each platform implements the
    driver's [image()] its own way. *)
Definition image_with (read : addr → M World addr) (this : addr) : M World addr :=
  s ← load_surface this;
  cur ← surface;
  let need_push := bool_decide (Some cur ≠ platform_surface s) in
  ps ← deref (platform_surface s);
  when_ need_push (push_current ps);;
  img ← read ps;
  when_ need_push pop_current;;
  drv ← load_driver ps;
  Fl_Image_scale img (width drv) (height drv) 1 1;;
  mret img.

(** [Fl_Image_Surface::image] *)
Definition image (this : addr) : M World addr := image_with driver_image this.

(** [Fl_Image_Surface::highres_image]; [None] is [NULL]. *)
Definition highres_image (this : addr) : M World (option addr) :=
  s ← load_surface this;
  match platform_surface s with
  | None => mret None
  | Some ps =>
      rgb ← image this;
      s_img ← Fl_Shared_Image_get rgb;
      '(width, height) ← driver_printable_rect ps;
      Fl_Shared_Image_scale s_img width height 1 1;;
      mret (Some s_img)
  end.

(** [Fl_Image_Surface::get_offscreen_before_delete_] *)
Definition get_offscreen_before_delete_ (this : addr) : M World Z :=
  s ← load_surface this;
  ps ← deref (platform_surface s);
  drv ← load_driver ps;
  let keep := offscreen drv in
  store_driver ps (mkDriver (image_surface_ drv) (width drv) (height drv)
                            0 (external_offscreen drv));;
  mret keep.

(** [Fl_Image_Surface::rescale] *)
Definition rescale (this : addr) : M World unit :=
  rgb ← image this;
  '(w, h) ← printable_rect this;
  s ← load_surface this;
  ps ← deref (platform_surface s);
  delete_driver ps;;
  ps ← newImageSurfaceDriver w h 1 0;
  store_surface this (mkSurface (Some ps));;
  push_current this;;
  Fl_RGB_Image_draw rgb 0 0;;
  pop_current;;
  in_heap (delete_Fl_RGB_Image rgb).

(** *** The fl_XXX_offscreen() functions *)

(** [offscreen_api_surface[i]] *)
Definition read_slot (i : Z) : M World (option addr) := λ W,
  if decide (0 ≤ i) then
    match offscreen_api_surface W !! Z.to_nat i with
    | Some c => Some (c, W)
    | None => None
    end
  else None.

(** [offscreen_api_surface[i] = c] *)
Definition write_slot (i : Z) (c : option addr) : M World unit := λ W,
  if decide (0 ≤ i < Z.of_nat (length (offscreen_api_surface W))) then
    Some (tt, with_registry (<[Z.to_nat i := c]> (offscreen_api_surface W))
                (count_offscreens W) (max W) W)
  else None.

(** The scan of [find_slot], from slot [num] on, for at most [n] slots:
    the first null slot. *)
Fixpoint find_slot_scan (n : nat) (num : Z) : M World (option Z) :=
  match n with
  | O => mret None
  | S n' =>
      c ← read_slot num;
      match c with
      | None => mret (Some num)
      | Some _ => find_slot_scan n' (num + 1)
      end
  end.

(** [max += n; offscreen_api_surface = realloc(offscreen_api_surface,
    max * sizeof(void * ))]: the array is resized to [max] slots; the
    slots gained are indeterminate, and are given as null; no scan reads
    a slot at or above [count_offscreens]. *)
Definition realloc_slots (n : Z) : M World unit :=
  W ← get_state;
  let max := max W + n in
  put_state (with_registry
    (resize (Z.to_nat max) None (offscreen_api_surface W))
    (count_offscreens W) max W).

(** [find_slot] *)
Definition find_slot : M World Z :=
  W ← get_state;
  found ← find_slot_scan (Z.to_nat (count_offscreens W)) 0;
  match found with
  | Some num => mret num
  | None =>
      when_ (bool_decide (max W ≤ count_offscreens W)) (realloc_slots 20);;
      W ← get_state;
      put_state (with_registry (offscreen_api_surface W)
                   (count_offscreens W + 1) (max W) W);;
      mret (count_offscreens W)
  end.

(** [fl_create_offscreen] *)
Definition fl_create_offscreen (w h : Z) : M World Z :=
  rank ← find_slot;
  s ← Fl_Image_Surface_new w h 1 0;
  write_slot rank (Some s);;
  c ← read_slot rank;
  s ← deref c;
  Fl_Image_Surface_offscreen s.

(** The scan the three functions below share: the first slot [i], from
    [i] on and for at most [n] slots, with
    [offscreen_api_surface[i] && offscreen_api_surface[i]->offscreen() == ctx]. *)
Fixpoint find_offscreen (n : nat) (i : Z) (ctx : Z) : M World (option Z) :=
  match n with
  | O => mret None
  | S n' =>
      c ← read_slot i;
      hit ← (match c with
             | Some s => off ← Fl_Image_Surface_offscreen s;
                         mret (bool_decide (off = ctx))
             | None => mret false
             end);
      if (hit : bool) then mret (Some i) else find_offscreen n' (i + 1) ctx
  end.

(** [fl_delete_offscreen] *)
Definition fl_delete_offscreen (ctx : Z) : M World unit :=
  if decide (ctx = 0) then mret tt else
  W ← get_state;
  found ← find_offscreen (Z.to_nat (count_offscreens W)) 0 ctx;
  match found with
  | Some i =>
      c ← read_slot i;
      s ← deref c;
      Fl_Image_Surface_delete s;;
      write_slot i None
  | None => mret tt
  end.

(** [fl_begin_offscreen] *)
Definition fl_begin_offscreen (ctx : Z) : M World unit :=
  W ← get_state;
  found ← find_offscreen (Z.to_nat (count_offscreens W)) 0 ctx;
  match found with
  | Some i =>
      c ← read_slot i;
      s ← deref c;
      push_current s
  | None => mret tt
  end.

(** [fl_end_offscreen] *)
Definition fl_end_offscreen : M World unit := pop_current.

(** [fl_rescale_offscreen]: the value of [ctx] on return. *)
Definition fl_rescale_offscreen (ctx : Z) : M World Z :=
  W ← get_state;
  found ← find_offscreen (Z.to_nat (count_offscreens W)) 0 ctx;
  match found with
  | None => mret ctx
  | Some i =>
      c ← read_slot i;
      s ← deref c;
      rescale s;;
      c ← read_slot i;
      s ← deref c;
      Fl_Image_Surface_offscreen s
  end.
End Surfaces.

(** *** The members that forward to the driver *)

Section Forwarding.
(** The members of the driver the platform implements, to which the
    surface forwards: [origin(int, int)], [origin(int*, int* )] given the
    values its two arguments point to and returning the values they point
    to afterwards, [translate], [untranslate] and [mask]. *)
Variable driver_origin : addr → Z → Z → M World unit.
Variable driver_get_origin : addr → Z → Z → M World (Z * Z).
Variable driver_translate : addr → Z → Z → M World unit.
Variable driver_untranslate : addr → M World unit.
Variable driver_mask : addr → addr → M World unit.

(** [Fl_Image_Surface::origin(int x, int y)] *)
Definition origin (this : addr) (x y : Z) : M World unit :=
  s ← load_surface this;
  ps ← deref (platform_surface s);
  driver_origin ps x y.

(** [Fl_Image_Surface::origin(int *x, int *y)]: the values of [*x] and
    [*y] on return, [x] and [y] being their values at the call. *)
Definition get_origin (this : addr) (x y : Z) : M World (Z * Z) :=
  s ← load_surface this;
  match platform_surface s with
  | Some ps => driver_get_origin ps x y
  | None => mret (x, y)
  end.

(** [Fl_Image_Surface::translate] *)
Definition translate (this : addr) (x y : Z) : M World unit :=
  s ← load_surface this;
  match platform_surface s with
  | Some ps => driver_translate ps x y
  | None => mret tt
  end.

(** [Fl_Image_Surface::untranslate] *)
Definition untranslate (this : addr) : M World unit :=
  s ← load_surface this;
  match platform_surface s with
  | Some ps => driver_untranslate ps
  | None => mret tt
  end.

(** [Fl_Image_Surface::mask] *)
Definition mask (this : addr) (m : addr) : M World unit :=
  s ← load_surface this;
  ps ← deref (platform_surface s);
  driver_mask ps m.
End Forwarding.

(** The state at program start, at scale factor [sc]: the display is the
    current surface, no offscreen exists. *)
Definition initial_world (sc : Z * Z) : World :=
  mkWorld {[1%positive := Device]} ∅ sc 1%positive [] [] 0 0.

(** *** Vocabulary of the registry properties *)

(** What [offscreen()] returns for the surface at [s], if [s] and its
    driver are live. *)
Definition handle_of (W : World) (s : addr) : option Z :=
  match heap_ W !! s with
  | Some (Surf sf) =>
      match platform_surface sf with
      | None => Some 0
      | Some ps =>
          match heap_ W !! ps with
          | Some (Drv drv) => Some (offscreen drv)
          | _ => None
          end
      end
  | _ => None
  end.

(** Slot [k] is null, or holds a live surface whose buffer handle is not
    [ctx]. *)
Definition slot_misses (W : World) (ctx : Z) (k : Z) : Prop :=
  ∃ c, offscreen_api_surface W !! Z.to_nat k = Some c ∧
    match c with
    | None => True
    | Some s => ∃ z, handle_of W s = Some z ∧ z ≠ ctx
    end.

(** Slot [k] holds the live surface [s], whose buffer handle is [ctx]. *)
Definition slot_hits (W : World) (ctx : Z) (k : Z) (s : addr) : Prop :=
  offscreen_api_surface W !! Z.to_nat k = Some (Some s) ∧
  handle_of W s = Some ctx.

(** Slot [k] of the registry is taken: it holds a surface pointer. *)
Definition slot_taken (W : World) (k : Z) : Prop :=
  ∃ s, offscreen_api_surface W !! Z.to_nat k = Some (Some s).

(** The objects [new Fl_Image_Surface(w, h, 1)] allocates in [W]: the
    surface, its driver, the handle of its buffer. *)
Definition new_surface_addr (W : World) : addr := fresh (dom (heap_ W)).
Definition new_driver_addr (W : World) : addr :=
  fresh (dom (<[new_surface_addr W := Surf (mkSurface None)]> (heap_ W))).
Definition new_handle (W : World) : Z := fresh ({[0]} ∪ dom (buffers W)).

(** The buffer the platform allocates for a high-resolution surface of
    [w] x [h] logical units. *)
Definition new_pixmap (W : World) (w h : Z) : pixmap :=
  mkPixmap (physical (scale_ W) w) (physical (scale_ W) h)
    (replicate (Z.to_nat (3 * physical (scale_ W) w * physical (scale_ W) h)) 0).

(** [W] after [new Fl_Image_Surface(w, h, 1)]. *)
Definition with_new_surface (w h : Z) (W : World) : World :=
  with_heap
    (<[new_driver_addr W := Drv (mkDriver (Some (new_surface_addr W)) w h
                                          (new_handle W) false)]>
       (<[new_surface_addr W := Surf (mkSurface (Some (new_driver_addr W)))]>
          (heap_ W)))
    (with_buffers (<[new_handle W := new_pixmap W w h]> (buffers W)) W).

(** The objects [new Fl_Image_Surface(w, h, high_res, off)] makes in [W]:
    the buffer the platform allocates when [off] is null, the driver, and
    the state the constructor leaves. *)
Definition constructed_pixmap (w h high_res : Z) (W : World) : pixmap :=
  let pw := if decide (high_res ≠ 0) then physical (scale_ W) w else w in
  let ph := if decide (high_res ≠ 0) then physical (scale_ W) h else h in
  mkPixmap pw ph (replicate (Z.to_nat (3 * pw * ph)) 0).

Definition constructed_driver (w h off : Z) (W : World) : Fl_Image_Surface_Driver :=
  if decide (off ≠ 0) then mkDriver (Some (new_surface_addr W)) w h off true
  else mkDriver (Some (new_surface_addr W)) w h (new_handle W) false.

Definition with_constructed (w h high_res off : Z) (W : World) : World :=
  with_heap
    (<[new_driver_addr W := Drv (constructed_driver w h off W)]>
       (<[new_surface_addr W := Surf (mkSurface (Some (new_driver_addr W)))]>
          (heap_ W)))
    (with_buffers
       (if decide (off ≠ 0) then buffers W
        else <[new_handle W := constructed_pixmap w h high_res W]> (buffers W)) W).

(** [W] after [offscreen_api_surface[i] = c]. *)
Definition with_slot (i : Z) (c : option addr) (W : World) : World :=
  with_registry (<[Z.to_nat i := c]> (offscreen_api_surface W))
                (count_offscreens W) (max W) W.

(** The registry of [W] after [find_slot] found every slot taken. *)
Definition with_appended_slot (W : World) : World :=
  if bool_decide (max W ≤ count_offscreens W) then
    with_registry (resize (Z.to_nat (max W + 20)) None (offscreen_api_surface W))
                  (count_offscreens W + 1) (max W + 20) W
  else
    with_registry (offscreen_api_surface W) (count_offscreens W + 1) (max W) W.

(** Slot [i] of the registry holds the live surface [s], served by the
    live driver [ps] with fields [drv]. *)
Definition slot_owner (W : World) (i : Z) (s ps : addr)
    (drv : Fl_Image_Surface_Driver) : Prop :=
  0 ≤ i < count_offscreens W ∧
  offscreen_api_surface W !! Z.to_nat i = Some (Some s) ∧
  heap_ W !! s = Some (Surf (mkSurface (Some ps))) ∧
  heap_ W !! ps = Some (Drv drv).

(** The invariant of the registry: the slots in use lie within the
    capacity [max], which is the length of the array and a multiple of 20;
    every taken slot owns a live surface with a live driver and a live,
    owned buffer; no surface, driver or buffer is shared by two slots. *)
Record registry_inv (W : World) : Prop := {
  ri_count : 0 ≤ count_offscreens W ≤ max W;
  ri_length : Z.of_nat (length (offscreen_api_surface W)) = max W;
  ri_grow : max W `mod` 20 = 0;
  ri_live : ∀ i s, 0 ≤ i < count_offscreens W →
    offscreen_api_surface W !! Z.to_nat i = Some (Some s) →
    ∃ ps drv, slot_owner W i s ps drv ∧
      external_offscreen drv = false ∧ offscreen drv ≠ 0 ∧
      is_Some (buffers W !! offscreen drv);
  ri_inj : ∀ i j s s' ps ps' drv drv',
    slot_owner W i s ps drv → slot_owner W j s' ps' drv' →
    s = s' ∨ ps = ps' ∨ offscreen drv = offscreen drv' → i = j
}.

(** The states a program reaches from its start by creating and deleting
    offscreens. *)
Inductive reachable : World → Prop :=
| reach_start (sc : Z * Z) : reachable (initial_world sc)
| reach_create (W W' : World) (w h ctx : Z) :
    reachable W → fl_create_offscreen w h W = Some (ctx, W') → reachable W'
| reach_delete (W W' : World) (ctx : Z) :
    reachable W → fl_delete_offscreen ctx W = Some (tt, W') → reachable W'.

(** The states a program reaches from its start through the
    fl_XXX_offscreen() functions, [fl_rescale_offscreen] being called on no
    offscreen that is the current drawing surface. *)
Inductive api_reachable : World → Prop :=
| api_start (sc : Z * Z) : api_reachable (initial_world sc)
| api_create (W W' : World) (w h ctx : Z) :
    api_reachable W → fl_create_offscreen w h W = Some (ctx, W') →
    api_reachable W'
| api_delete (W W' : World) (ctx : Z) :
    api_reachable W → fl_delete_offscreen ctx W = Some (tt, W') →
    api_reachable W'
| api_begin (W W' : World) (ctx : Z) :
    api_reachable W → fl_begin_offscreen ctx W = Some (tt, W') →
    api_reachable W'
| api_end (W W' : World) :
    api_reachable W → fl_end_offscreen W = Some (tt, W') →
    api_reachable W'
| api_rescale (paint : Fl_RGB_Image → list Z → Z → Z → pixmap → list Z)
    (W W' : World) (ctx ctx' : Z) :
    api_reachable W →
    (∀ i s ps drv, slot_owner W i s ps drv → offscreen drv = ctx →
       surface_ W ≠ ps) →
    fl_rescale_offscreen paint ctx W = Some (ctx', W') →
    api_reachable W'.

(** [W] after [delete] of the surface at [s] with its driver at [ps]. *)
Definition without_surface (s ps : addr) (drv : Fl_Image_Surface_Driver)
    (W : World) : World :=
  with_heap (delete s (delete ps (heap_ W)))
    (with_buffers
       (if negb (external_offscreen drv) && bool_decide (offscreen drv ≠ 0)
        then delete (offscreen drv) (buffers W) else buffers W) W).

(** The current surface [cur] and the stack [stk] that the destructor of
    the surface served by the driver at [ps] leaves: those of [W] when the
    driver is not the current surface; when it is, the destructor
    deactivates it, and they are the top of the stack of [W] and the rest
    of it. *)
Definition deactivated (W : World) (ps cur : addr) (stk : list addr) : Prop :=
  (surface_ W ≠ ps ∧ cur = surface_ W ∧ stk = surface_stack W) ∨
  (surface_ W = ps ∧ surface_stack W = cur :: stk).

(** The object at [a] is the display, no driver of an image surface. *)
Definition is_device (W : World) (a : addr) : Prop :=
  heap_ W !! a = Some Device.

(** The display is object 1 and lies at the bottom of the activation
    stack, as at program start. *)
Definition display_inv (W : World) : Prop :=
  is_device W 1%positive ∧
  last (surface_ W :: surface_stack W) = Some 1%positive.

(** The surface at [s] is served by the driver at [ps], which is [drv]
    and whose pixel buffer is [pm]. *)
Definition surface_at (W : World) (s ps : addr) (drv : Fl_Image_Surface_Driver)
    (pm : pixmap) : Prop :=
  heap_ W !! s = Some (Surf (mkSurface (Some ps))) ∧
  heap_ W !! ps = Some (Drv drv) ∧
  buffers W !! offscreen drv = Some pm.

(** The objects [image()] allocates in [W]: the pixel array and the
    image. *)
Definition image_bits_addr (W : World) : addr := fresh (dom (heap_ W)).
Definition image_addr (W : World) (pm : pixmap) : addr :=
  fresh (dom (<[image_bits_addr W := Bytes (pm_bytes pm)]> (heap_ W))).

(** The image [image()] returns for a driver [drv] with buffer [pm]: the
    pixels of the buffer, reported at the size the driver records. *)
Definition extracted (W : World) (drv : Fl_Image_Surface_Driver) (pm : pixmap)
    : Fl_RGB_Image :=
  mkRGB (image_bits_addr W, 0) true (pm_w pm) (pm_h pm) 3 0
        (width drv) (height drv).

(** [W] after [image()]. *)
Definition with_image (drv : Fl_Image_Surface_Driver) (pm : pixmap) (W : World)
    : World :=
  with_heap (<[image_addr W pm := Rgb (extracted W drv pm)]>
               (<[image_bits_addr W := Bytes (pm_bytes pm)]> (heap_ W))) W.

(** [W] after [delete platform_surface] in [rescale], the image having
    been extracted: the driver at [ps] and the buffer it owns are gone. *)
Definition with_driver_deleted (ps : addr) (drv : Fl_Image_Surface_Driver)
    (pm : pixmap) (W : World) : World :=
  with_heap (delete ps (heap_ (with_image drv pm W)))
    (with_buffers (delete (offscreen drv) (buffers W)) (with_image drv pm W)).

(** The driver [rescale] allocates, and the handle of its buffer. *)
Definition rescaled_driver_addr (ps : addr) (drv : Fl_Image_Surface_Driver)
    (pm : pixmap) (W : World) : addr :=
  fresh (dom (heap_ (with_driver_deleted ps drv pm W))).
Definition rescaled_handle (ps : addr) (drv : Fl_Image_Surface_Driver)
    (pm : pixmap) (W : World) : Z :=
  new_handle (with_driver_deleted ps drv pm W).

(** The buffer of the rescaled surface: the buffer allocated for the
    logical size the old driver recorded, at the current scale factor, with
    the extracted image drawn on it at (0, 0). *)
Definition rescaled_pixmap (paint : Fl_RGB_Image → list Z → Z → Z → pixmap → list Z)
    (drv : Fl_Image_Surface_Driver) (pm : pixmap) (W : World) : pixmap :=
  let blank := new_pixmap W (width drv) (height drv) in
  mkPixmap (pm_w blank) (pm_h blank)
           (paint (extracted W drv pm) (pm_bytes pm) 0 0 blank).

(** [W] after [rescale()] of the surface at [s]. *)
Definition rescaled (paint : Fl_RGB_Image → list Z → Z → Z → pixmap → list Z)
    (s ps : addr) (drv : Fl_Image_Surface_Driver) (pm : pixmap) (W : World)
    : World :=
  let W2 := with_driver_deleted ps drv pm W in
  let ps' := rescaled_driver_addr ps drv pm W in
  let handle' := rescaled_handle ps drv pm W in
  with_heap
    (delete (image_addr W pm) (delete (image_bits_addr W)
       (<[s := Surf (mkSurface (Some ps'))]>
          (<[ps' := Drv (mkDriver None (width drv) (height drv) handle' false)]>
             (heap_ W2)))))
    (with_buffers
       (<[handle' := rescaled_pixmap paint drv pm W]> (buffers W2)) W).

(** [W] after [rescale()] of the surface at [s] when its driver [drv]
    borrows its buffer: the buffer stays, the new driver owns a new one. *)
Definition rescaled_borrowed
    (paint : Fl_RGB_Image → list Z → Z → Z → pixmap → list Z)
    (s ps : addr) (drv : Fl_Image_Surface_Driver) (pm : pixmap) (W : World)
    : World :=
  let ps' := rescaled_driver_addr ps drv pm W in
  let handle' := new_handle W in
  with_heap
    (delete (image_addr W pm) (delete (image_bits_addr W)
       (<[s := Surf (mkSurface (Some ps'))]>
          (<[ps' := Drv (mkDriver None (width drv) (height drv) handle' false)]>
             (delete ps (heap_ (with_image drv pm W)))))))
    (with_buffers (<[handle' := rescaled_pixmap paint drv pm W]> (buffers W)) W).

(** [n] calls of [fl_create_offscreen(w, h)]: the handles returned. *)
Fixpoint create_n (n : nat) (w h : Z) : M World (list Z) :=
  match n with
  | O => mret []
  | S n' => ctx ← fl_create_offscreen w h; rest ← create_n n' w h;
            mret (ctx :: rest)
  end.

(** *** Fixtures *)

(** A rasteriser to run the surfaces on: it stretches the image over the
    whole buffer. *)
Definition stretch (img : Fl_RGB_Image) (bs : list Z) (x y : Z) (pm : pixmap) : list Z :=
  nearest img bs (pm_w pm) (pm_h pm).

(** The state a computation leaves. *)
Definition world_after {A} (m : M World A) (W : World) : World :=
  match m W with
  | Some (_, W') => W'
  | None => W
  end.

(** One high-resolution offscreen of 2 x 1 units at scale factor 2: the
    surface is object 2, its driver object 3, its buffer has handle 1 and
    4 x 2 pixels. *)
Definition hires_world : World :=
  world_after (fl_create_offscreen 2 1) (initial_world (2, 1)).

(** One offscreen of 2 x 1 units created at scale factor 1, the scale
    factor having changed to 2 since. *)
Definition zoomed_world : World :=
  with_scale (2, 1) (world_after (fl_create_offscreen 2 1) (initial_world (1, 1))).

(** Two, then three offscreens at scale factor 2: the surfaces are the
    objects 2, 4 and 6, their drivers 3, 5 and 7, their handles 1, 2
    and 3. *)
Definition two_offscreens : World :=
  world_after (fl_create_offscreen 1 1) hires_world.
Definition three_offscreens : World :=
  world_after (fl_create_offscreen 3 3) two_offscreens.

(** A surface of 2 x 1 pixels built around the buffer of [hires_world],
    which it borrows: the surface is object 4, its driver object 5. *)
Definition borrowed_world : World :=
  world_after (Fl_Image_Surface_new 2 1 0 1) hires_world.

(** ** The routines, run on the fixtures *)

Example reverse_rows_3x2 :
  reverse_rows 2 3 [1; 2; 3; 4; 5; 6] = [5; 6; 3; 4; 1; 2].
Proof. reflexivity. Qed.

Example copy_with_mask_run_top :
  (λ r, r.2 !! 3%positive) <$>
    copy_with_mask 1%positive (3%positive, 0) (4%positive, 0) 7 false test_heap
  = Some (Some (Bytes [10; 20; 30; 230; 240; 250; 7; 35; 40; 46; 75; 83; 91; 7])).
Proof. vm_compute. reflexivity. Qed.

Example copy_with_mask_run_bottom :
  (λ r, r.2 !! 3%positive) <$>
    copy_with_mask 1%positive (3%positive, 0) (4%positive, 0) 7 true test_heap
  = Some (Some (Bytes [105; 115; 125; 87; 97; 107; 7; 70; 80; 90; 4; 5; 6; 7])).
Proof. vm_compute. reflexivity. Qed.

Example RGB3_to_RGB1_same_size :
  (λ r, (r.1, r.2 !! r.1, r.2 !! 3%positive, dom r.2)) <$>
    RGB3_to_RGB1 nearest 1%positive 2 2 rgb_heap
  = Some (4%positive,
          Some (Rgb (mkRGB (3%positive, 0) true 2 2 1 0 2 2)),
          Some (Bytes [20; 50; 80; 255]),
          {[1%positive; 2%positive; 3%positive; 4%positive]}).
Proof. vm_compute. reflexivity. Qed.

(** ** Reasoning principles for the monad *)

Lemma bind_some {St A B} (m : M St A) (f : A → M St B) s a s' :
  m s = Some (a, s') → (m ≫= f) s = f a s'.
Proof. intros H. unfold mbind, M_bind. by rewrite H. Qed.

Lemma for_loop_inv {St L} (I : Z → L → St → Prop) n i0 st0
    (body : Z → L → M St L) s0 :
  I i0 st0 s0 →
  (∀ i st s, i0 ≤ i < i0 + Z.of_nat n → I i st s →
     ∃ st' s', body i st s = Some (st', s') ∧ I (i + 1) st' s') →
  ∃ st' s', for_loop n i0 st0 body s0 = Some (st', s') ∧ I (i0 + Z.of_nat n) st' s'.
Proof.
  revert i0 st0 s0. induction n as [|n IH]; intros i0 st0 s0 H0 Hstep.
  - exists st0, s0. split; [done|]. by replace (i0 + Z.of_nat 0) with i0 by lia.
  - destruct (Hstep i0 st0 s0) as (st1 & s1 & Hb & H1); [lia|done|].
    destruct (IH (i0 + 1) st1 s1) as (st2 & s2 & Hl & H2); [done| |].
    + intros i st s Hi. apply Hstep. lia.
    + exists st2, s2. split.
      * cbn [for_loop]. by rewrite (bind_some _ _ _ _ _ Hb).
      * by replace (i0 + Z.of_nat (S n)) with (i0 + 1 + Z.of_nat n) by lia.
Qed.

Lemma for_upto_inv {St L} (I : Z → L → St → Prop) hi st0
    (body : Z → L → M St L) s0 :
  0 ≤ hi →
  I 0 st0 s0 →
  (∀ i st s, 0 ≤ i < hi → I i st s →
     ∃ st' s', body i st s = Some (st', s') ∧ I (i + 1) st' s') →
  ∃ st' s', for_upto hi st0 body s0 = Some (st', s') ∧ I hi st' s'.
Proof.
  intros Hhi H0 Hstep. unfold for_upto.
  destruct (for_loop_inv I (Z.to_nat hi) 0 st0 body s0) as (st' & s' & Hl & HI);
    [done| |].
  - intros i st s Hi. apply Hstep. lia.
  - exists st', s'. split; [done|]. by replace hi with (0 + Z.of_nat (Z.to_nat hi)) at 1 by lia.
Qed.

Lemma int_ok {St} (z : Z) (s : St) :
  INT_MIN ≤ z ≤ INT_MAX → int_ z s = Some (z, s).
Proof. intros H. unfold int_. by rewrite decide_True. Qed.

(** ** Reasoning about buffers *)

Lemma byte_at_lookup (l : list Z) (k : Z) :
  0 ≤ k < Z.of_nat (length l) → l !! Z.to_nat k = Some (byte_at l k).
Proof.
  intros Hk. unfold byte_at. rewrite decide_True by lia.
  destruct (lookup_lt_is_Some_2 l (Z.to_nat k)) as [v Hv]; [lia|].
  by rewrite Hv.
Qed.

Lemma byte_at_insert (l : list Z) (p k v : Z) :
  0 ≤ p < Z.of_nat (length l) →
  byte_at (<[Z.to_nat p := v]> l) k = if decide (k = p) then v else byte_at l k.
Proof.
  intros Hp. unfold byte_at. destruct (decide (k = p)) as [->|Hne].
  - rewrite decide_True by lia. rewrite list_lookup_insert_eq by lia. done.
  - destruct (decide (0 ≤ k)); [|done].
    rewrite list_lookup_insert_ne by lia. done.
Qed.

Lemma byte_at_uchar (l : list Z) (k : Z) :
  Forall is_uchar l → is_uchar (byte_at l k).
Proof.
  intros Hl. unfold byte_at. destruct (decide (0 ≤ k)); [|unfold is_uchar; lia].
  destruct (l !! Z.to_nat k) as [v|] eqn:Hv; [|unfold is_uchar; simpl; lia].
  simpl. eapply Forall_lookup_1; eauto.
Qed.

Lemma load_bytes (h : heap) (b : addr) (l : list Z) (k : Z) :
  h !! b = Some (Bytes l) → 0 ≤ k < Z.of_nat (length l) →
  load (b, k) h = Some (byte_at l k, h).
Proof.
  intros Hb Hk. unfold load. cbn [fst snd]. rewrite Hb.
  rewrite decide_True by lia. by rewrite byte_at_lookup.
Qed.

Lemma store_bytes (h : heap) (b : addr) (l : list Z) (k v : Z) :
  h !! b = Some (Bytes l) → 0 ≤ k < Z.of_nat (length l) →
  store (b, k) v h = Some (tt, <[b := Bytes (<[Z.to_nat k := uchar v]> l)]> h).
Proof.
  intros Hb Hk. unfold store. cbn [fst snd]. rewrite Hb.
  by rewrite decide_True by lia.
Qed.

Lemma blend_uchar (b f a : Z) :
  is_uchar b → is_uchar f → is_uchar a → is_uchar (blend b f a).
Proof.
  unfold is_uchar, blend. intros Hb Hf Ha.
  assert (0 ≤ b * (255 - a) + f * a ≤ 255 * 255) as Hx by nia.
  rewrite Z.quot_div_nonneg by lia. split.
  - apply Z.div_pos; lia.
  - apply Z.div_le_upper_bound; lia.
Qed.

Lemma uchar_id (z : Z) : is_uchar z → uchar z = z.
Proof. unfold is_uchar, uchar. intros H. apply Z.mod_small. lia. Qed.

Lemma pixel_index_inj (ls w i j c i' j' c' : Z) :
  3 * w ≤ ls → 0 ≤ i → 0 ≤ i' → 0 ≤ j < w → 0 ≤ j' < w →
  0 ≤ c < 3 → 0 ≤ c' < 3 →
  i * ls + 3 * j + c = i' * ls + 3 * j' + c' →
  i = i' ∧ j = j' ∧ c = c'.
Proof.
  intros Hls Hi Hi' Hj Hj' Hc Hc' Heq.
  destruct (Z.lt_trichotomy i i') as [Hlt|[->|Hgt]]; [nia|lia|nia].
Qed.

Lemma cell_index_inj (W i j i' j' : Z) :
  0 ≤ j < W → 0 ≤ j' < W → i * W + j = i' * W + j' → i = i' ∧ j = j'.
Proof.
  intros Hj Hj' Heq.
  destruct (Z.lt_trichotomy i i') as [Hlt|[->|Hgt]]; [nia|lia|nia].
Qed.

(** Equality of tuples of pointers, component by component. *)
Ltac pair_eq := repeat (apply (f_equal2 pair)); try reflexivity; try lia.

(** ** [copy_with_mask] *)

Section copy_with_mask_spec.
Context (h0 : heap) (mask ma dstb srcb : addr) (m : Fl_RGB_Image).
Context (A D S : list Z) (w h line_size : Z) (b2t : bool).
Context (Hmask : h0 !! mask = Some (Rgb m)).
Context (Harr : array m = (ma, 0)) (Hdw : data_w m = w) (Hdh : data_h m = h).
Context (HA : h0 !! ma = Some (Bytes A)).
Context (HD : h0 !! dstb = Some (Bytes D)).
Context (HS : h0 !! srcb = Some (Bytes S)).
Context (Hds : dstb ≠ srcb) (Hda : dstb ≠ ma).
Context (Hw : 0 ≤ w) (Hh : 0 ≤ h) (Hls : 3 * w ≤ line_size).
Context (HlenD : h * line_size ≤ Z.of_nat (length D)).
Context (HlenS : h * line_size ≤ Z.of_nat (length S)).
Context (HlenA : w * h ≤ Z.of_nat (length A)).
Context (HuD : Forall is_uchar D) (HuS : Forall is_uchar S).
Context (HuA : Forall is_uchar A).
Context (Hint : h * line_size ≤ INT_MAX).

Let pos := px line_size.
Let expected := cwm_expected A D S w h line_size b2t.
Let cwm_inv := cwm_inv A D S w h line_size b2t.

Lemma pos_bound i j c :
  0 ≤ i < h → 0 ≤ j < w → 0 ≤ c < 3 →
  0 ≤ pos i j c < h * line_size.
Proof. unfold pos, px. intros. nia. Qed.

Lemma mix_store_run (Dc : list Z) (p u v : Z) :
  length Dc = length D → 0 ≤ p < h * line_size →
  mix_store (dstb, p) (srcb, p) u v (<[dstb := Bytes Dc]> h0)
  = Some (tt, <[dstb := Bytes (<[Z.to_nat p :=
                 uchar ((byte_at Dc p * v + byte_at S p * u) ÷ 255)]> Dc)]> h0).
Proof.
  intros Hlen Hp. unfold mix_store.
  erewrite bind_some; last first.
  { apply load_bytes; [apply lookup_insert_eq|lia]. }
  erewrite bind_some; last first.
  { apply load_bytes; [by rewrite lookup_insert_ne|lia]. }
  erewrite store_bytes; [|apply lookup_insert_eq|lia].
  by rewrite insert_insert_eq.
Qed.

Lemma mask_row_bound i : 0 ≤ i < h → 0 ≤ mask_row b2t h i < h.
Proof. unfold mask_row. destruct b2t; lia. Qed.

(** One pixel of the inner loop. *)
Lemma cwm_pixel (i j : Z) (Dc : list Z) :
  0 ≤ i < h → 0 ≤ j < w → cwm_inv i j Dc →
  ∃ Dc', cwm_inv i (j + 1) Dc' ∧
    copy_with_mask_pixel
      ((ma, mask_row b2t h i * w + j), (srcb, pos i j 0), (dstb, pos i j 0))
      (<[dstb := Bytes Dc]> h0)
    = Some (((ma, mask_row b2t h i * w + j + 1),
             (srcb, pos i j 0 + 1 + 1 + 1), (dstb, pos i j 0 + 1 + 1 + 1)),
            <[dstb := Bytes Dc']> h0).
Proof.
  intros Hi Hj (Hlen & Hdone & Hrest).
  unfold copy_with_mask_pixel, padd. cbn [fst snd].
  pose proof (mask_row_bound i Hi) as Hr.
  pose proof (pos_bound i j 0 Hi Hj ltac:(lia)) as Hp0.
  pose proof (pos_bound i j 1 Hi Hj ltac:(lia)) as Hp1.
  pose proof (pos_bound i j 2 Hi Hj ltac:(lia)) as Hp2.
  assert (pos i j 0 + 1 = pos i j 1) as E1 by (unfold pos, px; lia).
  assert (pos i j 0 + 1 + 1 = pos i j 2) as E2 by (unfold pos, px; lia).
  rewrite E2, E1.
  set (u := byte_at A (mask_row b2t h i * w + j)).
  assert (is_uchar u) as Hu by (by apply byte_at_uchar).
  assert (uchar (255 - u) = 255 - u) as Hv
    by (apply uchar_id; unfold is_uchar in *; lia).
  (* the three bytes still hold the background *)
  assert (∀ c, 0 ≤ c < 3 → byte_at Dc (pos i j c) = byte_at D (pos i j c)) as Hold.
  { intros c Hc. apply Hrest. intros i' j' c' Hi' Hj' Hc' Hm Heq.
    destruct (pixel_index_inj line_size w i j c i' j' c') as [-> [-> ->]];
      [lia..|done|]. unfold mixed in Hm. lia. }
  assert (∀ c, 0 ≤ c < 3 →
    uchar ((byte_at D (pos i j c) * (255 - u) + byte_at S (pos i j c) * u) ÷ 255)
    = expected i j c) as Hval.
  { intros c Hc. unfold expected. fold u. apply uchar_id.
    apply blend_uchar; [by apply byte_at_uchar..|done]. }
  eexists. split; last first.
  { erewrite bind_some; last first.
    { apply load_bytes; [by rewrite lookup_insert_ne|]. nia. }
    fold u. cbv zeta. rewrite Hv.
    erewrite bind_some; last first.
    { by apply mix_store_run. }
    erewrite bind_some; last first.
    { apply mix_store_run; [by rewrite length_insert|done]. }
    erewrite bind_some; last first.
    { apply mix_store_run; [by rewrite !length_insert|done]. }
    rewrite !byte_at_insert by (rewrite ?length_insert; lia).
    rewrite !decide_False by (unfold pos, px; lia).
    rewrite !Hold by lia. rewrite !Hval by lia. reflexivity. }
  split; [by rewrite !length_insert|]. split.
  - intros i' j' c Hi' Hj' Hc Hm.
    rewrite !byte_at_insert by (rewrite ?length_insert; lia).
    destruct (decide (i' = i ∧ j' = j)) as [[-> ->]|Hne].
    + assert (c = 0 ∨ c = 1 ∨ c = 2) as [-> | [-> | ->]] by lia.
      * rewrite !decide_False by (unfold pos, px; lia). by rewrite decide_True.
      * rewrite decide_False by (unfold pos, px; lia). by rewrite decide_True.
      * by rewrite decide_True.
    + rewrite !decide_False.
      * apply Hdone; [done..|]. unfold mixed in *. lia.
      * intros Heq. destruct (pixel_index_inj line_size w i' j' c i j 0)
          as (? & ? & ?); [lia..|done|]. lia.
      * intros Heq. destruct (pixel_index_inj line_size w i' j' c i j 1)
          as (? & ? & ?); [lia..|done|]. lia.
      * intros Heq. destruct (pixel_index_inj line_size w i' j' c i j 2)
          as (? & ? & ?); [lia..|done|]. lia.
  - intros k Hk.
    rewrite !byte_at_insert by (rewrite ?length_insert; lia).
    rewrite !decide_False.
    + apply Hrest. intros i' j' c Hi' Hj' Hc Hm. apply Hk; [done..|].
      unfold mixed in *. lia.
    + apply Hk; [lia..|]. unfold mixed. lia.
    + apply Hk; [lia..|]. unfold mixed. lia.
    + apply Hk; [lia..|]. unfold mixed. lia.
Qed.

(** The inner loop: one row. *)
Lemma cwm_row (i : Z) (Dc : list Z) :
  0 ≤ i < h → cwm_inv i 0 Dc →
  ∃ st Dc', cwm_inv (i + 1) 0 Dc' ∧
    for_upto w ((ma, 0 + mask_row b2t h i * w), (srcb, 0 + i * line_size),
                (dstb, 0 + i * line_size))
      (λ _ st, copy_with_mask_pixel st) (<[dstb := Bytes Dc]> h0)
    = Some (st, <[dstb := Bytes Dc']> h0).
Proof.
  intros Hi Hinv.
  destruct (for_upto_inv
    (λ j st s, st = ((ma, mask_row b2t h i * w + j), (srcb, pos i j 0),
                     (dstb, pos i j 0)) ∧
               ∃ Dc', s = <[dstb := Bytes Dc']> h0 ∧ cwm_inv i j Dc')
    w ((ma, 0 + mask_row b2t h i * w), (srcb, 0 + i * line_size),
       (dstb, 0 + i * line_size))
    (λ _ st, copy_with_mask_pixel st) (<[dstb := Bytes Dc]> h0))
    as (st & s' & Hrun & _ & Dc' & -> & Hinv'); [done| | |].
  - split; [|by exists Dc]. unfold pos, px. pair_eq.
  - intros j st s Hj (-> & Dc1 & -> & H1).
    destruct (cwm_pixel i j Dc1 Hi Hj H1) as (Dc2 & H2 & Hpx).
    eexists _, _. split; [exact Hpx|]. split; [|by exists Dc2].
    unfold pos, px. pair_eq.
  - exists st, Dc'. split; [|done].
    destruct Hinv' as (Hlen & Hdone & Hrest). split; [done|]. split.
    + intros i' j' c Hi' Hj' Hc Hm. apply Hdone; [done..|].
      unfold mixed in *. lia.
    + intros k Hk. apply Hrest. intros i' j' c Hi' Hj' Hc Hm.
      apply Hk; [done..|]. unfold mixed in *. lia.
Qed.

(** The whole routine. *)
Lemma cwm_run :
  ∃ D', cwm_inv h 0 D' ∧
    copy_with_mask mask (dstb, 0) (srcb, 0) line_size b2t h0
    = Some (tt, <[dstb := Bytes D']> h0).
Proof.
  unfold copy_with_mask.
  erewrite bind_some; last first.
  { unfold load_img. by rewrite Hmask. }
  rewrite Hdw, Hdh, Harr. cbn [padd fst snd].
  destruct (for_upto_inv
    (λ i (_ : unit) s, ∃ Dc, s = <[dstb := Bytes Dc]> h0 ∧ cwm_inv i 0 Dc)
    h tt
    (λ i _,
       row ← int_ (mask_row b2t h i * w);
       off ← int_ (i * line_size);
       for_upto w ((ma, 0 + row), (srcb, 0 + off), (dstb, 0 + off))
         (λ _ st, copy_with_mask_pixel st);;
       mret tt) h0)
    as ([] & s' & Hrun & D' & -> & Hinv); [done| | |].
  - exists D. split; [by rewrite insert_id|].
    split; [done|]. split; [|done].
    intros i' j' c Hi' Hj' _ Hm. unfold mixed in Hm. lia.
  - intros i [] s Hi (Dc & -> & Hinv).
    pose proof (mask_row_bound i Hi) as Hr.
    destruct (cwm_row i Dc Hi Hinv) as (st & Dc' & Hinv' & Hrow).
    exists tt, (<[dstb := Bytes Dc']> h0). split; [|by exists Dc'].
    assert (0 ≤ mask_row b2t h i * w ≤ h * w) by nia.
    assert (h * w ≤ h * line_size) by nia.
    assert (0 ≤ i * line_size ≤ h * line_size) by nia.
    erewrite bind_some; last first.
    { apply int_ok. unfold INT_MIN, INT_MAX in *. lia. }
    erewrite bind_some; last first.
    { apply int_ok. unfold INT_MIN, INT_MAX in *. lia. }
    by erewrite bind_some by exact Hrow.
  - exists D'. split; [done|]. by erewrite bind_some by exact Hrun.
Qed.
End copy_with_mask_spec.

Lemma blend_0 (b f : Z) : blend b f 0 = b.
Proof. unfold blend. rewrite Z.mul_0_r, Z.add_0_r, Z.sub_0_r. by apply Z.quot_mul. Qed.

Lemma blend_255 (b f : Z) : blend b f 255 = f.
Proof. unfold blend. rewrite Z.sub_diag, Z.mul_0_r, Z.add_0_l. by apply Z.quot_mul. Qed.

(** Whether byte [k] of a buffer of [h] rows of [w] pixels is a channel
    of a pixel, or row padding. *)
Lemma pixel_byte_dec (ls w h k : Z) :
  3 * w ≤ ls →
  (∃ i j c, 0 ≤ i < h ∧ 0 ≤ j < w ∧ 0 ≤ c < 3 ∧ k = px ls i j c) ∨
  (∀ i j c, 0 ≤ i < h → 0 ≤ j < w → 0 ≤ c < 3 → k ≠ px ls i j c).
Proof.
  intros Hls. unfold px.
  destruct (decide (0 < w ∧ 0 ≤ k ∧ k `div` ls < h ∧ (k `mod` ls) `div` 3 < w))
    as [(Hw & Hk & Hi & Hj)|Hno].
  - left. exists (k `div` ls), ((k `mod` ls) `div` 3), ((k `mod` ls) `mod` 3).
    pose proof (Z.div_mod k ls ltac:(lia)).
    pose proof (Z.mod_pos_bound k ls ltac:(lia)).
    pose proof (Z.div_mod (k `mod` ls) 3 ltac:(lia)).
    pose proof (Z.mod_pos_bound (k `mod` ls) 3 ltac:(lia)).
    pose proof (Z.div_pos k ls ltac:(lia) ltac:(lia)).
    pose proof (Z.div_pos (k `mod` ls) 3 ltac:(lia) ltac:(lia)).
    lia.
  - right. intros i j c Hi Hj Hc Heq. apply Hno.
    assert (i = k `div` ls) as <-.
    { apply (Z.div_unique k ls i (3 * j + c)); lia. }
    assert (3 * j + c = k `mod` ls) as <-.
    { apply (Z.mod_unique k ls i (3 * j + c)); lia. }
    assert (j = (3 * j + c) `div` 3) as <-.
    { apply (Z.div_unique (3 * j + c) 3 j c); lia. }
    nia.
Qed.

(** The final buffer is determined by the values the mask assigns. *)
Lemma cwm_inv_unique (A A' D S : list Z) (w h ls : Z) (b b' : bool)
    (D1 D2 : list Z) :
  3 * w ≤ ls →
  (∀ i j, 0 ≤ i < h → 0 ≤ j < w →
     byte_at A (mask_row b h i * w + j) = byte_at A' (mask_row b' h i * w + j)) →
  cwm_inv A D S w h ls b h 0 D1 →
  cwm_inv A' D S w h ls b' h 0 D2 →
  D1 = D2.
Proof.
  intros Hls HA (Hl1 & Hd1 & Hr1) (Hl2 & Hd2 & Hr2).
  apply list_eq. intros n.
  destruct (decide (n < length D)%nat) as [Hn|Hn]; last first.
  { rewrite !lookup_ge_None_2 by lia. done. }
  replace n with (Z.to_nat (Z.of_nat n)) by lia.
  rewrite !byte_at_lookup by lia. f_equal.
  destruct (pixel_byte_dec ls w h (Z.of_nat n) Hls)
    as [(i & j & c & Hi & Hj & Hc & ->)|Hpad].
  - rewrite Hd1, Hd2 by (done || (unfold mixed; lia)).
    unfold cwm_expected. by rewrite HA.
  - rewrite Hr1, Hr2; [done|by intros; apply Hpad..].
Qed.

Lemma reverse_rows_length (w h : Z) (A : list Z) :
  length (reverse_rows w h A) = Z.to_nat (w * h).
Proof. unfold reverse_rows. by rewrite length_fmap, length_seqZ. Qed.

Lemma reverse_rows_byte_at (w h : Z) (A : list Z) (i j : Z) :
  0 ≤ i < h → 0 ≤ j < w →
  byte_at (reverse_rows w h A) (i * w + j) = byte_at A ((h - 1 - i) * w + j).
Proof.
  intros Hi Hj. unfold byte_at at 1. rewrite decide_True by nia.
  unfold reverse_rows. rewrite list_lookup_fmap.
  rewrite (lookup_seqZ_lt _ _ (Z.to_nat (i * w + j))) by nia.
  simpl. rewrite Z2Nat.id by nia. rewrite Z.add_0_l.
  replace ((i * w + j) `div` w) with i
    by (apply (Z.div_unique _ w i j); lia).
  replace ((i * w + j) `mod` w) with j
    by (apply (Z.mod_unique _ w i j); lia).
  done.
Qed.

Lemma reverse_rows_uchar (w h : Z) (A : list Z) :
  Forall is_uchar A → Forall is_uchar (reverse_rows w h A).
Proof.
  intros HA. unfold reverse_rows. apply Forall_fmap, Forall_forall.
  intros k _. by apply byte_at_uchar.
Qed.

Lemma cwm_buffers_run (h0 : heap) (mask dstb srcb : addr) (ls : Z)
    (m : Fl_RGB_Image) (ma : addr) (A D S : list Z) (b2t : bool) :
  cwm_buffers h0 mask dstb srcb ls m ma A D S →
  ∃ D', cwm_inv A D S (data_w m) (data_h m) ls b2t (data_h m) 0 D' ∧
    copy_with_mask mask (dstb, 0) (srcb, 0) ls b2t h0
    = Some (tt, <[dstb := Bytes D']> h0).
Proof. intros []. by eapply cwm_run. Qed.

(** C1. On a background and a foreground buffer of the mask's dimensions,
    [copy_with_mask] returns, having replaced every channel [c] of every
    pixel of the background by
    [(background[c] * (255 - alpha) + foreground[c] * alpha) / 255] with a
    truncating quotient, [alpha] being the mask byte of the pixel; the byte
    is the old background where [alpha = 0] and the foreground where
    [alpha = 255]; the length of the buffer, its padding bytes and every
    other block are unchanged. *)
Theorem copy_with_mask_blends (h0 : heap) (mask dstb srcb : addr) (ls : Z)
    (m : Fl_RGB_Image) (ma : addr) (A D S : list Z) (b2t : bool) :
  cwm_buffers h0 mask dstb srcb ls m ma A D S →
  ∃ D', copy_with_mask mask (dstb, 0) (srcb, 0) ls b2t h0
        = Some (tt, <[dstb := Bytes D']> h0) ∧
    length D' = length D ∧
    (∀ i j c, 0 ≤ i < data_h m → 0 ≤ j < data_w m → 0 ≤ c < 3 →
       let k := px ls i j c in
       let alpha := byte_at A (mask_row b2t (data_h m) i * data_w m + j) in
       byte_at D' k = (byte_at D k * (255 - alpha) + byte_at S k * alpha) ÷ 255 ∧
       (alpha = 0 → byte_at D' k = byte_at D k) ∧
       (alpha = 255 → byte_at D' k = byte_at S k)) ∧
    (∀ k, (∀ i j c, 0 ≤ i < data_h m → 0 ≤ j < data_w m → 0 ≤ c < 3 →
             k ≠ px ls i j c) →
       byte_at D' k = byte_at D k).
Proof.
  intros Hpre.
  destruct (cwm_buffers_run _ _ _ _ _ _ _ _ _ _ b2t Hpre)
    as (D' & (Hlen & Hmixed & Hrest) & Hrun).
  exists D'. split; [done|]. split; [done|]. split.
  - intros i j c Hi Hj Hc k alpha.
    assert (byte_at D' k = blend (byte_at D k) (byte_at S k) alpha) as Hk.
    { apply (Hmixed i j c); [done..|]. unfold mixed. lia. }
    split; [done|]. rewrite Hk.
    split; intros ->; [apply blend_0|apply blend_255].
  - intros k Hk. apply Hrest. intros i j c Hi Hj Hc _. by apply Hk.
Qed.

Lemma test_heap_buffers :
  cwm_buffers test_heap 1%positive 3%positive 4%positive 7
    (mkRGB (2%positive, 0) false 2 2 1 0 2 2) 2%positive
    [0; 255; 128; 64]
    [10; 20; 30; 40; 50; 60; 7; 70; 80; 90; 100; 110; 120; 7]
    [200; 210; 220; 230; 240; 250; 9; 1; 2; 3; 4; 5; 6; 9].
Proof.
  constructor; try reflexivity; try done;
    try (cbn; unfold INT_MAX; lia);
    repeat constructor; unfold is_uchar; lia.
Defined.

Lemma copy_with_mask_blends_witness :
  ∃ D', copy_with_mask 1%positive (3%positive, 0) (4%positive, 0) 7 false test_heap
        = Some (tt, <[3%positive := Bytes D']> test_heap) ∧
    byte_at D' (px 7 1 0 1) = (80 * (255 - 128) + 2 * 128) ÷ 255.
Proof.
  destruct (copy_with_mask_blends _ _ _ _ _ _ _ _ _ _ false test_heap_buffers)
    as (D' & Hrun & _ & Hpx & _).
  exists D'. split; [exact Hrun|].
  apply (Hpx 1 0 1); cbn; lia.
Defined.

(** C5. With [bottom_to_top] set, buffer row [i] is mixed with mask row
    [h - 1 - i], the background and the foreground being walked in storage
    order; the run returns the very buffer that the run with
    [bottom_to_top] clear returns on the mask with its rows reversed. *)
Theorem copy_with_mask_bottom_to_top (h0 : heap) (mask dstb srcb : addr)
    (ls : Z) (m : Fl_RGB_Image) (ma : addr) (A D S : list Z) :
  cwm_buffers h0 mask dstb srcb ls m ma A D S →
  srcb ≠ ma →
  let w := data_w m in
  let h := data_h m in
  let h0' := <[ma := Bytes (reverse_rows w h A)]> h0 in
  ∃ D', copy_with_mask mask (dstb, 0) (srcb, 0) ls true h0
        = Some (tt, <[dstb := Bytes D']> h0) ∧
    copy_with_mask mask (dstb, 0) (srcb, 0) ls false h0'
        = Some (tt, <[dstb := Bytes D']> h0') ∧
    (∀ i j c, 0 ≤ i < h → 0 ≤ j < w → 0 ≤ c < 3 →
       byte_at D' (i * ls + 3 * j + c)
       = blend (byte_at D (i * ls + 3 * j + c)) (byte_at S (i * ls + 3 * j + c))
               (byte_at A ((h - i - 1) * w + j))).
Proof.
  intros Hpre Hsa w h h0'.
  destruct (cwm_buffers_run _ _ _ _ _ _ _ _ _ _ true Hpre) as (D1 & Hinv1 & Hrun1).
  assert (cwm_buffers h0' mask dstb srcb ls m ma (reverse_rows w h A) D S) as Hpre'.
  { destruct Hpre. subst h0'. constructor; try done.
    - rewrite lookup_insert_ne; [done|]. intros ->. congruence.
    - apply lookup_insert_eq.
    - by rewrite lookup_insert_ne.
    - by rewrite lookup_insert_ne.
    - rewrite reverse_rows_length. subst w h. nia.
    - by apply reverse_rows_uchar. }
  destruct (cwm_buffers_run _ _ _ _ _ _ _ _ _ _ false Hpre') as (D2 & Hinv2 & Hrun2).
  assert (D1 = D2) as <-.
  { eapply cwm_inv_unique; [apply (cb_line _ _ _ _ _ _ _ _ _ _ Hpre)| |done..].
    intros i j Hi Hj. unfold mask_row. fold w h.
    rewrite reverse_rows_byte_at by done. f_equal. lia. }
  exists D1. split; [done|]. split; [done|].
  intros i j c Hi Hj Hc. destruct Hinv1 as (_ & Hmixed & _).
  apply (Hmixed i j c); [done..|]. unfold mixed. fold h. lia.
Qed.

Lemma copy_with_mask_bottom_to_top_witness :
  ∃ D', copy_with_mask 1%positive (3%positive, 0) (4%positive, 0) 7 true test_heap
        = Some (tt, <[3%positive := Bytes D']> test_heap) ∧
    copy_with_mask 1%positive (3%positive, 0) (4%positive, 0) 7 false
      (<[2%positive := Bytes [128; 64; 0; 255]]> test_heap)
        = Some (tt, <[3%positive := Bytes D']>
                      (<[2%positive := Bytes [128; 64; 0; 255]]> test_heap)).
Proof.
  destruct (copy_with_mask_bottom_to_top _ _ _ _ _ _ _ _ _ _ test_heap_buffers
              ltac:(done)) as (D' & H1 & H2 & _).
  exists D'. split; [exact H1|exact H2].
Defined.

(** ** [RGB3_to_RGB1] *)

Lemma gray_uchar (Src : list Z) (ld i j : Z) :
  Forall is_uchar Src → is_uchar (gray Src ld i j).
Proof.
  intros HS. unfold gray.
  pose proof (byte_at_uchar Src (i * ld + 3 * j) HS).
  pose proof (byte_at_uchar Src (i * ld + 3 * j + 1) HS).
  pose proof (byte_at_uchar Src (i * ld + 3 * j + 2) HS).
  unfold is_uchar in *. rewrite Z.quot_div_nonneg by lia. split.
  - apply Z.div_pos; lia.
  - apply Z.div_le_upper_bound; lia.
Qed.

Section gray_loops.
Context (hb : heap) (srcb data : addr) (Src O0 : list Z) (W H ld : Z).
Context (Hsrc : hb !! srcb = Some (Bytes Src)).
Context (Hdata : hb !! data = Some (Bytes O0)).
Context (Hne : data ≠ srcb).
Context (HW : 0 ≤ W) (HH : 0 ≤ H).
Context (HlenO : Z.of_nat (length O0) = W * H).
Context (HuS : Forall is_uchar Src).
Context (Hread : ∀ i j, 0 ≤ i < H → 0 ≤ j < W →
           0 ≤ i * ld + 3 * j ∧ i * ld + 3 * j + 2 < Z.of_nat (length Src)).
Context (Hint : ∀ i, 0 ≤ i < H → INT_MIN ≤ i * ld ≤ INT_MAX).

Let inv := gray_inv Src O0 W H ld.

Lemma gray_pixel (i j : Z) (Oc : list Z) :
  0 ≤ i < H → 0 ≤ j < W → inv i j Oc →
  ∃ Oc', inv i (j + 1) Oc' ∧
    RGB3_to_RGB1_pixel ((data, i * W + j), (srcb, i * ld + 3 * j))
      (<[data := Bytes Oc]> hb)
    = Some (((data, i * W + j + 1), (srcb, i * ld + 3 * j + 3)),
            <[data := Bytes Oc']> hb).
Proof.
  intros Hi Hj (Hlen & Hdone).
  destruct (Hread i j Hi Hj) as [Hlo Hhi].
  assert (0 ≤ i * W + j < W * H) as Hp by nia.
  unfold RGB3_to_RGB1_pixel, padd. cbn [fst snd].
  exists (<[Z.to_nat (i * W + j) := gray Src ld i j]> Oc). split.
  - split; [by rewrite length_insert|].
    intros i' j' Hi' Hj' Hm.
    rewrite byte_at_insert by lia.
    destruct (decide (i' = i ∧ j' = j)) as [[-> ->]|Hother].
    + by rewrite decide_True.
    + rewrite decide_False.
      * apply Hdone; [done..|]. unfold mixed in *. lia.
      * intros Heq. apply Hother. by apply (cell_index_inj W).
  - erewrite bind_some; last first.
    { apply load_bytes; [by rewrite lookup_insert_ne|lia]. }
    erewrite bind_some; last first.
    { apply load_bytes; [by rewrite lookup_insert_ne|lia]. }
    erewrite bind_some; last first.
    { apply load_bytes; [by rewrite lookup_insert_ne|lia]. }
    erewrite bind_some; last first.
    { apply store_bytes; [apply lookup_insert_eq|lia]. }
    rewrite insert_insert_eq. fold (gray Src ld i j).
    rewrite uchar_id by (by apply gray_uchar). reflexivity.
Qed.

Lemma gray_row (i : Z) (Oc : list Z) :
  0 ≤ i < H → inv i 0 Oc →
  ∃ alpha Oc', inv (i + 1) 0 Oc' ∧
    for_upto W ((data, i * W), (srcb, 0 + i * ld))
      (λ _ st, RGB3_to_RGB1_pixel st) (<[data := Bytes Oc]> hb)
    = Some (((data, (i + 1) * W), alpha), <[data := Bytes Oc']> hb).
Proof.
  intros Hi Hinv.
  destruct (for_upto_inv
    (λ j st s, st = ((data, i * W + j), (srcb, i * ld + 3 * j)) ∧
               ∃ Oc', s = <[data := Bytes Oc']> hb ∧ inv i j Oc')
    W ((data, i * W), (srcb, 0 + i * ld))
    (λ _ st, RGB3_to_RGB1_pixel st) (<[data := Bytes Oc]> hb))
    as (st & s' & Hrun & -> & Oc' & -> & Hlen & Hdone); [done| | |].
  - split; [pair_eq|by exists Oc].
  - intros j st s Hj (-> & Oc1 & -> & H1).
    destruct (gray_pixel i j Oc1 Hi Hj H1) as (Oc2 & H2 & Hpx).
    eexists _, _. split; [exact Hpx|]. split; [pair_eq|by exists Oc2].
  - eexists _, Oc'. split.
    + split; [done|]. intros i' j' Hi' Hj' Hm. apply Hdone; [done..|].
      unfold mixed in *. lia.
    + rewrite Hrun. apply (f_equal Some). pair_eq.
Qed.

Lemma gray_rows :
  ∃ O, inv H 0 O ∧
    for_upto H (data, 0) (λ i p,
      off ← int_ (i * ld);
      '(p, _) ← for_upto W (p, padd (srcb, 0) off)
                  (λ _ st, RGB3_to_RGB1_pixel st);
      mret p) hb
    = Some ((data, H * W), <[data := Bytes O]> hb).
Proof.
  destruct (for_upto_inv
    (λ i p s, p = (data, i * W) ∧
              ∃ Oc, s = <[data := Bytes Oc]> hb ∧ inv i 0 Oc)
    H (data, 0)
    (λ i p,
      off ← int_ (i * ld);
      '(p, _) ← for_upto W (p, padd (srcb, 0) off)
                  (λ _ st, RGB3_to_RGB1_pixel st);
      mret p) hb)
    as (p & s' & Hrun & -> & O & -> & Hinv); [done| | |].
  - split; [pair_eq|]. exists O0. split; [by rewrite insert_id|].
    split; [done|]. intros i' j' Hi' Hj' Hm. unfold mixed in Hm. lia.
  - intros i p s Hi (-> & Oc & -> & Hinv).
    destruct (gray_row i Oc Hi Hinv) as (alpha & Oc' & Hinv' & Hrow).
    eexists _, _. split.
    + erewrite bind_some by (by apply int_ok, Hint).
      unfold padd. cbn [fst snd].
      erewrite bind_some by exact Hrow. reflexivity.
    + split; [pair_eq|by exists Oc'].
  - exists O. split; [done|]. exact Hrun.
Qed.
End gray_loops.

Lemma alloc_run (o : obj) (h : heap) :
  alloc o h = Some (fresh (dom h), <[fresh (dom h) := o]> h).
Proof. reflexivity. Qed.

Lemma fresh_lookup (h : heap) : h !! fresh (dom h) = None.
Proof. apply not_elem_of_dom, is_fresh. Qed.

Lemma lookup_ne_fresh (h : heap) (a : addr) (o : obj) :
  h !! a = Some o → a ≠ fresh (dom h).
Proof. intros Ha ->. by rewrite fresh_lookup in Ha. Qed.

Lemma delete_owning_image (h : heap) (a : addr) (img : Fl_RGB_Image)
    (b : addr) (o : Z) :
  h !! a = Some (Rgb img) → alloc_array img = true → array img = (b, o) →
  is_Some (h !! b) → a ≠ b →
  delete_Fl_RGB_Image a h = Some (tt, delete a (delete b h)).
Proof.
  intros Ha Hown Harr [ob Hb] Hab. unfold delete_Fl_RGB_Image.
  erewrite bind_some; last first.
  { unfold load_img. by rewrite Ha. }
  rewrite Hown, Harr. cbn [when_ fst].
  erewrite bind_some; last first.
  { unfold free. by rewrite Hb. }
  unfold free. rewrite lookup_delete_ne by done. by rewrite Ha.
Qed.

Section reduce.
Context (h1 : heap) (r sb : addr) (img' : Fl_RGB_Image) (Src : list Z).
Context (W H ld' : Z) (nc : bool).
Context (Hr : h1 !! r = Some (Rgb img')).
Context (Harr : array img' = (sb, 0)).
Context (Hsb : h1 !! sb = Some (Bytes Src)).
Context (Hld : ld' = if decide (ld img' = 0) then 3 * W else ld img').
Context (Hown : nc = true → alloc_array img' = true).
Context (HW : 0 ≤ W) (HH : 0 ≤ H).
Context (HuS : Forall is_uchar Src).
Context (Hread : ∀ i j, 0 ≤ i < H → 0 ≤ j < W →
           0 ≤ i * ld' + 3 * j ∧ i * ld' + 3 * j + 2 < Z.of_nat (length Src)).
Context (HintWH : W * H ≤ INT_MAX) (HintW : 3 * W ≤ INT_MAX).
Context (Hint : ∀ i, 0 ≤ i < H → INT_MIN ≤ i * ld' ≤ INT_MAX).

Lemma reduce_run :
  ∃ (O : list Z) (data rgb1 : addr),
    h1 !! data = None ∧ h1 !! rgb1 = None ∧ data ≠ rgb1 ∧
    Z.of_nat (length O) = W * H ∧
    (∀ i j, 0 ≤ i < H → 0 ≤ j < W → byte_at O (i * W + j) = gray Src ld' i j) ∧
    RGB3_to_RGB1_reduce r nc W H h1
    = Some (rgb1,
            let h2 := <[rgb1 := Rgb (mkRGB (data, 0) true W H 1 0 W H)]>
                        (<[data := Bytes O]> h1) in
            if nc then delete r (delete sb h2) else h2).
Proof.
  set (data := fresh (dom h1)).
  set (O0 := replicate (Z.to_nat (W * H)) 0).
  set (hb := <[data := Bytes O0]> h1).
  assert (h1 !! data = None) as Hdata by apply fresh_lookup.
  assert (r ≠ data) as Hrd by (by eapply lookup_ne_fresh).
  assert (sb ≠ data) as Hsd by (by eapply lookup_ne_fresh).
  assert (r ≠ sb) as Hrs by congruence.
  destruct (gray_rows hb sb data Src O0 W H ld') as (O & (HlenO & HO) & Hloop);
    try done.
  { subst hb. by rewrite lookup_insert_ne. }
  { apply lookup_insert_eq. }
  { subst O0. rewrite length_replicate. nia. }
  set (h2 := <[data := Bytes O]> h1).
  set (rgb1 := fresh (dom h2)).
  assert (h2 !! rgb1 = None) as Hrgb1 by apply fresh_lookup.
  assert (data ≠ rgb1) as Hdr.
  { eapply lookup_ne_fresh. apply lookup_insert_eq. }
  assert (r ≠ rgb1) as Hrr.
  { eapply lookup_ne_fresh. subst h2. by rewrite lookup_insert_ne. }
  assert (sb ≠ rgb1) as Hsr.
  { eapply lookup_ne_fresh. subst h2. by rewrite lookup_insert_ne. }
  exists O, data, rgb1. split; [done|]. split.
  { subst h2. by rewrite lookup_insert_ne in Hrgb1. }
  split; [done|]. split.
  { rewrite HlenO. subst O0. rewrite length_replicate. nia. }
  split.
  { intros i j Hi Hj. apply HO; [done..|]. unfold mixed. lia. }
  unfold RGB3_to_RGB1_reduce.
  erewrite bind_some; last first.
  { apply int_ok. unfold INT_MIN, INT_MAX in *. nia. }
  erewrite bind_some; last first.
  { unfold new_uchar. rewrite decide_True by nia. apply alloc_run. }
  fold data O0 hb.
  erewrite bind_some; last first.
  { unfold load_img. subst hb. rewrite lookup_insert_ne by done. by rewrite Hr. }
  erewrite (bind_some _ _ _ ld'); last first.
  { rewrite Hld. destruct (decide (ld img' = 0)); [|done].
    apply int_ok. unfold INT_MIN, INT_MAX in *. lia. }
  rewrite Harr.
  erewrite bind_some by exact Hloop.
  subst hb. rewrite insert_insert_eq. fold h2.
  erewrite bind_some; last first.
  { unfold new_Fl_RGB_Image. apply alloc_run. }
  fold rgb1.
  erewrite bind_some; last first.
  { unfold load_img. by rewrite lookup_insert_eq. }
  erewrite bind_some; last first.
  { unfold store_img. by rewrite lookup_insert_eq. }
  rewrite insert_insert_eq. unfold set_alloc_array. cbn [array data_w data_h d ld w_ h_].
  destruct nc; cbn [when_].
  - erewrite bind_some; [reflexivity|].
    apply (delete_owning_image _ _ img' sb 0); [|by apply Hown|done| |done].
    + rewrite lookup_insert_ne by done.
      subst h2. by rewrite lookup_insert_ne by done.
    + rewrite lookup_insert_ne by done.
      subst h2. rewrite lookup_insert_ne by done. by rewrite Hsb.
  - reflexivity.
Qed.
End reduce.

Lemma nearest_resampler : resampler nearest.
Proof.
  constructor.
  - intros img bs W H HW HH Hd. unfold nearest.
    rewrite length_fmap, length_seqZ. nia.
  - intros img bs W H Hbs. unfold nearest.
    apply Forall_fmap, Forall_forall. intros k _. by apply byte_at_uchar.
Qed.

Lemma load_pixels_block (h : heap) (b : addr) (bs : list Z) :
  h !! b = Some (Bytes bs) → load_pixels (b, 0) h = Some (bs, h).
Proof. intros Hb. unfold load_pixels. cbn [fst snd]. by rewrite Hb. Qed.

(** The heap [RGB3_to_RGB1] returns: the heap it was given, plus the
    output image [rgb1] and its pixel array [data]. *)
Lemma RGB3_to_RGB1_run (resample : Fl_RGB_Image → list Z → Z → Z → list Z)
    (h0 : heap) (rgb3 : addr) (img : Fl_RGB_Image) (sb : addr) (Sb : list Z)
    (W H : Z) :
  resampler resample →
  rgb3_source h0 rgb3 img sb Sb W H →
  ∃ (O : list Z) (data rgb1 : addr),
    h0 !! data = None ∧ h0 !! rgb1 = None ∧ data ≠ rgb1 ∧
    Z.of_nat (length O) = W * H ∧
    (∀ i j, 0 ≤ i < H → 0 ≤ j < W →
       byte_at O (i * W + j)
       = gray (reduced_source resample img Sb W H).1
              (reduced_source resample img Sb W H).2 i j) ∧
    let h' := <[rgb1 := Rgb (mkRGB (data, 0) true W H 1 0 W H)]>
                (<[data := Bytes O]> h0) in
    RGB3_to_RGB1 resample rgb3 W H h0 = Some (rgb1, h') ∧
    (W ≠ data_w img ∨ H ≠ data_h img →
     ∃ (c cb : addr),
       let hc := <[c := Rgb (mkRGB (cb, 0) true W H (d img) 0 W H)]>
                   (<[cb := Bytes (resample img Sb W H)]> h0) in
       h0 !! c = None ∧ h0 !! cb = None ∧ c ≠ cb ∧
       h' !! c = None ∧ h' !! cb = None ∧
       Fl_RGB_Image_copy resample rgb3 W H h0 = Some (c, hc) ∧
       RGB3_to_RGB1_reduce c true W H hc = Some (rgb1, h')).
Proof.
  intros [Hrl Hru] [Himg Harr Hsb Hd HuS HW HH HiW Hi Hext].
  unfold RGB3_to_RGB1, reduced_source.
  erewrite bind_some; last first.
  { unfold load_img. by rewrite Himg. }
  destruct (decide (W ≠ data_w img ∨ H ≠ data_h img)) as [Hres|Hsame];
    cbn [fst snd].
  - (* the source is resampled *)
    set (R := resample img Sb W H).
    set (cb := fresh (dom h0)).
    set (ha := <[cb := Bytes R]> h0).
    set (c := fresh (dom ha)).
    set (cimg := mkRGB (cb, 0) true W H (d img) 0 W H).
    set (h1 := <[c := Rgb cimg]> ha).
    assert (h0 !! cb = None) as Hcb by apply fresh_lookup.
    assert (ha !! c = None) as Hc by apply fresh_lookup.
    assert (c ≠ cb) as Hccb.
    { intros E. rewrite E in Hc. subst ha. by rewrite lookup_insert_eq in Hc. }
    assert (h0 !! c = None) as Hc0.
    { subst ha. by rewrite lookup_insert_ne in Hc. }
    assert (Z.of_nat (length R) = W * H * 3) as HlenR.
    { subst R. rewrite Hrl by lia. by rewrite Hd. }
    assert (Fl_RGB_Image_copy resample rgb3 W H h0 = Some (c, h1)) as Hcopy.
    { unfold Fl_RGB_Image_copy.
      erewrite bind_some; last first.
      { unfold load_img. by rewrite Himg. }
      rewrite Harr. erewrite bind_some by (by apply load_pixels_block).
      erewrite bind_some by apply alloc_run.
      apply alloc_run. }
    erewrite bind_some; last first.
    { erewrite bind_some; [reflexivity|exact Hcopy]. }
    cbv beta iota.
    assert (h1 !! c = Some (Rgb cimg)) as H1 by apply lookup_insert_eq.
    assert (h1 !! cb = Some (Bytes R)) as H2.
    { subst h1 ha. rewrite lookup_insert_ne by done. apply lookup_insert_eq. }
    assert (∀ i j, 0 ≤ i < H → 0 ≤ j < W →
              0 ≤ i * (3 * W) + 3 * j
              ∧ i * (3 * W) + 3 * j + 2 < Z.of_nat (length R)) as H3
      by (intros; nia).
    assert (∀ i, 0 ≤ i < H → INT_MIN ≤ i * (3 * W) ≤ INT_MAX) as H4
      by (intros; unfold INT_MIN, INT_MAX in *; nia).
    destruct (reduce_run h1 c cb cimg R W H (3 * W) true H1 eq_refl H2 eq_refl
                (λ _, eq_refl) HW HH (Hru _ _ _ _ HuS) H3 ltac:(nia) HiW H4)
      as (O & data & rgb1 & Hdata & Hrgb1 & Hne & HlenO & HO & Hrun).
    subst h1 ha.
    apply lookup_insert_None in Hdata as [Hdata Hdc].
    apply lookup_insert_None in Hdata as [Hdata Hdcb].
    apply lookup_insert_None in Hrgb1 as [Hrgb1 Hrc].
    apply lookup_insert_None in Hrgb1 as [Hrgb1 Hrcb].
    exists O, data, rgb1. split; [done|]. split; [done|]. split; [done|].
    split; [done|]. split; [done|]. cbv zeta.
    assert (delete c (delete cb
              (<[rgb1 := Rgb (mkRGB (data, 0) true W H 1 0 W H)]>
                 (<[data := Bytes O]> (<[c := Rgb cimg]> (<[cb := Bytes R]> h0)))))
            = <[rgb1 := Rgb (mkRGB (data, 0) true W H 1 0 W H)]>
                (<[data := Bytes O]> h0)) as Hheap.
    { apply map_eq. intros k.
      rewrite !lookup_delete, !lookup_insert.
      repeat case_decide; subst; congruence. }
    cbv zeta in Hrun. rewrite Hheap in Hrun.
    split; [exact Hrun|]. intros _. exists c, cb.
    split; [done|]. split; [done|]. split; [done|].
    split; [by rewrite !lookup_insert_ne by done|].
    split; [by rewrite !lookup_insert_ne by done|].
    split; [exact Hcopy|exact Hrun].
  - (* the source already has the requested size *)
    assert (W = data_w img ∧ H = data_h img) as [HWe HHe].
    { split; apply dec_stable; intros ?; apply Hsame; auto. }
    destruct (Hext HWe HHe) as (Hld0 & Hldi & Hlen).
    assert (∀ i j, 0 ≤ i < H → 0 ≤ j < W →
              0 ≤ i * stride img W + 3 * j
              ∧ i * stride img W + 3 * j + 2 < Z.of_nat (length Sb)) as H3
      by (intros; nia).
    assert (∀ i, 0 ≤ i < H → INT_MIN ≤ i * stride img W ≤ INT_MAX) as H4
      by (intros; unfold INT_MIN, INT_MAX in *; nia).
    destruct (reduce_run h0 rgb3 sb img Sb W H (stride img W) false Himg Harr
                Hsb eq_refl ltac:(done) HW HH HuS H3 ltac:(nia) HiW H4)
      as (O & data & rgb1 & Hdata & Hrgb1 & Hne & HlenO & HO & Hrun).
    exists O, data, rgb1. split; [done|]. split; [done|]. split; [done|].
    split; [done|]. split; [done|]. split; [exact Hrun|]. by intros ?.
Qed.

(** C6. For a depth-3 source and a requested size [W] x [H],
    [RGB3_to_RGB1] returns a single-channel image of exactly [W] x [H]
    pixels; its pixel [(i, j)] is [floor ((R + G + B) / 3)] of pixel
    [(i, j)] of the source, read from the source itself when it has the
    requested size and from its resampled copy otherwise, with a row
    stride of [3 * W] when the image read reports none. *)
Theorem RGB3_to_RGB1_gray (resample : Fl_RGB_Image → list Z → Z → Z → list Z)
    (h0 : heap) (rgb3 : addr) (img : Fl_RGB_Image) (sb : addr) (Sb : list Z)
    (W H : Z) :
  resampler resample →
  rgb3_source h0 rgb3 img sb Sb W H →
  ∃ (rgb1 : addr) (h' : heap) (out : Fl_RGB_Image) (data : addr) (O : list Z),
    RGB3_to_RGB1 resample rgb3 W H h0 = Some (rgb1, h') ∧
    h' !! rgb1 = Some (Rgb out) ∧
    data_w out = W ∧ data_h out = H ∧ d out = 1 ∧ array out = (data, 0) ∧
    h' !! data = Some (Bytes O) ∧
    Z.of_nat (length O) = W * H ∧
    let resampled := bool_decide (W ≠ data_w img ∨ H ≠ data_h img) in
    let Src := if resampled then resample img Sb W H else Sb in
    let stride := if resampled then 3 * W
                  else if decide (ld img = 0) then 3 * W else ld img in
    ∀ i j, 0 ≤ i < H → 0 ≤ j < W →
      byte_at O (i * W + j)
      = (byte_at Src (i * stride + 3 * j) + byte_at Src (i * stride + 3 * j + 1)
         + byte_at Src (i * stride + 3 * j + 2)) `div` 3.
Proof.
  intros Hres Hsrc.
  destruct (RGB3_to_RGB1_run resample h0 rgb3 img sb Sb W H Hres Hsrc)
    as (O & data & rgb1 & Hdata & Hrgb1 & Hne & HlenO & HO & Hrun & _).
  eexists rgb1, _, _, data, O. split; [exact Hrun|].
  split; [apply lookup_insert_eq|]. do 4 (split; [reflexivity|]).
  split; [rewrite lookup_insert_ne by done; apply lookup_insert_eq|].
  split; [done|]. intros resampled Src stride' i j Hi Hj.
  rewrite (HO i j Hi Hj). unfold gray, reduced_source.
  assert (Forall is_uchar Src) as HuS.
  { subst Src resampled. case_bool_decide; [|by destruct Hsrc].
    destruct Hres as [_ Hu]. apply Hu. by destruct Hsrc. }
  assert ((if decide (W ≠ data_w img ∨ H ≠ data_h img)
           then (resample img Sb W H, 3 * W) else (Sb, stride img W))
          = (Src, stride')) as ->.
  { subst Src stride' resampled. unfold stride.
    case_bool_decide; [by rewrite decide_True|by rewrite decide_False]. }
  cbn [fst snd].
  pose proof (byte_at_uchar Src (i * stride' + 3 * j) HuS).
  pose proof (byte_at_uchar Src (i * stride' + 3 * j + 1) HuS).
  pose proof (byte_at_uchar Src (i * stride' + 3 * j + 2) HuS).
  unfold is_uchar in *. apply Z.quot_div_nonneg; lia.
Qed.

Lemma rgb_heap_source (W H : Z) :
  0 ≤ W ≤ 100 → 0 ≤ H ≤ 100 →
  rgb3_source rgb_heap 1%positive (mkRGB (2%positive, 0) false 2 2 3 0 2 2)
    2%positive [10; 20; 30; 40; 50; 60; 70; 80; 91; 255; 255; 255] W H.
Proof.
  intros HW HH. constructor; try reflexivity; try lia.
  - repeat constructor; unfold is_uchar; lia.
  - unfold INT_MAX. lia.
  - unfold INT_MAX. nia.
  - cbn [data_w data_h]. intros HWe HHe. rewrite HWe, HHe.
    unfold stride, INT_MAX. cbn. case_decide; lia.
Defined.

Lemma RGB3_to_RGB1_gray_witness :
  ∃ rgb1 h' out data O,
    RGB3_to_RGB1 nearest 1%positive 4 1 rgb_heap = Some (rgb1, h') ∧
    h' !! rgb1 = Some (Rgb out) ∧ data_w out = 4 ∧ data_h out = 1 ∧
    array out = (data, 0) ∧ h' !! data = Some (Bytes O) ∧
    Z.of_nat (length O) = 4 * 1.
Proof.
  destruct (RGB3_to_RGB1_gray nearest rgb_heap 1%positive _ _ _ 4 1
              nearest_resampler (rgb_heap_source 4 1 ltac:(lia) ltac:(lia)))
    as (rgb1 & h' & out & data & O & H1 & H2 & H3 & H4 & _ & H5 & H6 & H7 & _).
  exists rgb1, h', out, data, O.
  split; [exact H1|]. split; [exact H2|]. split; [exact H3|].
  split; [exact H4|]. split; [exact H5|]. split; [exact H6|exact H7].
Defined.

(** C7. [RGB3_to_RGB1] leaves the caller's image and its pixel bytes, like
    every object that was live, as they were.  The image it returns and the
    pixel array that image owns are freshly allocated, and nothing else is
    left allocated: when the sizes differ the loops run on a copy made by
    [Fl_RGB_Image::copy], and that copy and its pixel array are released
    before the routine returns. *)
Theorem RGB3_to_RGB1_source_untouched
    (resample : Fl_RGB_Image → list Z → Z → Z → list Z)
    (h0 : heap) (rgb3 : addr) (img : Fl_RGB_Image) (sb : addr) (Sb : list Z)
    (W H : Z) :
  resampler resample →
  rgb3_source h0 rgb3 img sb Sb W H →
  ∃ (rgb1 : addr) (h' : heap) (out : Fl_RGB_Image),
    RGB3_to_RGB1 resample rgb3 W H h0 = Some (rgb1, h') ∧
    h' !! rgb3 = Some (Rgb img) ∧
    h' !! sb = Some (Bytes Sb) ∧
    (∀ a, a ∈ dom h0 → h' !! a = h0 !! a) ∧
    h' !! rgb1 = Some (Rgb out) ∧ alloc_array out = true ∧
    (rgb1 ∉ dom h0) ∧ ((array out).1 ∉ dom h0) ∧
    dom h' = dom h0 ∪ {[rgb1; (array out).1]} ∧
    (W ≠ data_w img ∨ H ≠ data_h img →
     ∃ (c : addr) (hc : heap) (cimg : Fl_RGB_Image),
       Fl_RGB_Image_copy resample rgb3 W H h0 = Some (c, hc) ∧
       hc !! c = Some (Rgb cimg) ∧
       (c ∉ dom h0) ∧ ((array cimg).1 ∉ dom h0) ∧
       RGB3_to_RGB1_reduce c true W H hc = Some (rgb1, h') ∧
       h' !! c = None ∧ h' !! (array cimg).1 = None).
Proof.
  intros Hres Hsrc.
  destruct (RGB3_to_RGB1_run resample h0 rgb3 img sb Sb W H Hres Hsrc)
    as (O & data & rgb1 & Hdata & Hrgb1 & Hne & HlenO & HO & Hrun & Hcopy).
  destruct Hsrc as [Himg Harr Hsb _ _ _ _ _ _ _].
  assert (∀ a, a ∈ dom h0 →
            (<[rgb1 := Rgb (mkRGB (data, 0) true W H 1 0 W H)]>
               (<[data := Bytes O]> h0)) !! a = h0 !! a) as Hframe.
  { intros a [o Ha]%elem_of_dom.
    rewrite !lookup_insert_ne; [done|intros ->; congruence..]. }
  eexists rgb1, _, _. split; [exact Hrun|].
  split; [rewrite Hframe; [done|by apply elem_of_dom]|].
  split; [rewrite Hframe; [done|by apply elem_of_dom]|].
  split; [exact Hframe|].
  split; [apply lookup_insert_eq|]. split; [reflexivity|].
  split; [by apply not_elem_of_dom|].
  split; [by apply not_elem_of_dom|].
  split.
  { rewrite !dom_insert_L. cbn [array fst].
    by rewrite (assoc_L (∪)), (comm_L (∪) {[rgb1]}), (comm_L (∪) (dom h0)). }
  intros Hdiff. destruct (Hcopy Hdiff)
    as (c & cb & Hc & Hcb & Hccb & Hc' & Hcb' & Hcp & Hred).
  eexists c, _, _. split; [exact Hcp|].
  split; [apply lookup_insert_eq|].
  split; [by apply not_elem_of_dom|].
  split; [by apply not_elem_of_dom|].
  split; [exact Hred|]. split; [exact Hc'|exact Hcb'].
Qed.

Lemma RGB3_to_RGB1_source_untouched_witness :
  ∃ rgb1 h',
    RGB3_to_RGB1 nearest 1%positive 1 3 rgb_heap = Some (rgb1, h') ∧
    h' !! 1%positive = rgb_heap !! 1%positive ∧
    h' !! 2%positive = rgb_heap !! 2%positive ∧
    rgb1 ∉ dom rgb_heap.
Proof.
  destruct (RGB3_to_RGB1_source_untouched nearest rgb_heap 1%positive _ _ _ 1 3
              nearest_resampler (rgb_heap_source 1 3 ltac:(lia) ltac:(lia)))
    as (rgb1 & h' & out & H1 & H2 & H3 & _ & _ & _ & H4 & _).
  exists rgb1, h'. split; [exact H1|]. split; [exact H2|]. split; [exact H3|exact H4].
Defined.

(** ** Surfaces and the registry *)

Lemma in_heap_run {A} (m : M heap A) (W : World) (a : A) (h : heap) :
  m (heap_ W) = Some (a, h) → in_heap m W = Some (a, with_heap h W).
Proof. intros H. unfold in_heap. by rewrite H. Qed.

Lemma load_surface_run (W : World) (a : addr) (s : Fl_Image_Surface) :
  heap_ W !! a = Some (Surf s) → load_surface a W = Some (s, W).
Proof. intros H. unfold load_surface. by rewrite H. Qed.

Lemma load_driver_run (W : World) (a : addr) (drv : Fl_Image_Surface_Driver) :
  heap_ W !! a = Some (Drv drv) → load_driver a W = Some (drv, W).
Proof. intros H. unfold load_driver. by rewrite H. Qed.

Lemma with_heap_id (W : World) : with_heap (heap_ W) W = W.
Proof. by destruct W. Qed.

Lemma world_eq (W W' : World) :
  heap_ W = heap_ W' → buffers W = buffers W' → scale_ W = scale_ W' →
  surface_ W = surface_ W' → surface_stack W = surface_stack W' →
  offscreen_api_surface W = offscreen_api_surface W' →
  count_offscreens W = count_offscreens W' → max W = max W' →
  W = W'.
Proof. destruct W, W'. cbn. by intros -> -> -> -> -> -> -> ->. Qed.

Lemma offscreen_run (W : World) (s : addr) (z : Z) :
  handle_of W s = Some z → Fl_Image_Surface_offscreen s W = Some (z, W).
Proof.
  unfold handle_of, Fl_Image_Surface_offscreen. intros H.
  destruct (heap_ W !! s) as [[| |?|sf|? ? ?|]|] eqn:Hs; try done.
  rewrite (bind_some _ _ _ _ _ (load_surface_run _ _ _ Hs)).
  destruct (platform_surface sf) as [ps|]; [|by inversion H].
  destruct (heap_ W !! ps) as [[| |drv|?|? ? ?|]|] eqn:Hps; try done.
  rewrite (bind_some _ _ _ _ _ (load_driver_run _ _ _ Hps)).
  by inversion H.
Qed.

Ltac world_simpl :=
  cbn [platform_surface heap_ buffers scale_ surface_ surface_stack
       offscreen_api_surface count_offscreens max
       with_heap with_buffers with_scale with_surface with_registry
       image_surface_ width height offscreen external_offscreen fst snd].

Ltac unfold_monad :=
  unfold in_heap, load_surface, load_driver, store_surface, store_driver,
    free, alloc, when_, deref, surface, get_state, put_state, mfail_,
    mbind, M_bind, mret, M_ret.

(** Rewrite with the lookups [H1], [H2] and reduce, as often as possible. *)
Ltac run_with H1 H2 := repeat (progress (rewrite ?H1, ?H2; world_simpl)).

(** The destructor: a surface that is the current one is deactivated
    first. *)
Lemma surface_delete_run_any (W : World) (s ps : addr)
    (drv : Fl_Image_Surface_Driver) (cur : addr) (stk : list addr) :
  heap_ W !! s = Some (Surf (mkSurface (Some ps))) →
  heap_ W !! ps = Some (Drv drv) →
  deactivated W ps cur stk →
  Fl_Image_Surface_delete s W
  = Some (tt, with_surface cur stk (without_surface s ps drv W)).
Proof.
  intros Hs Hps Hde. unfold without_surface.
  assert (s ≠ ps) as Hne by congruence.
  unfold Fl_Image_Surface_delete, is_current, driver_end_current, delete_driver,
    pop_current.
  unfold_monad.
  rewrite Hs. world_simpl.
  destruct Hde as [(Hcur & -> & ->)|(Hcur & Hstk)].
  - rewrite bool_decide_eq_false_2 by congruence.
    run_with Hs Hps.
    destruct (negb (external_offscreen drv) && bool_decide (offscreen drv ≠ 0));
      run_with Hs Hps;
      rewrite lookup_delete_ne by done; rewrite Hs; by destruct W.
  - rewrite bool_decide_eq_true_2 by congruence.
    run_with Hs Hps. rewrite Hstk. world_simpl.
    run_with Hs Hps.
    destruct (negb (external_offscreen drv) && bool_decide (offscreen drv ≠ 0));
      run_with Hs Hps;
      rewrite lookup_delete_ne by done; rewrite Hs; reflexivity.
Qed.

(** Deactivating the current surface with nothing under it on the stack
    is outside the protocol. *)
Lemma surface_delete_stuck (W : World) (s ps : addr)
    (drv : Fl_Image_Surface_Driver) :
  heap_ W !! s = Some (Surf (mkSurface (Some ps))) →
  heap_ W !! ps = Some (Drv drv) →
  surface_ W = ps → surface_stack W = [] →
  Fl_Image_Surface_delete s W = None.
Proof.
  intros Hs Hps Hcur Hstk.
  unfold Fl_Image_Surface_delete, is_current, driver_end_current, delete_driver,
    pop_current.
  unfold_monad.
  rewrite Hs. world_simpl.
  rewrite bool_decide_eq_true_2 by congruence.
  run_with Hs Hps. by rewrite Hstk.
Qed.

(** The current surface and the stack the destructor leaves, whenever the
    current surface is not the one deleted with an empty stack. *)
Lemma deactivated_cases (W : World) (ps : addr) :
  (surface_ W = ps ∧ surface_stack W = []) ∨
  ∃ cur stk, deactivated W ps cur stk.
Proof.
  destruct (decide (surface_ W = ps)) as [Hcur|Hcur].
  - destruct (surface_stack W) as [|cur stk] eqn:Hstk; [by left|].
    right. exists cur, stk. by right.
  - right. exists (surface_ W), (surface_stack W). by left.
Qed.

Lemma surface_delete_run (W : World) (s ps : addr) (drv : Fl_Image_Surface_Driver) :
  heap_ W !! s = Some (Surf (mkSurface (Some ps))) →
  heap_ W !! ps = Some (Drv drv) →
  surface_ W ≠ ps →
  Fl_Image_Surface_delete s W = Some (tt, without_surface s ps drv W).
Proof.
  intros Hs Hps Hcur.
  rewrite (surface_delete_run_any W s ps drv (surface_ W) (surface_stack W))
    by (done || by left).
  reflexivity.
Qed.

Lemma read_slot_run (W : World) (i : Z) (c : option addr) :
  0 ≤ i → offscreen_api_surface W !! Z.to_nat i = Some c →
  read_slot i W = Some (c, W).
Proof. intros Hi Hc. unfold read_slot. rewrite decide_True by done. by rewrite Hc. Qed.

Lemma find_offscreen_miss (n : nat) (i ctx : Z) (W : World) :
  0 ≤ i →
  (∀ k, i ≤ k < i + Z.of_nat n → slot_misses W ctx k) →
  find_offscreen n i ctx W = Some (None, W).
Proof.
  revert i. induction n as [|n IH]; intros i Hi Hmiss; [done|].
  cbn [find_offscreen].
  destruct (Hmiss i ltac:(lia)) as (c & Hc & Hcase).
  rewrite (bind_some _ _ _ _ _ (read_slot_run _ _ _ Hi Hc)).
  destruct c as [s|].
  - destruct Hcase as (z & Hz & Hne).
    erewrite bind_some; last first.
    { erewrite bind_some by (by apply offscreen_run). reflexivity. }
    rewrite bool_decide_eq_false_2 by done.
    apply IH; [lia|]. intros k Hk. apply Hmiss. lia.
  - erewrite bind_some by reflexivity.
    apply IH; [lia|]. intros k Hk. apply Hmiss. lia.
Qed.

Lemma find_offscreen_hit (n : nat) (i j ctx : Z) (W : World) (s : addr) :
  0 ≤ i ≤ j → j < i + Z.of_nat n →
  (∀ k, i ≤ k < j → slot_misses W ctx k) →
  slot_hits W ctx j s →
  find_offscreen n i ctx W = Some (Some j, W).
Proof.
  revert i. induction n as [|n IH]; intros i Hi Hj Hmiss [Hslot Hh]; [lia|].
  cbn [find_offscreen].
  destruct (decide (i = j)) as [->|Hne].
  - rewrite (bind_some _ _ _ _ _ (read_slot_run W j _ ltac:(lia) Hslot)).
    erewrite bind_some; last first.
    { erewrite bind_some by (by apply offscreen_run). reflexivity. }
    by rewrite bool_decide_eq_true_2.
  - destruct (Hmiss i ltac:(lia)) as (c & Hc & Hcase).
    rewrite (bind_some _ _ _ _ _ (read_slot_run W i _ ltac:(lia) Hc)).
    destruct c as [s'|].
    + destruct Hcase as (z & Hz & Hzne).
      erewrite bind_some; last first.
      { erewrite bind_some by (by apply offscreen_run). reflexivity. }
      rewrite bool_decide_eq_false_2 by done.
      apply IH; [lia|lia| |done]. intros k Hk. apply Hmiss. lia.
    + erewrite bind_some by reflexivity.
      apply IH; [lia|lia| |done]. intros k Hk. apply Hmiss. lia.
Qed.

Lemma slot_hits_owner (W : World) (ctx i : Z) (s : addr) :
  slot_hits W ctx i s → ctx ≠ 0 →
  ∃ ps drv, heap_ W !! s = Some (Surf (mkSurface (Some ps))) ∧
            heap_ W !! ps = Some (Drv drv) ∧ offscreen drv = ctx.
Proof.
  intros [Hslot Hh] Hctx. unfold handle_of in Hh.
  destruct (heap_ W !! s) as [[| |?|[[ps|]]|? ? ?|]|] eqn:Hs; try done;
    cbn [platform_surface] in Hh; [|congruence].
  destruct (heap_ W !! ps) as [[| |drv|?|? ? ?|]|] eqn:Hps; try done.
  exists ps, drv. split; [done|]. split; [done|]. congruence.
Qed.

Lemma delete_run_miss (W : World) (ctx : Z) :
  (∀ k, 0 ≤ k < count_offscreens W → slot_misses W ctx k) →
  fl_delete_offscreen ctx W = Some (tt, W).
Proof.
  intros Hmiss. unfold fl_delete_offscreen.
  destruct (decide (ctx = 0)); [done|].
  erewrite bind_some by reflexivity.
  erewrite bind_some; last first.
  { apply find_offscreen_miss; [lia|]. intros k Hk. apply Hmiss. lia. }
  reflexivity.
Qed.

Lemma delete_run_hit_any (W : World) (ctx i : Z) (s ps : addr)
    (drv : Fl_Image_Surface_Driver) (cur : addr) (stk : list addr) :
  0 ≤ i < count_offscreens W →
  (∀ k, 0 ≤ k < i → slot_misses W ctx k) →
  slot_hits W ctx i s → ctx ≠ 0 →
  heap_ W !! s = Some (Surf (mkSurface (Some ps))) →
  heap_ W !! ps = Some (Drv drv) →
  deactivated W ps cur stk →
  fl_delete_offscreen ctx W
  = Some (tt, with_surface cur stk
                (with_slot i None (without_surface s ps drv W))).
Proof.
  intros Hi Hmiss Hhit Hctx Hs Hps Hde.
  assert (find_offscreen (Z.to_nat (count_offscreens W)) 0 ctx W
          = Some (Some i, W)) as Hfind.
  { apply (find_offscreen_hit _ _ _ _ _ s); [lia|lia| |done].
    intros k Hk. apply Hmiss. lia. }
  destruct Hhit as [Hslot Hh].
  unfold fl_delete_offscreen. rewrite decide_False by done.
  erewrite bind_some by reflexivity. rewrite (bind_some _ _ _ _ _ Hfind).
  rewrite (bind_some _ _ _ _ _ (read_slot_run W i _ ltac:(lia) Hslot)).
  erewrite bind_some by reflexivity.
  rewrite (bind_some _ _ _ _ _ (surface_delete_run_any _ _ _ _ _ _ Hs Hps Hde)).
  unfold write_slot, without_surface. world_simpl.
  rewrite decide_True; [reflexivity|].
  apply lookup_lt_Some in Hslot. lia.
Qed.

Lemma delete_run_hit_stuck (W : World) (ctx i : Z) (s ps : addr)
    (drv : Fl_Image_Surface_Driver) :
  0 ≤ i < count_offscreens W →
  (∀ k, 0 ≤ k < i → slot_misses W ctx k) →
  slot_hits W ctx i s → ctx ≠ 0 →
  heap_ W !! s = Some (Surf (mkSurface (Some ps))) →
  heap_ W !! ps = Some (Drv drv) →
  surface_ W = ps → surface_stack W = [] →
  fl_delete_offscreen ctx W = None.
Proof.
  intros Hi Hmiss Hhit Hctx Hs Hps Hcur Hstk.
  assert (find_offscreen (Z.to_nat (count_offscreens W)) 0 ctx W
          = Some (Some i, W)) as Hfind.
  { apply (find_offscreen_hit _ _ _ _ _ s); [lia|lia| |done].
    intros k Hk. apply Hmiss. lia. }
  destruct Hhit as [Hslot Hh].
  unfold fl_delete_offscreen. rewrite decide_False by done.
  erewrite bind_some by reflexivity. rewrite (bind_some _ _ _ _ _ Hfind).
  rewrite (bind_some _ _ _ _ _ (read_slot_run W i _ ltac:(lia) Hslot)).
  erewrite bind_some by reflexivity.
  unfold mbind at 1, M_bind at 1.
  by rewrite (surface_delete_stuck W s ps drv Hs Hps Hcur Hstk).
Qed.

Lemma delete_run_hit (W : World) (ctx i : Z) (s ps : addr)
    (drv : Fl_Image_Surface_Driver) :
  0 ≤ i < count_offscreens W →
  (∀ k, 0 ≤ k < i → slot_misses W ctx k) →
  slot_hits W ctx i s → ctx ≠ 0 →
  heap_ W !! s = Some (Surf (mkSurface (Some ps))) →
  heap_ W !! ps = Some (Drv drv) →
  surface_ W ≠ ps →
  fl_delete_offscreen ctx W
  = Some (tt, with_slot i None (without_surface s ps drv W)).
Proof.
  intros Hi Hmiss Hhit Hctx Hs Hps Hcur.
  rewrite (delete_run_hit_any W ctx i s ps drv (surface_ W) (surface_stack W))
    by (done || by left).
  reflexivity.
Qed.

(** C10. On a surface whose driver pointer is null, [offscreen()] returns
    the null handle and [highres_image()] returns [NULL], the state being
    left as it was; on a surface with a live driver, [offscreen()] returns
    the buffer handle of that driver. *)
Theorem null_driver_queries (W : World) (this : addr) (sf : Fl_Image_Surface) :
  heap_ W !! this = Some (Surf sf) →
  match platform_surface sf with
  | None =>
      Fl_Image_Surface_offscreen this W = Some (0, W) ∧
      highres_image this W = Some (None, W)
  | Some ps =>
      ∀ drv, heap_ W !! ps = Some (Drv drv) →
        Fl_Image_Surface_offscreen this W = Some (offscreen drv, W)
  end.
Proof.
  intros Hs. destruct sf as [[ps|]]; cbn [platform_surface].
  - intros drv Hps. apply offscreen_run. unfold handle_of.
    rewrite Hs. cbn [platform_surface]. by rewrite Hps.
  - split.
    + apply offscreen_run. unfold handle_of. by rewrite Hs.
    + unfold highres_image.
      by rewrite (bind_some _ _ _ _ _ (load_surface_run _ _ _ Hs)).
Qed.

Lemma null_driver_queries_witness :
  let W := with_heap (<[2%positive := Surf (mkSurface None)]> {[1%positive := Device]})
             (initial_world (1, 1)) in
  Fl_Image_Surface_offscreen 2%positive W = Some (0, W) ∧
  highres_image 2%positive W = Some (None, W).
Proof.
  intros W.
  exact (null_driver_queries W 2%positive (mkSurface None) eq_refl).
Defined.

(** C8. [fl_delete_offscreen] with the null handle, and
    [fl_delete_offscreen] and [fl_begin_offscreen] with a handle that is the
    buffer handle of no live surface of the registry, return with the state
    unchanged.  When [fl_delete_offscreen] finds the handle, at slot [i]
    first, it destroys the surface of that slot with its driver, nulls slot
    [i] and leaves every other slot, the counters and every other object as
    they were; the buffer goes with the driver unless it is borrowed.  The
    current surface and the stack are untouched when the surface deleted
    is not the current one; when it is, the destructor deactivates it
    first: the surface on top of the stack becomes the current one and
    leaves the stack. *)
Theorem offscreen_not_found_noop (W : World) (ctx : Z) :
  fl_delete_offscreen 0 W = Some (tt, W) ∧
  ((∀ k, 0 ≤ k < count_offscreens W → slot_misses W ctx k) →
   fl_delete_offscreen ctx W = Some (tt, W) ∧
   fl_begin_offscreen ctx W = Some (tt, W)) ∧
  (∀ i s, 0 ≤ i < count_offscreens W →
     (∀ k, 0 ≤ k < i → slot_misses W ctx k) →
     slot_hits W ctx i s → ctx ≠ 0 →
     ∃ ps drv,
       heap_ W !! s = Some (Surf (mkSurface (Some ps))) ∧
       heap_ W !! ps = Some (Drv drv) ∧
       ∀ cur stk,
         (surface_ W ≠ ps ∧ cur = surface_ W ∧ stk = surface_stack W) ∨
         (surface_ W = ps ∧ surface_stack W = cur :: stk) →
         ∃ W',
           fl_delete_offscreen ctx W = Some (tt, W') ∧
           heap_ W' = delete s (delete ps (heap_ W)) ∧
           buffers W' = (if external_offscreen drv then buffers W
                         else delete ctx (buffers W)) ∧
           offscreen_api_surface W'
           = <[Z.to_nat i := None]> (offscreen_api_surface W) ∧
           offscreen_api_surface W' !! Z.to_nat i = Some None ∧
           (∀ k, k ≠ Z.to_nat i →
              offscreen_api_surface W' !! k = offscreen_api_surface W !! k) ∧
           count_offscreens W' = count_offscreens W ∧
           max W' = max W ∧
           surface_ W' = cur ∧ surface_stack W' = stk).
Proof.
  split; [reflexivity|]. split.
  - intros Hmiss. split; [by apply delete_run_miss|].
    unfold fl_begin_offscreen.
    erewrite bind_some by reflexivity.
    erewrite bind_some; last first.
    { apply find_offscreen_miss; [lia|]. intros k Hk. apply Hmiss. lia. }
    reflexivity.
  - intros i s Hi Hmiss Hhit Hctx.
    destruct (slot_hits_owner W ctx i s Hhit Hctx) as (ps & drv & Hs & Hps & Hd).
    exists ps, drv. split; [done|]. split; [done|].
    intros cur stk Hde. eexists. split.
    { by apply (delete_run_hit_any W ctx i s ps drv cur stk). }
    destruct Hhit as [Hslot _].
    unfold with_slot, without_surface. world_simpl.
    split; [done|]. split.
    { rewrite Hd. rewrite bool_decide_eq_true_2 by done.
      by destruct (external_offscreen drv). }
    split; [done|]. split.
    { apply list_lookup_insert_eq. by apply lookup_lt_Some in Hslot. }
    split; [|done]. intros k Hk. by rewrite list_lookup_insert_ne.
Qed.

(** *** [find_slot] and [fl_create_offscreen] *)

Lemma find_slot_scan_full (n : nat) (num : Z) (W : World) :
  0 ≤ num →
  (∀ k, num ≤ k < num + Z.of_nat n → slot_taken W k) →
  find_slot_scan n num W = Some (None, W).
Proof.
  revert num. induction n as [|n IH]; intros num Hnum Hfull; [done|].
  cbn [find_slot_scan].
  destruct (Hfull num ltac:(lia)) as (s & Hs).
  rewrite (bind_some _ _ _ _ _ (read_slot_run W num _ Hnum Hs)).
  apply IH; [lia|]. intros k Hk. apply Hfull. lia.
Qed.

Lemma find_slot_scan_free (n : nat) (num j : Z) (W : World) :
  0 ≤ num ≤ j → j < num + Z.of_nat n →
  (∀ k, num ≤ k < j → slot_taken W k) →
  offscreen_api_surface W !! Z.to_nat j = Some None →
  find_slot_scan n num W = Some (Some j, W).
Proof.
  revert num. induction n as [|n IH]; intros num Hnum Hj Hfull Hfree; [lia|].
  cbn [find_slot_scan].
  destruct (decide (num = j)) as [->|Hne].
  - by rewrite (bind_some _ _ _ _ _ (read_slot_run W j _ ltac:(lia) Hfree)).
  - destruct (Hfull num ltac:(lia)) as (s & Hs).
    rewrite (bind_some _ _ _ _ _ (read_slot_run W num _ ltac:(lia) Hs)).
    apply IH; [lia|lia| |done]. intros k Hk. apply Hfull. lia.
Qed.

Lemma find_slot_free (W : World) (j : Z) :
  0 ≤ j < count_offscreens W →
  (∀ k, 0 ≤ k < j → slot_taken W k) →
  offscreen_api_surface W !! Z.to_nat j = Some None →
  find_slot W = Some (j, W).
Proof.
  intros Hj Hfull Hfree. unfold find_slot.
  erewrite bind_some by reflexivity.
  erewrite bind_some; last first.
  { apply (find_slot_scan_free _ _ j); [lia|lia| |done].
    intros k Hk. apply Hfull. lia. }
  reflexivity.
Qed.

Lemma find_slot_full (W : World) :
  (∀ k, 0 ≤ k < count_offscreens W → slot_taken W k) →
  find_slot W = Some (count_offscreens W, with_appended_slot W).
Proof.
  intros Hfull. unfold find_slot.
  erewrite bind_some by reflexivity.
  erewrite bind_some; last first.
  { apply find_slot_scan_full; [lia|]. intros k Hk. apply Hfull. lia. }
  unfold with_appended_slot, realloc_slots. unfold_monad.
  destruct (bool_decide (max W ≤ count_offscreens W)); reflexivity.
Qed.

Lemma surface_new_run (W : World) (w h : Z) :
  Fl_Image_Surface_new w h 1 0 W
  = Some (new_surface_addr W, with_new_surface w h W).
Proof.
  unfold Fl_Image_Surface_new, newImageSurfaceDriver.
  rewrite decide_False by lia.
  unfold_monad. world_simpl. rewrite !decide_True by lia.
  fold (new_surface_addr W). fold (new_driver_addr W). fold (new_handle W).
  assert (new_surface_addr W ≠ new_driver_addr W) as Hne.
  { eapply lookup_ne_fresh. apply lookup_insert_eq. }
  assert (new_driver_addr W ≠ new_surface_addr W) as Hne' by done.
  repeat (progress (world_simpl; rewrite ?lookup_insert_eq;
                    rewrite ?lookup_insert_ne by done)).
  unfold with_new_surface, new_pixmap. do 2 f_equal.
  unfold with_heap, with_buffers. world_simpl. f_equal.
  apply map_eq. intros k. rewrite !lookup_insert.
  repeat case_decide; congruence.
Qed.

Lemma handle_of_new_surface (W : World) (w h : Z) (i : Z) :
  handle_of (with_slot i (Some (new_surface_addr W)) (with_new_surface w h W))
            (new_surface_addr W)
  = Some (new_handle W).
Proof.
  assert (new_surface_addr W ≠ new_driver_addr W) as Hne.
  { eapply lookup_ne_fresh. apply lookup_insert_eq. }
  unfold handle_of, with_slot, with_new_surface. world_simpl.
  rewrite lookup_insert_ne by done. rewrite lookup_insert_eq.
  world_simpl. by rewrite lookup_insert_eq.
Qed.

Lemma create_after_find_slot (W W1 : World) (w h rank : Z) :
  find_slot W = Some (rank, W1) →
  0 ≤ rank < Z.of_nat (length (offscreen_api_surface W1)) →
  fl_create_offscreen w h W
  = Some (new_handle W1,
          with_slot rank (Some (new_surface_addr W1)) (with_new_surface w h W1)).
Proof.
  intros Hfind Hrank. unfold fl_create_offscreen.
  rewrite (bind_some _ _ _ _ _ Hfind).
  rewrite (bind_some _ _ _ _ _ (surface_new_run W1 w h)).
  erewrite bind_some; last first.
  { unfold write_slot. rewrite decide_True; [reflexivity|].
    unfold with_new_surface. world_simpl. lia. }
  fold (with_slot rank (Some (new_surface_addr W1)) (with_new_surface w h W1)).
  erewrite bind_some; last first.
  { apply read_slot_run; [lia|]. unfold with_slot, with_new_surface. world_simpl.
    apply list_lookup_insert_eq. lia. }
  erewrite bind_some by reflexivity.
  apply offscreen_run, handle_of_new_surface.
Qed.

(** *** The invariant of the registry *)

Lemma initial_inv (sc : Z * Z) : registry_inv (initial_world sc).
Proof.
  constructor; cbn; try done; try lia.
  - intros i j s s' ps ps' drv drv' [Hi _]. cbn in Hi. lia.
Qed.

Lemma slot_owner_fun (W : World) (i : Z) (s ps ps' : addr)
    (drv drv' : Fl_Image_Surface_Driver) :
  slot_owner W i s ps drv → heap_ W !! s = Some (Surf (mkSurface (Some ps'))) →
  heap_ W !! ps' = Some (Drv drv') → ps = ps' ∧ drv = drv'.
Proof.
  intros (_ & _ & Hs & Hps) Hs' Hps'.
  assert (ps = ps') as -> by congruence. split; [done|congruence].
Qed.

(** Either every slot in use is taken, or there is a lowest free one. *)
Lemma free_slot_cases (W : World) :
  count_offscreens W ≤ Z.of_nat (length (offscreen_api_surface W)) →
  (∀ k, 0 ≤ k < count_offscreens W → slot_taken W k) ∨
  (∃ j, 0 ≤ j < count_offscreens W ∧ (∀ k, 0 ≤ k < j → slot_taken W k) ∧
        offscreen_api_surface W !! Z.to_nat j = Some None).
Proof.
  intros Hlen.
  assert (∀ n : nat, Z.of_nat n ≤ count_offscreens W →
    (∀ k, 0 ≤ k < Z.of_nat n → slot_taken W k) ∨
    (∃ j, 0 ≤ j < Z.of_nat n ∧ (∀ k, 0 ≤ k < j → slot_taken W k) ∧
          offscreen_api_surface W !! Z.to_nat j = Some None)) as Hn.
  { induction n as [|n IH]; intros Hle; [left; intros; lia|].
    destruct IH as [Hall|(j & Hj & Hlow & Hfree)]; [lia| |].
    - destruct (lookup_lt_is_Some_2 (offscreen_api_surface W) n) as [c Hc]; [lia|].
      destruct c as [s|].
      + left. intros k Hk. destruct (decide (k = Z.of_nat n)) as [->|Hne].
        * exists s. by rewrite Nat2Z.id.
        * apply Hall. lia.
      + right. exists (Z.of_nat n). split; [lia|]. split; [done|].
        by rewrite Nat2Z.id.
    - right. exists j. split; [lia|done]. }
  destruct (decide (0 ≤ count_offscreens W)) as [Hc|Hc].
  - destruct (Hn (Z.to_nat (count_offscreens W)) ltac:(lia))
      as [Hall|(j & Hj & Hrest)].
    + left. intros k Hk. apply Hall. lia.
    + right. exists j. split; [lia|done].
  - left. intros k Hk. lia.
Qed.

(** Either no slot in use holds the handle [ctx], or there is a first one. *)
Lemma handle_slot_cases (W : World) (ctx : Z) :
  registry_inv W →
  (∀ k, 0 ≤ k < count_offscreens W → slot_misses W ctx k) ∨
  (∃ i s, 0 ≤ i < count_offscreens W ∧
          (∀ k, 0 ≤ k < i → slot_misses W ctx k) ∧ slot_hits W ctx i s).
Proof.
  intros Hinv.
  assert (∀ k, 0 ≤ k < count_offscreens W →
            slot_misses W ctx k ∨ ∃ s, slot_hits W ctx k s) as Hk.
  { intros k Hk.
    destruct (lookup_lt_is_Some_2 (offscreen_api_surface W) (Z.to_nat k))
      as [c Hc].
    { pose proof (ri_count _ Hinv). pose proof (ri_length _ Hinv). lia. }
    destruct c as [s|]; [|left; by exists None].
    destruct (ri_live _ Hinv k s Hk Hc) as (ps & drv & (_ & _ & Hs & Hps) & _).
    assert (handle_of W s = Some (offscreen drv)) as Hh.
    { unfold handle_of. rewrite Hs. cbn [platform_surface]. by rewrite Hps. }
    destruct (decide (offscreen drv = ctx)) as [<-|Hne].
    - right. by exists s.
    - left. exists (Some s). split; [done|]. by exists (offscreen drv). }
  assert (∀ n : nat, Z.of_nat n ≤ count_offscreens W →
    (∀ k, 0 ≤ k < Z.of_nat n → slot_misses W ctx k) ∨
    (∃ i s, 0 ≤ i < Z.of_nat n ∧ (∀ k, 0 ≤ k < i → slot_misses W ctx k) ∧
            slot_hits W ctx i s)) as Hn.
  { induction n as [|n IH]; intros Hle; [left; intros; lia|].
    destruct IH as [Hall|(i & s & Hi & Hrest)]; [lia| |].
    - destruct (Hk (Z.of_nat n) ltac:(lia)) as [Hm|[s Hs]].
      + left. intros k Hk'. destruct (decide (k = Z.of_nat n)) as [->|Hne];
          [done|apply Hall; lia].
      + right. exists (Z.of_nat n), s. split; [lia|done].
    - right. exists i, s. split; [lia|done]. }
  pose proof (ri_count _ Hinv).
  destruct (Hn (Z.to_nat (count_offscreens W)) ltac:(lia))
    as [Hall|(i & s & Hi & Hrest)].
  - left. intros k Hk'. apply Hall. lia.
  - right. exists i, s. split; [lia|done].
Qed.

Lemma new_handle_fresh (W : World) :
  new_handle W ≠ 0 ∧ buffers W !! new_handle W = None.
Proof.
  pose proof (is_fresh ({[0]} ∪ dom (buffers W))) as Hf.
  fold (new_handle W) in Hf. split.
  - intros E. apply Hf. rewrite E. set_solver.
  - apply not_elem_of_dom. intros E. apply Hf. set_solver.
Qed.

Lemma new_addrs_fresh (W : World) :
  heap_ W !! new_surface_addr W = None ∧
  heap_ W !! new_driver_addr W = None ∧
  new_surface_addr W ≠ new_driver_addr W.
Proof.
  assert (heap_ W !! new_surface_addr W = None) as Hs by apply fresh_lookup.
  pose proof (fresh_lookup (<[new_surface_addr W := Surf (mkSurface None)]> (heap_ W)))
    as Hp.
  fold (new_driver_addr W) in Hp.
  apply lookup_insert_None in Hp as [Hp Hne]. done.
Qed.

(** Storing a new surface in slot [rank] of a registry [W1] that differs
    from [W] in its registry fields only, and agrees with it on the other
    slots in use, keeps the invariant. *)
Lemma inv_new_surface (W W1 : World) (w h rank : Z) :
  registry_inv W →
  heap_ W1 = heap_ W → buffers W1 = buffers W →
  0 ≤ rank < count_offscreens W1 → count_offscreens W1 ≤ max W1 →
  Z.of_nat (length (offscreen_api_surface W1)) = max W1 →
  max W1 `mod` 20 = 0 →
  (∀ i, 0 ≤ i < count_offscreens W1 → i ≠ rank →
     0 ≤ i < count_offscreens W ∧
     offscreen_api_surface W1 !! Z.to_nat i = offscreen_api_surface W !! Z.to_nat i) →
  registry_inv (with_slot rank (Some (new_surface_addr W1)) (with_new_surface w h W1)).
Proof.
  intros Hinv Hheap Hbuf Hrank Hcount Hlen Hgrow Hold.
  destruct (new_addrs_fresh W1) as (Hs0 & Hp0 & Hsp).
  destruct (new_handle_fresh W1) as (Hh0 & Hb0).
  set (s0 := new_surface_addr W1) in *.
  set (p0 := new_driver_addr W1) in *.
  set (h0 := new_handle W1) in *.
  set (W2 := with_slot rank (Some s0) (with_new_surface w h W1)).
  assert (heap_ W2 = <[p0 := Drv (mkDriver (Some s0) w h h0 false)]>
                       (<[s0 := Surf (mkSurface (Some p0))]> (heap_ W))) as Hheap2.
  { subst W2. unfold with_slot, with_new_surface. world_simpl. by rewrite Hheap. }
  assert (buffers W2 = <[h0 := new_pixmap W1 w h]> (buffers W)) as Hbuf2.
  { subst W2. unfold with_slot, with_new_surface. world_simpl. by rewrite Hbuf. }
  assert (offscreen_api_surface W2
          = <[Z.to_nat rank := Some s0]> (offscreen_api_surface W1)) as Harr2
    by reflexivity.
  assert (count_offscreens W2 = count_offscreens W1) as Hcount2 by reflexivity.
  assert (max W2 = max W1) as Hmax2 by reflexivity.
  rewrite Hheap in Hs0, Hp0. rewrite Hbuf in Hb0.
  (* objects that were live are as they were *)
  assert (∀ a o, heap_ W !! a = Some o → heap_ W2 !! a = Some o) as Hkeep.
  { intros a o Ha. rewrite Hheap2.
    rewrite !lookup_insert_ne; [done|intros <-; congruence..]. }
  (* a taken slot is the new one, or was taken by the same surface *)
  assert (∀ i s ps drv, slot_owner W2 i s ps drv →
            (i = rank ∧ s = s0 ∧ ps = p0 ∧ offscreen drv = h0 ∧
             external_offscreen drv = false) ∨
            (i ≠ rank ∧ slot_owner W i s ps drv)) as Hcases.
  { intros i s ps drv (Hi & Hslot & Hs & Hps).
    rewrite Hcount2 in Hi. rewrite Harr2 in Hslot.
    destruct (decide (i = rank)) as [->|Hne].
    - left. rewrite list_lookup_insert_eq in Hslot by lia.
      assert (s = s0) as -> by congruence.
      rewrite Hheap2 in Hs, Hps.
      rewrite lookup_insert_ne, lookup_insert_eq in Hs by done.
      assert (ps = p0) as -> by congruence.
      rewrite lookup_insert_eq in Hps.
      assert (drv = mkDriver (Some s0) w h h0 false) as -> by congruence.
      done.
    - right. split; [done|].
      rewrite list_lookup_insert_ne in Hslot by lia.
      destruct (Hold i Hi Hne) as [Hi' Heq]. rewrite Heq in Hslot.
      destruct (ri_live _ Hinv i s Hi' Hslot) as (ps' & drv' & Ho & _).
      destruct Ho as (_ & _ & Hs' & Hps').
      pose proof (Hkeep _ _ Hs') as Hs2. pose proof (Hkeep _ _ Hps') as Hps2.
      assert (ps = ps') as -> by congruence.
      assert (drv = drv') as -> by congruence.
      done. }
  constructor.
  - rewrite Hcount2, Hmax2. lia.
  - rewrite Harr2, length_insert, Hmax2. done.
  - by rewrite Hmax2.
  - intros i s Hi Hslot. rewrite Hcount2 in Hi.
    destruct (decide (i = rank)) as [->|Hne].
    + rewrite Harr2, list_lookup_insert_eq in Hslot by lia.
      assert (s = s0) as -> by congruence.
      exists p0, (mkDriver (Some s0) w h h0 false). split.
      { split; [by rewrite Hcount2|]. split.
        - rewrite Harr2. apply list_lookup_insert_eq. lia.
        - rewrite Hheap2. split; [|apply lookup_insert_eq].
          rewrite lookup_insert_ne by done. apply lookup_insert_eq. }
      split; [done|]. split; [done|].
      rewrite Hbuf2. cbn [offscreen]. rewrite lookup_insert_eq. by eexists.
    + pose proof Hslot as Hslot2.
      rewrite Harr2, list_lookup_insert_ne in Hslot by lia.
      destruct (Hold i Hi Hne) as [Hi' Heq]. rewrite Heq in Hslot.
      destruct (ri_live _ Hinv i s Hi' Hslot)
        as (ps & drv & (_ & _ & Hs & Hps) & Hext & Hoff & Hb).
      exists ps, drv. split.
      { split; [by rewrite Hcount2|]. split; [done|].
        split; by apply Hkeep. }
      split; [done|]. split; [done|].
      rewrite Hbuf2. destruct Hb as [pm Hpm].
      rewrite lookup_insert_ne by congruence. by eexists.
  - intros i j s s' ps ps' drv drv' Ho Ho' Hshare.
    destruct (Hcases _ _ _ _ Ho) as [(-> & -> & -> & Hd & _)|(Hne & Hold1)];
      destruct (Hcases _ _ _ _ Ho') as [(-> & -> & -> & Hd' & _)|(Hne' & Hold2)];
      [done| | |by eapply (ri_inj _ Hinv)].
    + exfalso. destruct Hold2 as (Hj & Hslot & Hs & Hps).
      destruct (ri_live _ Hinv j s' Hj Hslot)
        as (ps2 & drv2 & (_ & _ & Hs2 & Hps2) & _ & _ & [pm Hpm]).
      assert (ps2 = ps') as -> by congruence.
      assert (drv2 = drv') as -> by congruence.
      destruct Hshare as [<-|[<-|E]]; [congruence|congruence|].
      rewrite <- E, Hd in Hpm. congruence.
    + exfalso. destruct Hold1 as (Hi & Hslot & Hs & Hps).
      destruct (ri_live _ Hinv i s Hi Hslot)
        as (ps2 & drv2 & (_ & _ & Hs2 & Hps2) & _ & _ & [pm Hpm]).
      assert (ps2 = ps) as -> by congruence.
      assert (drv2 = drv) as -> by congruence.
      destruct Hshare as [->|[->|E]]; [congruence|congruence|].
      rewrite E, Hd' in Hpm. congruence.
Qed.

Lemma appended_slot_fields (W : World) :
  registry_inv W →
  let W1 := with_appended_slot W in
  heap_ W1 = heap_ W ∧ buffers W1 = buffers W ∧
  count_offscreens W1 = count_offscreens W + 1 ∧
  count_offscreens W1 ≤ max W1 ∧
  Z.of_nat (length (offscreen_api_surface W1)) = max W1 ∧
  max W1 `mod` 20 = 0 ∧
  max W1 = (if bool_decide (max W ≤ count_offscreens W) then max W + 20 else max W) ∧
  (∀ i, 0 ≤ i < count_offscreens W →
     offscreen_api_surface W1 !! Z.to_nat i = offscreen_api_surface W !! Z.to_nat i).
Proof.
  intros [Hc Hl Hg _ _] W1. subst W1. unfold with_appended_slot.
  case_bool_decide as Hfull; world_simpl.
  - split; [done|]. split; [done|]. split; [done|]. split; [lia|].
    split; [rewrite length_resize; lia|]. split.
    { rewrite <- Zplus_mod_idemp_l, Hg. done. }
    split; [done|]. intros i Hi. apply lookup_resize; lia.
  - split; [done|]. split; [done|]. split; [done|]. split; [lia|].
    done.
Qed.

(** What [fl_create_offscreen] does, by the state of the slots in use. *)
Lemma create_run (W : World) (w h : Z) :
  registry_inv W →
  ∃ (rank : Z) (W1 : World),
    fl_create_offscreen w h W
    = Some (new_handle W1,
            with_slot rank (Some (new_surface_addr W1)) (with_new_surface w h W1)) ∧
    registry_inv
      (with_slot rank (Some (new_surface_addr W1)) (with_new_surface w h W1)) ∧
    ((0 ≤ rank < count_offscreens W ∧
      (∀ k, 0 ≤ k < rank → slot_taken W k) ∧
      offscreen_api_surface W !! Z.to_nat rank = Some None ∧ W1 = W) ∨
     ((∀ k, 0 ≤ k < count_offscreens W → slot_taken W k) ∧
      rank = count_offscreens W ∧ W1 = with_appended_slot W)).
Proof.
  intros Hinv. pose proof (ri_count _ Hinv) as Hc.
  pose proof (ri_length _ Hinv) as Hl.
  destruct (free_slot_cases W ltac:(lia)) as [Hall|(j & Hj & Hlow & Hfree)].
  - destruct (appended_slot_fields W Hinv)
      as (Hh1 & Hb1 & Hc1 & Hcm1 & Hl1 & Hg1 & Hm1 & Hold1).
    exists (count_offscreens W), (with_appended_slot W). split.
    { apply create_after_find_slot; [by apply find_slot_full|lia]. }
    split; [|by right].
    apply (inv_new_surface W); try done; try lia.
    intros i Hi Hne. split; [lia|]. apply Hold1. lia.
  - exists j, W. split.
    { apply create_after_find_slot; [by apply find_slot_free|lia]. }
    split; [|by left].
    apply (inv_new_surface W); try done; try lia. apply Hinv.
Qed.

Lemma inv_create (W W' : World) (w h ctx : Z) :
  registry_inv W → fl_create_offscreen w h W = Some (ctx, W') → registry_inv W'.
Proof.
  intros Hinv Hrun.
  destruct (create_run W w h Hinv) as (rank & W1 & Hrun' & Hinv' & _).
  rewrite Hrun' in Hrun. by inversion Hrun; subst.
Qed.

(** Deleting the surface of slot [i] keeps the invariant. *)
Lemma inv_without_surface (W : World) (i : Z) (s ps : addr)
    (drv : Fl_Image_Surface_Driver) :
  registry_inv W → slot_owner W i s ps drv →
  registry_inv (with_slot i None (without_surface s ps drv W)).
Proof.
  intros Hinv Ho. pose proof Ho as (Hi & Hslot & Hs & Hps).
  destruct (ri_live _ Hinv i s Hi Hslot)
    as (ps0 & drv0 & Ho0 & Hext & Hoff & Hb).
  destruct (slot_owner_fun _ _ _ _ _ _ _ Ho0 Hs Hps) as [-> ->].
  set (W2 := with_slot i None (without_surface s ps drv W)).
  assert (heap_ W2 = delete s (delete ps (heap_ W))) as Hheap2 by reflexivity.
  assert (buffers W2 = delete (offscreen drv) (buffers W)) as Hbuf2.
  { subst W2. unfold with_slot, without_surface. world_simpl.
    rewrite Hext. cbn [negb andb]. by rewrite bool_decide_eq_true_2. }
  assert (offscreen_api_surface W2
          = <[Z.to_nat i := None]> (offscreen_api_surface W)) as Harr2
    by reflexivity.
  assert (count_offscreens W2 = count_offscreens W) as Hcount2 by reflexivity.
  assert (max W2 = max W) as Hmax2 by reflexivity.
  assert (∀ j s' ps' drv', slot_owner W2 j s' ps' drv' →
            j ≠ i ∧ slot_owner W j s' ps' drv') as Hcases.
  { intros j s' ps' drv' (Hj & Hslot' & Hs' & Hps').
    rewrite Hcount2 in Hj. rewrite Harr2 in Hslot'. rewrite Hheap2 in Hs', Hps'.
    destruct (decide (j = i)) as [->|Hne].
    { rewrite list_lookup_insert_eq in Hslot'; [done|].
      apply lookup_lt_Some in Hslot. lia. }
    rewrite list_lookup_insert_ne in Hslot' by lia.
    apply lookup_delete_Some in Hs' as [_ Hs'].
    apply lookup_delete_Some in Hs' as [_ Hs'].
    apply lookup_delete_Some in Hps' as [_ Hps'].
    apply lookup_delete_Some in Hps' as [_ Hps'].
    done. }
  constructor.
  - rewrite Hcount2, Hmax2. apply Hinv.
  - rewrite Harr2, length_insert, Hmax2. apply Hinv.
  - rewrite Hmax2. apply Hinv.
  - intros j s' Hj Hslot'. rewrite Hcount2 in Hj. rewrite Harr2 in Hslot'.
    assert (j ≠ i) as Hne.
    { intros ->. rewrite list_lookup_insert_eq in Hslot'; [done|].
      apply lookup_lt_Some in Hslot. lia. }
    rewrite list_lookup_insert_ne in Hslot' by lia.
    destruct (ri_live _ Hinv j s' Hj Hslot')
      as (ps' & drv' & Ho' & Hext' & Hoff' & [pm Hpm]).
    pose proof Ho' as (_ & _ & Hs' & Hps').
    assert (s' ≠ s) as Hss.
    { intros ->. apply Hne. eapply (ri_inj _ Hinv); eauto. }
    assert (ps' ≠ ps) as Hpp.
    { intros ->. apply Hne. eapply (ri_inj _ Hinv); eauto. }
    assert (offscreen drv' ≠ offscreen drv) as Hoo.
    { intros E. apply Hne. eapply (ri_inj _ Hinv); eauto. }
    exists ps', drv'. split.
    { split; [by rewrite Hcount2|]. split.
      - rewrite Harr2. by rewrite list_lookup_insert_ne by lia.
      - rewrite Hheap2. split.
        + rewrite !lookup_delete_ne; [done|congruence|congruence].
        + rewrite !lookup_delete_ne; [done|congruence|congruence]. }
    split; [done|]. split; [done|].
    rewrite Hbuf2. rewrite lookup_delete_ne by congruence. by eexists.
  - intros j j' s1 s2 ps1 ps2 drv1 drv2 Ho1 Ho2 Hshare.
    destruct (Hcases _ _ _ _ Ho1) as [_ Ho1'].
    destruct (Hcases _ _ _ _ Ho2) as [_ Ho2'].
    by eapply (ri_inj _ Hinv).
Qed.

(** What [fl_delete_offscreen] does, by the slots in use. *)
Lemma delete_run (W : World) (ctx : Z) :
  registry_inv W →
  fl_delete_offscreen ctx W = Some (tt, W) ∨
  ∃ i s ps drv,
    ctx ≠ 0 ∧ slot_owner W i s ps drv ∧ offscreen drv = ctx ∧
    ((surface_ W = ps ∧ surface_stack W = [] ∧
      fl_delete_offscreen ctx W = None) ∨
     ∃ cur stk,
       deactivated W ps cur stk ∧
       fl_delete_offscreen ctx W
       = Some (tt, with_surface cur stk
                     (with_slot i None (without_surface s ps drv W)))).
Proof.
  intros Hinv. destruct (decide (ctx = 0)) as [->|Hctx]; [by left|].
  destruct (handle_slot_cases W ctx Hinv) as [Hmiss|(i & s & Hi & Hmiss & Hhit)].
  - left. by apply delete_run_miss.
  - right. destruct (slot_hits_owner W ctx i s Hhit Hctx) as (ps & drv & Hs & Hps & Hd).
    exists i, s, ps, drv. split; [done|]. split.
    { split; [done|]. split; [apply Hhit|done]. }
    split; [done|].
    destruct (deactivated_cases W ps) as [[Hcur Hstk]|(cur & stk & Hde)].
    + left. split; [done|]. split; [done|].
      by apply (delete_run_hit_stuck W ctx i s ps drv).
    + right. exists cur, stk. split; [done|].
      by apply delete_run_hit_any.
Qed.

(** The invariant does not read the current surface or the stack. *)
Lemma inv_with_surface (W : World) (cur : addr) (stk : list addr) :
  registry_inv W → registry_inv (with_surface cur stk W).
Proof. by intros []. Qed.

Lemma inv_delete (W W' : World) (ctx : Z) :
  registry_inv W → fl_delete_offscreen ctx W = Some (tt, W') → registry_inv W'.
Proof.
  intros Hinv Hrun.
  destruct (delete_run W ctx Hinv)
    as [Hsame|(i & s & ps & drv & _ & Ho & _ &
               [(_ & _ & Hstuck)|(cur & stk & _ & Hhit)])].
  - rewrite Hsame in Hrun. by inversion Hrun; subst.
  - by rewrite Hstuck in Hrun.
  - rewrite Hhit in Hrun. inversion Hrun; subst.
    apply inv_with_surface. by apply inv_without_surface.
Qed.

Lemma reachable_inv (W : World) : reachable W → registry_inv W.
Proof.
  induction 1 as [sc|W W' w h ctx _ IH Hrun|W W' ctx _ IH Hrun].
  - apply initial_inv.
  - by eapply inv_create.
  - by eapply inv_delete.
Qed.

(** [fl_create_offscreen] leaves the current surface, the stack and the
    live objects as they are. *)
Lemma create_keeps_surface (W W' : World) (w h ctx : Z) :
  registry_inv W → fl_create_offscreen w h W = Some (ctx, W') →
  surface_ W' = surface_ W ∧ surface_stack W' = surface_stack W ∧
  ∀ a, is_Some (heap_ W !! a) → heap_ W' !! a = heap_ W !! a.
Proof.
  intros Hinv Hrun.
  destruct (create_run W w h Hinv) as (rank & W1 & Hrun' & _ & Hcase).
  rewrite Hrun' in Hrun. injection Hrun as _ <-.
  assert (heap_ W1 = heap_ W ∧ surface_ W1 = surface_ W ∧
          surface_stack W1 = surface_stack W) as (Hh & Hc & Hk).
  { destruct Hcase as [(_ & _ & _ & ->)|(_ & _ & ->)]; [done|].
    unfold with_appended_slot. by case_bool_decide. }
  unfold with_slot, with_new_surface. world_simpl.
  split; [done|]. split; [done|].
  intros a [o Ha]. destruct (new_addrs_fresh W1) as (Hs & Hps & _).
  rewrite Hh in Hs, Hps. rewrite Hh.
  rewrite !lookup_insert_ne; [done|intros <-; congruence..].
Qed.

(** What [fl_delete_offscreen] leaves of the current surface, the stack
    and the display. *)
Lemma delete_keeps_display (W W' : World) (ctx : Z) :
  registry_inv W → fl_delete_offscreen ctx W = Some (tt, W') →
  (is_device W 1%positive → is_device W' 1%positive) ∧
  ((surface_ W' = surface_ W ∧ surface_stack W' = surface_stack W) ∨
   ∃ drv, heap_ W !! surface_ W = Some (Drv drv) ∧
          surface_stack W = surface_ W' :: surface_stack W').
Proof.
  intros Hinv Hrun.
  destruct (delete_run W ctx Hinv)
    as [Hsame|(i & s & ps & drv & _ & Ho & _ &
               [(_ & _ & Hstuck)|(cur & stk & Hde & Hhit)])].
  - rewrite Hsame in Hrun. injection Hrun as <-. split; [done|by left].
  - by rewrite Hstuck in Hrun.
  - rewrite Hhit in Hrun. injection Hrun as <-.
    destruct Ho as (_ & _ & Hs & Hps).
    unfold with_slot, without_surface. world_simpl. split.
    + unfold is_device. world_simpl. intros Hd.
      rewrite !lookup_delete_ne; [done|congruence..].
    + destruct Hde as [(_ & -> & ->)|(Hcur & Hstk)]; [by left|].
      right. exists drv. by rewrite Hcur.
Qed.

(** Creating and deleting offscreens leaves the display the current
    surface. *)
Lemma reachable_display (W : World) :
  reachable W → surface_ W = 1%positive ∧ surface_stack W = [] ∧
  is_device W 1%positive.
Proof.
  induction 1 as [sc|W W' w h ctx Hreach IH Hrun|W W' ctx Hreach IH Hrun].
  - done.
  - destruct IH as (Hc & Hk & Hd).
    destruct (create_keeps_surface W W' w h ctx (reachable_inv W Hreach) Hrun)
      as (-> & -> & Hh).
    split; [done|]. split; [done|]. unfold is_device. by rewrite Hh.
  - destruct IH as (Hc & Hk & Hd).
    destruct (delete_keeps_display W W' ctx (reachable_inv W Hreach) Hrun)
      as (Hd' & [(-> & ->)|(drv & _ & Hstk)]); [by auto|].
    by rewrite Hk in Hstk.
Qed.

(** C2. In every state reached by creating and deleting offscreens,
    [fl_create_offscreen] returns; it stores the new surface in the lowest
    null slot among the slots in use when there is one, leaving the
    counters alone, and otherwise in a new slot at index
    [count_offscreens], the capacity [max] staying as it is while a slot is
    left and growing by 20 when none is; the capacity is always a multiple
    of 20.  So when every slot in use is taken, deleting the offscreen of
    slot [k] and creating one again stores the new surface in slot [k]
    without using a new slot. *)
Theorem create_reuses_lowest_free_slot (W : World) (w h : Z) :
  reachable W →
  (∃ (ctx : Z) (s : addr) (W' : World),
     fl_create_offscreen w h W = Some (ctx, W') ∧
     heap_ W !! s = None ∧ handle_of W' s = Some ctx ∧
     (∀ k, 0 ≤ k < count_offscreens W →
        offscreen_api_surface W !! Z.to_nat k = Some None →
        (∀ j, 0 ≤ j < k → slot_taken W j) →
        offscreen_api_surface W'
        = <[Z.to_nat k := Some s]> (offscreen_api_surface W) ∧
        count_offscreens W' = count_offscreens W ∧ max W' = max W) ∧
     ((∀ k, 0 ≤ k < count_offscreens W → slot_taken W k) →
        offscreen_api_surface W' !! Z.to_nat (count_offscreens W) = Some (Some s) ∧
        (∀ j, 0 ≤ j < count_offscreens W →
           offscreen_api_surface W' !! Z.to_nat j
           = offscreen_api_surface W !! Z.to_nat j) ∧
        count_offscreens W' = count_offscreens W + 1 ∧
        max W' = (if bool_decide (max W ≤ count_offscreens W)
                  then max W + 20 else max W)) ∧
     Z.of_nat (length (offscreen_api_surface W')) = max W' ∧
     max W `mod` 20 = 0 ∧ max W' `mod` 20 = 0) ∧
  (∀ (k ctxk : Z) (sk : addr),
     (∀ j, 0 ≤ j < count_offscreens W → slot_taken W j) →
     0 ≤ k < count_offscreens W →
     offscreen_api_surface W !! Z.to_nat k = Some (Some sk) →
     handle_of W sk = Some ctxk →
     ∃ (W1 : World) (ctx : Z) (s : addr) (W2 : World),
       fl_delete_offscreen ctxk W = Some (tt, W1) ∧
       offscreen_api_surface W1 !! Z.to_nat k = Some None ∧
       fl_create_offscreen w h W1 = Some (ctx, W2) ∧
       offscreen_api_surface W2
       = <[Z.to_nat k := Some s]> (offscreen_api_surface W) ∧
       count_offscreens W2 = count_offscreens W ∧ max W2 = max W).
Proof.
  intros Hreach. pose proof (reachable_inv W Hreach) as Hinv.
  pose proof (ri_count _ Hinv) as Hc. pose proof (ri_length _ Hinv) as Hl.
  split.
  - destruct (create_run W w h Hinv) as (rank & W1 & Hrun & Hinv' & Hcase).
    eexists (new_handle W1), (new_surface_addr W1), _.
    split; [exact Hrun|].
    assert (heap_ W1 = heap_ W) as Hheap.
    { destruct Hcase as [(_ & _ & _ & ->)|(_ & _ & ->)]; [done|].
      by destruct (appended_slot_fields W Hinv) as (? & _). }
    split.
    { rewrite <- Hheap. apply new_addrs_fresh. }
    split; [apply handle_of_new_surface|].
    split; [|split; [|split; [apply Hinv'|split; [apply Hinv|apply Hinv']]]].
    + intros k Hk Hfree Hlow.
      destruct Hcase as [(Hr & Hlow' & Hfree' & ->)|(Hall & _ & _)].
      * assert (rank = k) as ->.
        { destruct (Z.lt_trichotomy rank k) as [Hlt|[?|Hgt]]; [|done|].
          - destruct (Hlow rank ltac:(lia)) as [s Hs]. congruence.
          - destruct (Hlow' k ltac:(lia)) as [s Hs]. congruence. }
        done.
      * destruct (Hall k Hk) as [s Hs]. congruence.
    + intros Hall.
      destruct Hcase as [(Hr & _ & Hfree & _)|(_ & -> & ->)].
      * destruct (Hall rank Hr) as [s Hs]. congruence.
      * destruct (appended_slot_fields W Hinv)
          as (_ & _ & Hc1 & Hcm1 & Hl1 & _ & Hm1 & Hold1).
        unfold with_slot, with_new_surface. world_simpl.
        split; [apply list_lookup_insert_eq; lia|].
        split; [|done].
        intros j Hj. rewrite list_lookup_insert_ne by lia. by apply Hold1.
  - intros k ctxk sk Hall Hk Hslot Hh.
    destruct (ri_live _ Hinv k sk Hk Hslot)
      as (ps & drv & Ho & Hext & Hoff & Hb).
    pose proof Ho as (_ & _ & Hs & Hps).
    assert (ctxk = offscreen drv) as ->.
    { unfold handle_of in Hh. rewrite Hs in Hh. cbn [platform_surface] in Hh.
      rewrite Hps in Hh. congruence. }
    assert (∀ j, 0 ≤ j < k → slot_misses W (offscreen drv) j) as Hmiss.
    { intros j Hj. destruct (Hall j ltac:(lia)) as [s' Hs'].
      destruct (ri_live _ Hinv j s' ltac:(lia) Hs')
        as (ps' & drv' & Ho' & _).
      pose proof Ho' as (_ & _ & Hs2 & Hps2).
      exists (Some s'). split; [done|]. exists (offscreen drv'). split.
      - unfold handle_of. rewrite Hs2. cbn [platform_surface]. by rewrite Hps2.
      - intros E. assert (j = k) by (by eapply (ri_inj _ Hinv); eauto). lia. }
    set (W1 := with_slot k None (without_surface sk ps drv W)).
    assert (fl_delete_offscreen (offscreen drv) W = Some (tt, W1)) as Hdel.
    { destruct (reachable_display W Hreach) as (Hcur & _ & Hdev).
      apply delete_run_hit; try done.
      rewrite Hcur. unfold is_device in Hdev. congruence. }
    assert (registry_inv W1) as Hinv1 by (by apply inv_without_surface).
    assert (offscreen_api_surface W1
            = <[Z.to_nat k := None]> (offscreen_api_surface W)) as Harr1
      by reflexivity.
    assert (offscreen_api_surface W1 !! Z.to_nat k = Some None) as Hfree1.
    { rewrite Harr1. apply list_lookup_insert_eq.
      by apply lookup_lt_Some in Hslot. }
    destruct (create_run W1 w h Hinv1) as (rank & W1' & Hrun & _ & Hcase).
    eexists W1, (new_handle W1'), (new_surface_addr W1'), _.
    split; [exact Hdel|]. split; [exact Hfree1|]. split; [exact Hrun|].
    destruct Hcase as [(Hr & Hlow & Hfree & ->)|(Hall1 & _ & _)].
    + assert (rank = k) as ->.
      { destruct (decide (rank = k)) as [|Hne]; [done|]. exfalso.
        rewrite Harr1, list_lookup_insert_ne in Hfree by lia.
        destruct (Hall rank Hr) as [s' Hs']. congruence. }
      unfold with_slot, with_new_surface. world_simpl.
      rewrite Harr1. by rewrite list_insert_insert_eq.
    + exfalso. destruct (Hall1 k Hk) as [s' Hs']. congruence.
Qed.

(** *** [image] and [rescale] *)

Lemma image_addrs_fresh (W : World) (pm : pixmap) :
  heap_ W !! image_bits_addr W = None ∧
  heap_ W !! image_addr W pm = None ∧
  image_bits_addr W ≠ image_addr W pm.
Proof.
  assert (heap_ W !! image_bits_addr W = None) as Hb by apply fresh_lookup.
  pose proof (fresh_lookup (<[image_bits_addr W := Bytes (pm_bytes pm)]> (heap_ W)))
    as Hi.
  fold (image_addr W pm) in Hi.
  apply lookup_insert_None in Hi as [Hi Hne]. done.
Qed.

Lemma driver_image_run (W : World) (ps : addr) (drv : Fl_Image_Surface_Driver)
    (pm : pixmap) :
  heap_ W !! ps = Some (Drv drv) → buffers W !! offscreen drv = Some pm →
  driver_image ps W
  = Some (image_addr W pm,
          with_heap (<[image_addr W pm :=
                         Rgb (mkRGB (image_bits_addr W, 0) true (pm_w pm) (pm_h pm)
                                    3 0 (pm_w pm) (pm_h pm))]>
                       (<[image_bits_addr W := Bytes (pm_bytes pm)]> (heap_ W))) W).
Proof.
  intros Hps Hpm. unfold driver_image, new_Fl_RGB_Image, load_img, store_img.
  unfold_monad. rewrite Hps. world_simpl. rewrite Hpm. world_simpl.
  fold (image_bits_addr W). fold (image_addr W pm).
  rewrite !lookup_insert_eq. world_simpl. rewrite lookup_insert_eq.
  unfold set_alloc_array, with_heap. world_simpl. cbn.
  by rewrite insert_insert_eq.
Qed.

Lemma image_run (W : World) (s ps : addr) (drv : Fl_Image_Surface_Driver)
    (pm : pixmap) :
  surface_at W s ps drv pm →
  image s W = Some (image_addr W pm, with_image drv pm W).
Proof.
  intros (Hs & Hps & Hpm).
  destruct (image_addrs_fresh W pm) as (Hb & Hi & Hbi).
  assert (ps ≠ image_bits_addr W) as Hpb by congruence.
  assert (ps ≠ image_addr W pm) as Hpi by congruence.
  unfold image, image_with.
  rewrite (bind_some _ _ _ _ _ (load_surface_run _ _ _ Hs)).
  erewrite bind_some by reflexivity. cbn [platform_surface].
  erewrite bind_some by reflexivity.
  case_bool_decide as Hcur; cbn [when_].
  - (* not current: pushed, read, popped *)
    erewrite bind_some; last first.
    { unfold push_current, set_current, driver_set_current. unfold_monad.
      world_simpl. rewrite Hps. reflexivity. }
    erewrite bind_some; last first.
    { apply (driver_image_run _ ps drv pm); world_simpl; done. }
    world_simpl.
    erewrite bind_some by reflexivity.
    erewrite bind_some; last first.
    { apply (load_driver_run _ ps drv). world_simpl.
      by rewrite !lookup_insert_ne by done. }
    unfold Fl_Image_scale, load_img, store_img. unfold_monad. world_simpl.
    rewrite !lookup_insert_eq. world_simpl. rewrite lookup_insert_eq.
    unfold with_image, extracted, set_size, with_heap, with_surface. cbn.
    rewrite insert_insert_eq. by destruct W.
  - (* current already *)
    erewrite bind_some by reflexivity.
    erewrite bind_some by (by apply (driver_image_run _ ps drv pm)).
    erewrite bind_some by reflexivity.
    erewrite bind_some; last first.
    { apply (load_driver_run _ ps drv). world_simpl.
      by rewrite !lookup_insert_ne by done. }
    unfold Fl_Image_scale, load_img, store_img. unfold_monad. world_simpl.
    rewrite !lookup_insert_eq. world_simpl. rewrite lookup_insert_eq.
    unfold with_image, extracted, set_size, with_heap. cbn.
    by rewrite insert_insert_eq.
Qed.

(** Whatever the driver's [image()] does, [image()] runs it on a surface
    that is not the current one in the state [push_current] leaves, and
    pops the stack on the state it returns; on the current surface it runs
    it as it is. *)
Lemma image_with_pushes (read : addr → M World addr) (W : World) (s ps : addr)
    (drv : Fl_Image_Surface_Driver) :
  heap_ W !! s = Some (Surf (mkSurface (Some ps))) →
  heap_ W !! ps = Some (Drv drv) →
  surface_ W ≠ ps →
  push_current ps W
  = Some (tt, with_surface ps (surface_ W :: surface_stack W) W) ∧
  image_with read s W
  = (img ← read ps; pop_current;; d ← load_driver ps;
     Fl_Image_scale img (width d) (height d) 1 1;; mret img)
      (with_surface ps (surface_ W :: surface_stack W) W).
Proof.
  intros Hs Hps Hcur.
  assert (push_current ps W
          = Some (tt, with_surface ps (surface_ W :: surface_stack W) W)) as Hpush.
  { unfold push_current, set_current, driver_set_current. unfold_monad.
    world_simpl. rewrite Hps. reflexivity. }
  split; [exact Hpush|].
  unfold image_with.
  rewrite (bind_some _ _ _ _ _ (load_surface_run _ _ _ Hs)).
  erewrite bind_some by reflexivity. cbn [platform_surface].
  erewrite bind_some by reflexivity.
  rewrite bool_decide_eq_true_2 by congruence. cbn [when_].
  by rewrite (bind_some _ _ _ _ _ Hpush).
Qed.

Lemma image_with_current (read : addr → M World addr) (W : World) (s ps : addr) :
  heap_ W !! s = Some (Surf (mkSurface (Some ps))) →
  surface_ W = ps →
  image_with read s W
  = (img ← read ps; d ← load_driver ps;
     Fl_Image_scale img (width d) (height d) 1 1;; mret img) W.
Proof.
  intros Hs Hcur.
  unfold image_with.
  rewrite (bind_some _ _ _ _ _ (load_surface_run _ _ _ Hs)).
  erewrite bind_some by reflexivity. cbn [platform_surface].
  erewrite bind_some by reflexivity.
  rewrite bool_decide_eq_false_2 by (intros Hne; apply Hne; congruence).
  cbn [when_]. erewrite bind_some by reflexivity.
  unfold mbind, M_bind.
  destruct (read ps W) as [[img Wb]|]; reflexivity.
Qed.

Section rescale_run.
Context (paint : Fl_RGB_Image → list Z → Z → Z → pixmap → list Z).
Context (W : World) (s ps : addr) (drv : Fl_Image_Surface_Driver) (pm : pixmap).
Context (Hat : surface_at W s ps drv pm).
Context (Hown : external_offscreen drv = false) (Hoff : offscreen drv ≠ 0).

Let bits := image_bits_addr W.
Let img := image_addr W pm.
Let W1 := with_image drv pm W.
Let W2 := with_driver_deleted ps drv pm W.
Let ps' := rescaled_driver_addr ps drv pm W.
Let handle' := rescaled_handle ps drv pm W.

Lemma rescale_addrs :
  s ≠ ps ∧ s ≠ bits ∧ s ≠ img ∧ ps ≠ bits ∧ ps ≠ img ∧ bits ≠ img ∧
  ps' ≠ s ∧ ps' ≠ bits ∧ ps' ≠ img ∧ heap_ W2 !! ps' = None.
Proof.
  destruct Hat as (Hs & Hps & Hpm).
  destruct (image_addrs_fresh W pm) as (Hb & Hi & Hbi).
  fold bits in Hb, Hbi. fold img in Hi, Hbi.
  assert (s ≠ ps) by congruence. assert (s ≠ bits) by congruence.
  assert (s ≠ img) by congruence. assert (ps ≠ bits) by congruence.
  assert (ps ≠ img) by congruence.
  assert (heap_ W2 !! ps' = None) as Hf by apply fresh_lookup.
  assert (∀ a o, a ≠ ps → heap_ W1 !! a = Some o → ps' ≠ a) as Hlive.
  { intros a o Ha Hl ->. subst W2. unfold with_driver_deleted in Hf.
    cbn [heap_ with_heap] in Hf. fold W1 in Hf.
    rewrite lookup_delete_ne in Hf by done. congruence. }
  assert (heap_ W1 = <[img := Rgb (extracted W drv pm)]>
                       (<[bits := Bytes (pm_bytes pm)]> (heap_ W))) as Hh1
    by reflexivity.
  repeat split; try done.
  - eapply (Hlive s); [done|]. rewrite Hh1. by rewrite !lookup_insert_ne.
  - eapply (Hlive bits); [done|]. rewrite Hh1.
    rewrite lookup_insert_ne by done. apply lookup_insert_eq.
  - eapply (Hlive img); [done|]. rewrite Hh1. apply lookup_insert_eq.
Qed.

Lemma delete_driver_run :
  delete_driver ps W1 = Some (tt, W2).
Proof.
  destruct Hat as (Hs & Hps & Hpm).
  destruct rescale_addrs as (? & ? & ? & ? & ? & ? & _).
  assert (heap_ W1 !! ps = Some (Drv drv)) as Hps1.
  { subst W1. unfold with_image. world_simpl.
    by rewrite !lookup_insert_ne by done. }
  unfold delete_driver.
  rewrite (bind_some _ _ _ _ _ (load_driver_run _ _ _ Hps1)).
  erewrite bind_some by reflexivity.
  rewrite Hown. cbn [negb andb]. rewrite bool_decide_eq_true_2 by done.
  cbn [when_]. erewrite bind_some by reflexivity.
  unfold_monad. world_simpl. rewrite Hps1. reflexivity.
Qed.

Lemma new_driver_run :
  newImageSurfaceDriver (width drv) (height drv) 1 0 W2
  = Some (ps',
          with_heap (<[ps' := Drv (mkDriver None (width drv) (height drv)
                                            handle' false)]> (heap_ W2))
            (with_buffers
               (<[handle' := new_pixmap W (width drv) (height drv)]> (buffers W2))
               W2)).
Proof.
  unfold newImageSurfaceDriver. rewrite decide_False by lia.
  unfold_monad. world_simpl. rewrite !decide_True by lia. reflexivity.
Qed.

Lemma rescale_run :
  surface_ W ≠ ps →
  rescale paint s W = Some (tt, rescaled paint s ps drv pm W).
Proof.
  intros Hcur. pose proof Hat as (Hs & Hps & Hpm).
  destruct rescale_addrs
    as (Hsp & Hsb & Hsi & Hpb & Hpi & Hbi & Hps's & Hps'b & Hps'i & Hfresh).
  assert (heap_ W1 = <[img := Rgb (extracted W drv pm)]>
                       (<[bits := Bytes (pm_bytes pm)]> (heap_ W))) as H1
    by reflexivity.
  assert (heap_ W1 !! s = Some (Surf (mkSurface (Some ps)))) as Hs1.
  { rewrite H1. by rewrite !lookup_insert_ne by done. }
  assert (heap_ W1 !! ps = Some (Drv drv)) as Hps1.
  { rewrite H1. by rewrite !lookup_insert_ne by done. }
  assert (heap_ W2 = delete ps (heap_ W1)) as H2 by reflexivity.
  unfold rescale.
  rewrite (bind_some _ _ _ _ _ (image_run W s ps drv pm Hat)).
  fold img W1.
  erewrite bind_some; last first.
  { unfold printable_rect, driver_printable_rect.
    rewrite (bind_some _ _ _ _ _ (load_surface_run _ _ _ Hs1)).
    cbn [platform_surface]. erewrite bind_some by reflexivity.
    rewrite (bind_some _ _ _ _ _ (load_driver_run _ _ _ Hps1)). reflexivity. }
  cbv beta iota.
  rewrite (bind_some _ _ _ _ _ (load_surface_run _ _ _ Hs1)).
  cbn [platform_surface]. erewrite bind_some by reflexivity.
  rewrite (bind_some _ _ _ _ _ delete_driver_run).
  rewrite (bind_some _ _ _ _ _ new_driver_run).
  set (W3 := with_heap _ (with_buffers _ W2)).
  assert (heap_ W3 = <[ps' := Drv (mkDriver None (width drv) (height drv)
                                            handle' false)]> (heap_ W2)) as H3
    by reflexivity.
  assert (heap_ W3 !! s = Some (Surf (mkSurface (Some ps)))) as Hs3.
  { rewrite H3, H2. rewrite lookup_insert_ne by done.
    by rewrite lookup_delete_ne by done. }
  erewrite bind_some; last first.
  { unfold store_surface. rewrite Hs3. reflexivity. }
  set (W4 := with_heap _ W3).
  assert (heap_ W4 = <[s := Surf (mkSurface (Some ps'))]> (heap_ W3)) as H4
    by reflexivity.
  assert (heap_ W4 !! s = Some (Surf (mkSurface (Some ps')))) as Hs4.
  { rewrite H4. apply lookup_insert_eq. }
  set (W5 := with_surface ps' (surface_ W :: surface_stack W) W4).
  assert (push_current s W4 = Some (tt, W5)) as Hpush.
  { unfold push_current, set_current, Fl_Image_Surface_set_current,
      driver_set_current.
    unfold_monad. world_simpl. run_with Hs4 Hs4. reflexivity. }
  rewrite (bind_some _ _ _ _ _ Hpush).
  assert (heap_ W5 = heap_ W4) as H5 by reflexivity.
  assert (heap_ W5 !! img = Some (Rgb (extracted W drv pm))) as Himg5.
  { rewrite H5, H4, H3, H2, H1.
    rewrite !lookup_insert_ne by done. rewrite lookup_delete_ne by done.
    apply lookup_insert_eq. }
  assert (heap_ W5 !! bits = Some (Bytes (pm_bytes pm))) as Hbits5.
  { rewrite H5, H4, H3, H2, H1.
    rewrite !lookup_insert_ne by done. rewrite lookup_delete_ne by done.
    rewrite lookup_insert_ne by done. apply lookup_insert_eq. }
  assert (heap_ W5 !! ps' = Some (Drv (mkDriver None (width drv) (height drv)
                                                handle' false))) as Hps'5.
  { rewrite H5, H4, H3. rewrite lookup_insert_ne by done.
    apply lookup_insert_eq. }
  set (W6 := with_buffers
               (<[handle' := rescaled_pixmap paint drv pm W]> (buffers W5)) W5).
  assert (Fl_RGB_Image_draw paint img 0 0 W5 = Some (tt, W6)) as Hdraw.
  { unfold Fl_RGB_Image_draw.
    erewrite bind_some; last first.
    { apply in_heap_run. unfold load_img. rewrite Himg5. reflexivity. }
    rewrite with_heap_id.
    erewrite bind_some; last first.
    { apply in_heap_run. unfold extracted. cbn [array].
      apply load_pixels_block. exact Hbits5. }
    rewrite with_heap_id.
    erewrite bind_some by reflexivity.
    replace (surface_ W5) with ps' by reflexivity.
    rewrite Hps'5. cbn [offscreen].
    replace (buffers W5 !! handle')
      with (Some (new_pixmap W (width drv) (height drv))).
    2:{ symmetry. apply lookup_insert_eq. }
    reflexivity. }
  rewrite (bind_some _ _ _ _ _ Hdraw).
  set (W7 := with_surface (surface_ W) (surface_stack W) W6).
  assert (pop_current W6 = Some (tt, W7)) as Hpop by reflexivity.
  rewrite (bind_some _ _ _ _ _ Hpop).
  assert (heap_ W7 = heap_ W4) as H7 by reflexivity.
  erewrite in_heap_run; last first.
  { apply (delete_owning_image _ _ (extracted W drv pm) bits 0);
      [by rewrite H7, <- H5|done|done|rewrite H7, <- H5; by eexists|done]. }
  do 2 f_equal. apply world_eq; try reflexivity.
  unfold rescaled. cbv zeta. fold W2 ps' handle'.
  change (<[handle' := rescaled_pixmap paint drv pm W]>
            (<[handle' := new_pixmap W (width drv) (height drv)]> (buffers W2))
          = <[handle' := rescaled_pixmap paint drv pm W]> (buffers W2)).
  by rewrite insert_insert_eq.
Qed.
End rescale_run.

Lemma with_image_frame (W : World) (drv : Fl_Image_Surface_Driver) (pm : pixmap)
    (a : addr) :
  is_Some (heap_ W !! a) → heap_ (with_image drv pm W) !! a = heap_ W !! a.
Proof.
  intros [o Ha]. destruct (image_addrs_fresh W pm) as (Hb & Hi & _).
  unfold with_image. world_simpl.
  rewrite !lookup_insert_ne; [done|intros <-; congruence..].
Qed.

(** C3, as the code has it.  Whatever the platform's implementation of
    the driver's [image()] is, [image()] calls it on a surface that is not
    the current one in the state [push_current] leaves, in which the driver
    is the current surface and the surface that was current is on top of the
    stack, and pops the stack on the state the call returns, before it
    scales the image; on the current surface it calls it without a push.
    With the driver's [image()] of this model, [image()] on a surface with
    a live driver and buffer returns, the current surface and the stack
    being as before the call.  The image returned and its pixel array are
    new objects, the image owning the array, which holds the bytes of the
    buffer; no other object and no buffer changes.  The pixel size of the
    image is the pixel size of the buffer; the size it reports is the
    [width] and [height] the driver records, which are what
    [printable_rect] reports. *)
Theorem image_restores_and_reports_driver_size (W : World) (s ps : addr)
    (drv : Fl_Image_Surface_Driver) (pm : pixmap) :
  surface_at W s ps drv pm →
  (∀ read : addr → M World addr,
     (surface_ W ≠ ps →
      ∃ Wa,
        push_current ps W = Some (tt, Wa) ∧ surface_ Wa = ps ∧
        surface_stack Wa = surface_ W :: surface_stack W ∧
        image_with read s W
        = (img ← read ps; pop_current;; d ← load_driver ps;
           Fl_Image_scale img (width d) (height d) 1 1;; mret img) Wa) ∧
     (surface_ W = ps →
      image_with read s W
      = (img ← read ps; d ← load_driver ps;
         Fl_Image_scale img (width d) (height d) 1 1;; mret img) W)) ∧
  ∃ (img : addr) (W' : World) (hdr : Fl_RGB_Image),
    image s W = Some (img, W') ∧
    surface_ W' = surface_ W ∧ surface_stack W' = surface_stack W ∧
    (surface_ W ≠ ps →
     ∃ Wa Wb Wc,
       push_current ps W = Some (tt, Wa) ∧ surface_ Wa = ps ∧
       driver_image ps Wa = Some (img, Wb) ∧ surface_ Wb = ps ∧
       pop_current Wb = Some (tt, Wc) ∧ surface_ Wc = surface_ W ∧
       surface_stack Wc = surface_stack W ∧
       Fl_Image_scale img (width drv) (height drv) 1 1 Wc = Some (tt, W')) ∧
    heap_ W !! img = None ∧ heap_ W' !! img = Some (Rgb hdr) ∧
    alloc_array hdr = true ∧
    heap_ W !! (array hdr).1 = None ∧
    heap_ W' !! (array hdr).1 = Some (Bytes (pm_bytes pm)) ∧
    (∀ a, is_Some (heap_ W !! a) → heap_ W' !! a = heap_ W !! a) ∧
    buffers W' = buffers W ∧
    data_w hdr = pm_w pm ∧ data_h hdr = pm_h pm ∧
    w_ hdr = width drv ∧ h_ hdr = height drv ∧
    driver_printable_rect ps W = Some ((w_ hdr, h_ hdr), W).
Proof.
  intros Hat. pose proof Hat as (Hs & Hps & Hpm).
  destruct (image_addrs_fresh W pm) as (Hb & Hi & Hbi).
  split.
  { intros read. split.
    - intros Hcur.
      destruct (image_with_pushes read W s ps drv Hs Hps Hcur) as [Hpush Hrun].
      eexists. split; [exact Hpush|]. split; [done|]. split; [done|exact Hrun].
    - intros Hcur. by apply image_with_current. }
  exists (image_addr W pm), (with_image drv pm W), (extracted W drv pm).
  split; [by apply (image_run W s ps)|]. split; [done|]. split; [done|]. split.
  { intros Hcur.
    eexists (with_surface ps (surface_ W :: surface_stack W) W), _, _.
    split.
    { unfold push_current, set_current, driver_set_current. unfold_monad.
      world_simpl. by rewrite Hps. }
    split; [done|]. split.
    { exact (driver_image_run
               (with_surface ps (surface_ W :: surface_stack W) W) ps drv pm
               Hps Hpm). }
    split; [done|]. split; [reflexivity|]. split; [done|]. split; [done|].
    unfold Fl_Image_scale, load_img, store_img. unfold_monad. world_simpl.
    rewrite !lookup_insert_eq. world_simpl. rewrite lookup_insert_eq.
    unfold with_image, extracted, set_size, with_heap, with_surface. cbn.
    rewrite insert_insert_eq. by destruct W. }
  split; [done|]. split.
  { unfold with_image. world_simpl. apply lookup_insert_eq. }
  split; [done|]. split; [done|]. split.
  { unfold with_image, extracted. world_simpl. cbn [array fst].
    rewrite lookup_insert_ne by done. apply lookup_insert_eq. }
  split; [intros a; apply with_image_frame|].
  split; [done|]. split; [done|]. split; [done|]. split; [done|].
  split; [done|].
  unfold driver_printable_rect.
  by rewrite (bind_some _ _ _ _ _ (load_driver_run _ _ _ Hps)).
Qed.

Lemma hires_world_surface :
  surface_at hires_world 2%positive 3%positive
    (mkDriver (Some 2%positive) 2 1 1 false)
    (mkPixmap 4 2 (replicate 24 0)).
Proof. split; [|split]; reflexivity. Defined.

Lemma image_restores_and_reports_driver_size_witness :
  (∃ Wa, push_current 3%positive hires_world = Some (tt, Wa) ∧
         surface_ Wa = 3%positive ∧
         image_with driver_image 2%positive hires_world
         = (img ← driver_image 3%positive; pop_current;;
            d ← load_driver 3%positive;
            Fl_Image_scale img (width d) (height d) 1 1;; mret img) Wa) ∧
  ∃ img W' hdr,
    image 2%positive hires_world = Some (img, W') ∧
    surface_ W' = surface_ hires_world ∧
    heap_ W' !! img = Some (Rgb hdr) ∧ w_ hdr = 2 ∧ h_ hdr = 1.
Proof.
  destruct (image_restores_and_reports_driver_size _ _ _ _ _ hires_world_surface)
    as (Hread & img & W' & hdr & H1 & H2 & _ & _ & _ & H3 & _ & _ & _ & _ & _ & _ & _
        & H4 & H5 & _).
  split.
  - destruct (Hread driver_image) as [Hpush _].
    destruct Hpush as (Wa & Ha & Hb & _ & Hc).
    { vm_compute. discriminate. }
    exists Wa. split; [exact Ha|]. split; [exact Hb|exact Hc].
  - exists img, W', hdr.
    split; [exact H1|]. split; [exact H2|]. split; [exact H3|].
    split; [exact H4|exact H5].
Defined.

(** C3 as stated fails: on a high-resolution surface of 2 x 1 units at
    scale factor 2 the buffer has 4 x 2 pixels, and the image [image()]
    returns has 4 x 2 pixels but reports the size 2 x 1. *)
Lemma image_reports_pixel_size_counterexample :
  ∃ img W' hdr pm,
    buffers hires_world !! 1 = Some pm ∧
    image 2%positive hires_world = Some (img, W') ∧
    heap_ W' !! img = Some (Rgb hdr) ∧
    (pm_w pm, pm_h pm) = (4, 2) ∧
    (data_w hdr, data_h hdr) = (4, 2) ∧
    (w_ hdr, h_ hdr) = (2, 1) ∧
    (w_ hdr, h_ hdr) ≠ (pm_w pm, pm_h pm).
Proof.
  pose (r := image 2%positive hires_world).
  assert (image 2%positive hires_world = r) as Hr by reflexivity.
  vm_compute in r. subst r.
  eexists _, _, _, (mkPixmap 4 2 (replicate 24 0)).
  split; [reflexivity|]. split; [exact Hr|]. split; [reflexivity|].
  split; [reflexivity|]. split; [reflexivity|]. split; [reflexivity|].
  cbn. congruence.
Qed.

(** The surface, its new driver and its new buffer after [rescale()]. *)
Lemma rescaled_surface (paint : Fl_RGB_Image → list Z → Z → Z → pixmap → list Z)
    (W : World) (s ps : addr) (drv : Fl_Image_Surface_Driver) (pm : pixmap) :
  surface_at W s ps drv pm →
  surface_at (rescaled paint s ps drv pm W) s (rescaled_driver_addr ps drv pm W)
    (mkDriver None (width drv) (height drv) (rescaled_handle ps drv pm W) false)
    (rescaled_pixmap paint drv pm W) ∧
  rescaled_handle ps drv pm W ≠ 0 ∧
  heap_ (rescaled paint s ps drv pm W) !! image_addr W pm = None.
Proof.
  intros Hat.
  destruct (rescale_addrs W s ps drv pm Hat)
    as (Hsp & Hsb & Hsi & Hpb & Hpi & Hbi & Hps's & Hps'b & Hps'i & Hfresh).
  split; [split; [|split]|split].
  - unfold rescaled. world_simpl.
    rewrite !lookup_delete_ne by done. apply lookup_insert_eq.
  - unfold rescaled. world_simpl.
    rewrite !lookup_delete_ne by done. rewrite lookup_insert_ne by done.
    apply lookup_insert_eq.
  - unfold rescaled. world_simpl. apply lookup_insert_eq.
  - apply new_handle_fresh.
  - unfold rescaled. world_simpl. apply lookup_delete_eq.
Qed.

(** C4, as the code has it.  On a surface that owns its buffer and is not
    the current one, [rescale()] returns.  The content is captured by
    [image()] while the old buffer is live; the old driver and buffer are
    destroyed; the new driver records the same [width] and [height], the
    logical size; the new buffer has the pixel size of that logical size at
    the current scale factor and holds the captured image drawn at (0, 0);
    the captured image is released and the current surface and stack are as
    before.  A following [image()] returns an image whose pixel size is the
    new pixel size and whose reported size is the unchanged logical size. *)
Theorem rescale_keeps_logical_size
    (paint : Fl_RGB_Image → list Z → Z → Z → pixmap → list Z)
    (W : World) (s ps : addr) (drv : Fl_Image_Surface_Driver) (pm : pixmap) :
  surface_at W s ps drv pm →
  external_offscreen drv = false → offscreen drv ≠ 0 →
  surface_ W ≠ ps →
  ∃ (W' : World) (ps' : addr) (drv' : Fl_Image_Surface_Driver) (pm' : pixmap)
    (rgb : addr) (W1 : World) (hdr : Fl_RGB_Image),
    rescale paint s W = Some (tt, W') ∧
    image s W = Some (rgb, W1) ∧ heap_ W1 !! rgb = Some (Rgb hdr) ∧
    heap_ W1 !! (array hdr).1 = Some (Bytes (pm_bytes pm)) ∧
    buffers W1 !! offscreen drv = Some pm ∧
    surface_at W' s ps' drv' pm' ∧
    width drv' = width drv ∧ height drv' = height drv ∧
    external_offscreen drv' = false ∧ offscreen drv' ≠ 0 ∧
    pm_w pm' = physical (scale_ W) (width drv) ∧
    pm_h pm' = physical (scale_ W) (height drv) ∧
    pm_bytes pm' = paint hdr (pm_bytes pm) 0 0
                     (new_pixmap W (width drv) (height drv)) ∧
    buffers W' = <[offscreen drv' := pm']> (delete (offscreen drv) (buffers W)) ∧
    heap_ W' !! rgb = None ∧
    surface_ W' = surface_ W ∧ surface_stack W' = surface_stack W ∧
    ∃ (img2 : addr) (W2 : World) (hdr2 : Fl_RGB_Image),
      image s W' = Some (img2, W2) ∧ heap_ W2 !! img2 = Some (Rgb hdr2) ∧
      data_w hdr2 = physical (scale_ W) (width drv) ∧
      data_h hdr2 = physical (scale_ W) (height drv) ∧
      w_ hdr2 = width drv ∧ h_ hdr2 = height drv.
Proof.
  intros Hat Hown Hoff Hcur. pose proof Hat as (Hs & Hps & Hpm).
  destruct (rescaled_surface paint W s ps drv pm Hat) as (Hat' & Hh' & Hrgb).
  destruct (image_addrs_fresh W pm) as (Hb & Hi & Hbi).
  eexists (rescaled paint s ps drv pm W), _, _, _,
    (image_addr W pm), (with_image drv pm W), (extracted W drv pm).
  split; [by apply rescale_run|].
  split; [by apply (image_run W s ps)|]. split.
  { unfold with_image. world_simpl. apply lookup_insert_eq. }
  split.
  { unfold with_image, extracted. world_simpl. cbn [array fst].
    rewrite lookup_insert_ne by done. apply lookup_insert_eq. }
  split; [done|]. split; [exact Hat'|].
  do 4 (split; [done|]). do 3 (split; [reflexivity|]).
  split; [reflexivity|]. split; [exact Hrgb|]. split; [done|]. split; [done|].
  eexists (image_addr _ _), (with_image _ _ _), (extracted _ _ _).
  split; [apply (image_run _ _ _ _ _ Hat')|]. split.
  { unfold with_image. world_simpl. apply lookup_insert_eq. }
  done.
Qed.

Lemma zoomed_world_surface :
  surface_at zoomed_world 2%positive 3%positive
    (mkDriver (Some 2%positive) 2 1 1 false)
    (mkPixmap 2 1 (replicate 6 0)).
Proof. split; [|split]; reflexivity. Defined.

Lemma rescale_keeps_logical_size_witness :
  ∃ W' ps' drv' pm',
    rescale stretch 2%positive zoomed_world = Some (tt, W') ∧
    surface_at W' 2%positive ps' drv' pm' ∧
    width drv' = 2 ∧ height drv' = 1 ∧ pm_w pm' = 4 ∧ pm_h pm' = 2.
Proof.
  destruct (rescale_keeps_logical_size stretch _ _ _ _ _ zoomed_world_surface
              eq_refl ltac:(done) ltac:(done))
    as (W' & ps' & drv' & pm' & rgb & W1 & hdr & H1 & _ & _ & _ & _ & H2 & H3 & H4
        & _ & _ & H5 & H6 & _).
  exists W', ps', drv', pm'.
  split; [exact H1|]. split; [exact H2|]. split; [exact H3|].
  split; [exact H4|]. split; [exact H5|exact H6].
Defined.

(** C4 as stated fails in its last part: a surface of 2 x 1 units created
    at scale factor 1 and rescaled at scale factor 2 has a buffer of 4 x 2
    pixels, and the image a following [image()] returns reports the size
    2 x 1, not the new pixel size. *)
Lemma rescale_image_reports_pixel_size_counterexample :
  ∃ W' img W2 hdr pm',
    rescale stretch 2%positive zoomed_world = Some (tt, W') ∧
    buffers W' !! 1 = Some pm' ∧ (pm_w pm', pm_h pm') = (4, 2) ∧
    image 2%positive W' = Some (img, W2) ∧
    heap_ W2 !! img = Some (Rgb hdr) ∧
    (w_ hdr, h_ hdr) = (2, 1) ∧
    (w_ hdr, h_ hdr) ≠ (pm_w pm', pm_h pm').
Proof.
  pose (r := rescale stretch 2%positive zoomed_world).
  assert (rescale stretch 2%positive zoomed_world = r) as Hr by reflexivity.
  vm_compute in r. subst r.
  eexists _, _, _, _, (mkPixmap 4 2 (replicate 24 0)).
  split; [exact Hr|]. split; [reflexivity|]. split; [reflexivity|].
  match goal with |- image _ ?W = _ ∧ _ =>
    pose (r := image 2%positive W);
    assert (image 2%positive W = r) as Hi by reflexivity
  end.
  vm_compute in r. subst r.
  split; [exact Hi|]. split; [reflexivity|]. split; [reflexivity|].
  cbn. congruence.
Qed.

(** C9.  In a state that satisfies the registry invariant,
    [fl_rescale_offscreen] given a handle that no slot in use holds returns
    the handle as it was, the state unchanged.  Given the handle of the
    surface of a slot, the surface not being the current one, it returns,
    and the state is the one [rescale()] of that surface leaves: the
    surface is served by a new driver that records the logical size of the
    old one and owns a new buffer, which has the pixel size of that logical
    size at the current scale factor and holds the content of the old
    buffer drawn at (0, 0); the old buffer is gone, no other buffer changes,
    and the current surface, the stack and the registry are as before.  The
    value written back through the reference is the handle of that new
    buffer, which is what [offscreen()] of the surface returns then; it is
    not null, and the old handle names no buffer unless it was given out
    again. *)
Theorem rescale_offscreen_writes_back
    (paint : Fl_RGB_Image → list Z → Z → Z → pixmap → list Z)
    (W : World) (ctx : Z) :
  registry_inv W →
  ((∀ k, 0 ≤ k < count_offscreens W → slot_misses W ctx k) →
   fl_rescale_offscreen paint ctx W = Some (ctx, W)) ∧
  (∀ i s ps drv,
     slot_owner W i s ps drv → offscreen drv = ctx → surface_ W ≠ ps →
     ∃ (ctx' : Z) (W' : World) (pm : pixmap) (ps' : addr)
       (drv' : Fl_Image_Surface_Driver) (pm' : pixmap),
       fl_rescale_offscreen paint ctx W = Some (ctx', W') ∧
       rescale paint s W = Some (tt, W') ∧
       buffers W !! ctx = Some pm ∧
       surface_at W' s ps' drv' pm' ∧ offscreen drv' = ctx' ∧
       width drv' = width drv ∧ height drv' = height drv ∧
       pm_w pm' = physical (scale_ W) (width drv) ∧
       pm_h pm' = physical (scale_ W) (height drv) ∧
       pm_bytes pm' = paint (extracted W drv pm) (pm_bytes pm) 0 0
                        (new_pixmap W (width drv) (height drv)) ∧
       buffers W' = <[ctx' := pm']> (delete ctx (buffers W)) ∧
       surface_ W' = surface_ W ∧ surface_stack W' = surface_stack W ∧
       Fl_Image_Surface_offscreen s W' = Some (ctx', W') ∧
       ctx' ≠ 0 ∧ is_Some (buffers W' !! ctx') ∧
       (ctx' ≠ ctx → buffers W' !! ctx = None) ∧
       offscreen_api_surface W' = offscreen_api_surface W ∧
       count_offscreens W' = count_offscreens W ∧ max W' = max W).
Proof.
  intros Hinv. split.
  - intros Hmiss. unfold fl_rescale_offscreen.
    erewrite bind_some by reflexivity.
    erewrite bind_some; last first.
    { apply find_offscreen_miss; [lia|]. intros k Hk. apply Hmiss. lia. }
    reflexivity.
  - intros i s ps drv Ho Hctx Hcur. pose proof Ho as (Hi & Hslot & Hs & Hps).
    destruct (ri_live _ Hinv i s Hi Hslot)
      as (ps0 & drv0 & Ho0 & Hext & Hoff & [pm Hpm]).
    destruct (slot_owner_fun _ _ _ _ _ _ _ Ho0 Hs Hps) as [-> ->].
    assert (surface_at W s ps drv pm) as Hat by done.
    assert (handle_of W s = Some ctx) as Hh.
    { unfold handle_of. rewrite Hs. cbn [platform_surface]. rewrite Hps.
      by rewrite Hctx. }
    assert (∀ k, 0 ≤ k < i → slot_misses W ctx k) as Hmiss.
    { intros k Hk.
      destruct (lookup_lt_is_Some_2 (offscreen_api_surface W) (Z.to_nat k))
        as [c Hc].
      { pose proof (ri_count _ Hinv). pose proof (ri_length _ Hinv). lia. }
      destruct c as [s'|]; [|by exists None].
      destruct (ri_live _ Hinv k s' ltac:(lia) Hc) as (ps' & drv' & Ho' & _).
      pose proof Ho' as (_ & _ & Hs' & Hps').
      exists (Some s'). split; [done|]. exists (offscreen drv'). split.
      - unfold handle_of. rewrite Hs'. cbn [platform_surface]. by rewrite Hps'.
      - intros E. assert (k = i); [|lia].
        eapply (ri_inj _ Hinv); eauto. right. right. congruence. }
    destruct (rescaled_surface paint W s ps drv pm Hat) as (Hat' & Hh' & _).
    pose proof Hat' as (Hs' & Hps' & Hpm').
    set (W' := rescaled paint s ps drv pm W) in *.
    assert (rescale paint s W = Some (tt, W')) as Hres by (by apply rescale_run).
    assert (handle_of W' s = Some (rescaled_handle ps drv pm W)) as Hh2.
    { unfold handle_of. rewrite Hs'. cbn [platform_surface]. by rewrite Hps'. }
    exists (rescaled_handle ps drv pm W), W', pm,
      (rescaled_driver_addr ps drv pm W),
      (mkDriver None (width drv) (height drv) (rescaled_handle ps drv pm W) false),
      (rescaled_pixmap paint drv pm W).
    split.
    { unfold fl_rescale_offscreen.
      erewrite bind_some by reflexivity.
      erewrite bind_some; last first.
      { by apply (find_offscreen_hit _ 0 i ctx W s); [lia|lia|done|]. }
      cbv beta iota.
      rewrite (bind_some _ _ _ _ _ (read_slot_run W i _ ltac:(lia) Hslot)).
      erewrite bind_some by reflexivity.
      rewrite (bind_some _ _ _ _ _ Hres).
      erewrite bind_some; last first.
      { apply (read_slot_run W' i (Some s)); [lia|exact Hslot]. }
      erewrite bind_some by reflexivity.
      by apply offscreen_run. }
    split; [done|]. split; [by rewrite <- Hctx|]. split; [exact Hat'|].
    do 6 (split; [reflexivity|]).
    split.
    { subst W'. unfold rescaled, with_driver_deleted. world_simpl.
      by rewrite Hctx. }
    split; [reflexivity|]. split; [reflexivity|].
    split; [by apply offscreen_run|]. split; [done|].
    split; [by eexists|]. split; [|done].
    intros Hne. subst W'. unfold rescaled. world_simpl.
    rewrite lookup_insert_ne by done.
    unfold with_driver_deleted. world_simpl. rewrite Hctx. apply lookup_delete_eq.
Qed.

(** *** The fixtures *)

Lemma three_offscreens_reachable : reachable three_offscreens.
Proof.
  apply (reach_create two_offscreens _ 3 3 3); [|vm_compute; reflexivity].
  apply (reach_create hires_world _ 1 1 2); [|vm_compute; reflexivity].
  apply (reach_create (initial_world (2, 1)) _ 2 1 1); [|vm_compute; reflexivity].
  apply reach_start.
Defined.

Lemma three_offscreens_count : count_offscreens three_offscreens = 3.
Proof. vm_compute. reflexivity. Defined.

Lemma three_offscreens_slots :
  offscreen_api_surface three_offscreens !! 0%nat = Some (Some 2%positive) ∧
  offscreen_api_surface three_offscreens !! 1%nat = Some (Some 4%positive) ∧
  offscreen_api_surface three_offscreens !! 2%nat = Some (Some 6%positive).
Proof. vm_compute. repeat split. Defined.

Lemma three_offscreens_handles :
  handle_of three_offscreens 2%positive = Some 1 ∧
  handle_of three_offscreens 4%positive = Some 2 ∧
  handle_of three_offscreens 6%positive = Some 3.
Proof. vm_compute. repeat split. Defined.

Lemma three_offscreens_taken (j : Z) :
  0 ≤ j < count_offscreens three_offscreens → slot_taken three_offscreens j.
Proof.
  rewrite three_offscreens_count. intros Hj.
  destruct three_offscreens_slots as (H0 & H1 & H2).
  assert (j = 0 ∨ j = 1 ∨ j = 2) as [-> | [-> | ->]] by lia.
  - exists 2%positive. exact H0.
  - exists 4%positive. exact H1.
  - exists 6%positive. exact H2.
Defined.

Lemma three_offscreens_misses (ctx j : Z) :
  ctx ≠ 1 → ctx ≠ 2 ∨ j ≠ 1 → ctx ≠ 3 ∨ j ≠ 2 →
  0 ≤ j < 3 → slot_misses three_offscreens ctx j.
Proof.
  intros Hc1 Hc2 Hc3 Hj.
  destruct three_offscreens_slots as (H0 & H1 & H2).
  destruct three_offscreens_handles as (G0 & G1 & G2).
  assert (j = 0 ∨ j = 1 ∨ j = 2) as [-> | [-> | ->]] by lia.
  - exists (Some 2%positive). split; [exact H0|]. exists 1. split; [exact G0|lia].
  - exists (Some 4%positive). split; [exact H1|]. exists 2. split; [exact G1|lia].
  - exists (Some 6%positive). split; [exact H2|]. exists 3. split; [exact G2|lia].
Defined.

Lemma three_offscreens_slot_1 :
  slot_owner three_offscreens 1 4%positive 5%positive
    (mkDriver (Some 4%positive) 1 1 2 false).
Proof.
  split; [rewrite three_offscreens_count; lia|].
  split; [apply three_offscreens_slots|].
  split; vm_compute; reflexivity.
Defined.

Lemma create_reuses_lowest_free_slot_witness :
  ∃ W1 ctx s W2,
    fl_delete_offscreen 2 three_offscreens = Some (tt, W1) ∧
    offscreen_api_surface W1 !! 1%nat = Some None ∧
    fl_create_offscreen 1 2 W1 = Some (ctx, W2) ∧
    offscreen_api_surface W2
    = <[1%nat := Some s]> (offscreen_api_surface three_offscreens) ∧
    count_offscreens W2 = count_offscreens three_offscreens.
Proof.
  destruct (create_reuses_lowest_free_slot three_offscreens 1 2
              three_offscreens_reachable) as [_ Hreuse].
  destruct (Hreuse 1 2 4%positive three_offscreens_taken)
    as (W1 & ctx & s & W2 & H1 & H2 & H3 & H4 & H5 & _).
  - rewrite three_offscreens_count. lia.
  - apply three_offscreens_slots.
  - apply three_offscreens_handles.
  - exists W1, ctx, s, W2.
    split; [exact H1|]. split; [exact H2|]. split; [exact H3|].
    split; [exact H4|exact H5].
Defined.

Lemma offscreen_not_found_noop_witness :
  fl_delete_offscreen 0 three_offscreens = Some (tt, three_offscreens) ∧
  fl_begin_offscreen 9 three_offscreens = Some (tt, three_offscreens) ∧
  (∃ W', fl_delete_offscreen 2 three_offscreens = Some (tt, W') ∧
         offscreen_api_surface W' !! 1%nat = Some None ∧
         heap_ W' !! 4%positive = None ∧
         surface_ W' = 1%positive) ∧
  (∃ W', fl_delete_offscreen 2 (with_surface 5%positive [1%positive] three_offscreens)
         = Some (tt, W') ∧
         offscreen_api_surface W' !! 1%nat = Some None ∧
         surface_ W' = 1%positive ∧ surface_stack W' = []).
Proof.
  destruct (offscreen_not_found_noop three_offscreens 9) as (Hnull & Hmiss & _).
  destruct (offscreen_not_found_noop three_offscreens 2) as (_ & _ & Hhit).
  destruct (offscreen_not_found_noop
              (with_surface 5%positive [1%positive] three_offscreens) 2)
    as (_ & _ & Hcur).
  destruct three_offscreens_slot_1 as (_ & _ & Hs4 & _).
  split; [exact Hnull|]. split; [|split].
  - apply Hmiss. rewrite three_offscreens_count. intros k Hk.
    apply three_offscreens_misses; [lia|left; lia|left; lia|lia].
  - clear Hnull Hmiss Hcur.
    destruct (Hhit 1 4%positive) as (ps & drv & Hs & _ & Hrun).
    + rewrite three_offscreens_count. lia.
    + intros k Hk. apply three_offscreens_misses; [lia|right; lia|right; lia|lia].
    + split; [apply three_offscreens_slots|apply three_offscreens_handles].
    + lia.
    + assert (ps = 5%positive) as -> by congruence.
      destruct (Hrun 1%positive []) as (W' & H1 & H2 & _ & _ & H3 & _ & _ & _ & H4 & _).
      { left. split; [vm_compute; discriminate|]. split; vm_compute; reflexivity. }
      exists W'. split; [exact H1|]. split; [exact H3|].
      split; [rewrite H2; apply lookup_delete_eq|exact H4].
  - clear Hnull Hmiss Hhit.
    destruct (Hcur 1 4%positive) as (ps & drv & Hs & _ & Hrun).
    + assert (count_offscreens three_offscreens = 3) as E
        by exact three_offscreens_count.
      change (0 ≤ 1 < count_offscreens three_offscreens). rewrite E. lia.
    + intros k Hk.
      exact (three_offscreens_misses 2 k ltac:(lia) ltac:(right; lia)
               ltac:(right; lia) ltac:(lia)).
    + split; [apply three_offscreens_slots|apply three_offscreens_handles].
    + lia.
    + assert (Some (Surf (mkSurface (Some ps)))
              = Some (Surf (mkSurface (Some 5%positive)))) as [= ->]
        by (rewrite <- Hs; exact Hs4).
      destruct (Hrun 1%positive []) as (W' & H1 & _ & _ & _ & H3 & _ & _ & _ & H4 & H5).
      { right. split; reflexivity. }
      exists W'. split; [exact H1|]. split; [exact H3|]. split; [exact H4|exact H5].
Defined.

Lemma rescale_offscreen_writes_back_witness :
  ∃ ctx' W' pm',
    fl_rescale_offscreen stretch 2 three_offscreens = Some (ctx', W') ∧
    buffers W' !! ctx' = Some pm' ∧ pm_w pm' = 2 ∧ pm_h pm' = 2 ∧
    Fl_Image_Surface_offscreen 4%positive W' = Some (ctx', W') ∧
    offscreen_api_surface W' = offscreen_api_surface three_offscreens.
Proof.
  destruct (rescale_offscreen_writes_back stretch three_offscreens 2
              (reachable_inv _ three_offscreens_reachable)) as [_ Hhit].
  destruct (Hhit 1 4%positive 5%positive _ three_offscreens_slot_1 eq_refl)
    as (ctx' & W' & pm & ps' & drv' & pm' & H1 & _ & _ & (_ & _ & Hb) & Ho & _ & _
        & Hw & Hh & _ & _ & _ & _ & H2 & _ & _ & _ & H3 & _).
  - vm_compute. discriminate.
  - exists ctx', W', pm'. split; [exact H1|].
    split; [by rewrite <- Ho|]. split; [exact Hw|]. split; [exact Hh|].
    split; [exact H2|exact H3].
Defined.

(** Creating [n] offscreens in a state where every slot in use is taken
    leaves [n] more slots in use, all taken. *)
Lemma create_n_all_taken (n : nat) (w h : Z) (W : World) :
  reachable W →
  (∀ k, 0 ≤ k < count_offscreens W → slot_taken W k) →
  ∃ (ctxs : list Z) (W' : World),
    create_n n w h W = Some (ctxs, W') ∧ reachable W' ∧
    length ctxs = n ∧
    count_offscreens W' = count_offscreens W + Z.of_nat n ∧
    (∀ k, 0 ≤ k < count_offscreens W' → slot_taken W' k).
Proof.
  revert W. induction n as [|n IH]; intros W Hreach Hall.
  - exists [], W. split; [done|]. split; [done|]. split; [done|].
    split; [lia|done].
  - pose proof (reachable_inv W Hreach) as Hinv.
    destruct (create_run W w h Hinv) as (rank & W1 & Hrun & _ & Hcase).
    destruct Hcase as [(Hr & _ & Hfree & _)|(_ & -> & ->)].
    { destruct (Hall rank Hr) as [s Hs]. congruence. }
    destruct (appended_slot_fields W Hinv)
      as (_ & _ & Hc1 & Hcm1 & Hl1 & _ & _ & Hold1).
    pose proof (ri_count _ Hinv) as Hc.
    set (W2 := with_slot (count_offscreens W)
                 (Some (new_surface_addr (with_appended_slot W)))
                 (with_new_surface w h (with_appended_slot W))) in *.
    assert (count_offscreens W2 = count_offscreens W + 1) as Hc2 by exact Hc1.
    assert (reachable W2) as Hreach2 by (by eapply reach_create).
    destruct (IH W2 Hreach2) as (ctxs & W' & Hn & Hreach' & Hlen & Hcount & Hall').
    { intros k Hk. rewrite Hc2 in Hk.
      destruct (decide (k = count_offscreens W)) as [->|Hne].
      - eexists. subst W2. unfold with_slot, with_new_surface. world_simpl.
        apply list_lookup_insert_eq. lia.
      - destruct (Hall k ltac:(lia)) as [s Hs]. exists s.
        subst W2. unfold with_slot, with_new_surface. world_simpl.
        rewrite list_lookup_insert_ne by lia. rewrite Hold1 by lia. done. }
    eexists (_ :: ctxs), W'. split.
    { cbn [create_n]. rewrite (bind_some _ _ _ _ _ Hrun).
      by rewrite (bind_some _ _ _ _ _ Hn). }
    split; [done|]. split; [cbn; lia|]. split; [lia|done].
Qed.

(** ** Further properties of the pixel routines *)

Lemma blend_between (b f a : Z) :
  is_uchar b → is_uchar f → is_uchar a →
  Z.min b f ≤ blend b f a ≤ Z.max b f.
Proof.
  unfold is_uchar, blend. intros Hb Hf Ha.
  assert (0 ≤ b * (255 - a) + f * a) as Hx by nia.
  rewrite Z.quot_div_nonneg by lia. split.
  - apply Z.div_le_lower_bound; [lia|]. nia.
  - apply Z.div_le_upper_bound; [lia|]. nia.
Qed.

(** The buffer a run of [copy_with_mask] leaves holds bytes. *)
Lemma cwm_inv_uchar (A D S : list Z) (w h ls : Z) (b2t : bool) (D' : list Z) :
  3 * w ≤ ls →
  Forall is_uchar A → Forall is_uchar D → Forall is_uchar S →
  cwm_inv A D S w h ls b2t h 0 D' → Forall is_uchar D'.
Proof.
  intros Hls HA HD HS (Hlen & Hmixed & Hrest).
  apply Forall_lookup. intros n x Hn.
  assert (n < length D')%nat as Hlt by (by eapply lookup_lt_Some).
  assert (x = byte_at D' (Z.of_nat n)) as ->.
  { pose proof (byte_at_lookup D' (Z.of_nat n) ltac:(lia)) as Hb.
    rewrite Nat2Z.id in Hb. congruence. }
  destruct (pixel_byte_dec ls w h (Z.of_nat n) Hls)
    as [(i & j & c & Hi & Hj & Hc & ->)|Hpad].
  - rewrite (Hmixed i j c) by (done || (unfold mixed; lia)).
    unfold cwm_expected. apply blend_uchar; by apply byte_at_uchar.
  - rewrite Hrest by (intros; by apply Hpad). by apply byte_at_uchar.
Qed.

(** X1. The byte [copy_with_mask] leaves in a channel lies between the
    background and the foreground byte of that channel, so where the two
    buffers agree the background is unchanged whatever the mask; the
    buffer it leaves holds bytes again. *)
Theorem copy_with_mask_between (h0 : heap) (mask dstb srcb : addr) (ls : Z)
    (m : Fl_RGB_Image) (ma : addr) (A D S : list Z) (b2t : bool) :
  cwm_buffers h0 mask dstb srcb ls m ma A D S →
  ∃ D', copy_with_mask mask (dstb, 0) (srcb, 0) ls b2t h0
        = Some (tt, <[dstb := Bytes D']> h0) ∧
    Forall is_uchar D' ∧
    ∀ i j c, 0 ≤ i < data_h m → 0 ≤ j < data_w m → 0 ≤ c < 3 →
      let k := px ls i j c in
      Z.min (byte_at D k) (byte_at S k) ≤ byte_at D' k
        ≤ Z.max (byte_at D k) (byte_at S k) ∧
      (byte_at D k = byte_at S k → byte_at D' k = byte_at D k).
Proof.
  intros Hpre.
  destruct (cwm_buffers_run _ _ _ _ _ _ _ _ _ _ b2t Hpre) as (D' & Hinv & Hrun).
  exists D'. split; [exact Hrun|].
  destruct Hpre as [_ _ _ _ _ _ _ _ _ Hls _ _ _ HuD HuS HuA _].
  split; [by apply (cwm_inv_uchar A D S (data_w m) (data_h m) ls b2t D')|].
  destruct Hinv as (_ & Hmixed & _).
  intros i j c Hi Hj Hc k.
  assert (byte_at D' k = cwm_expected A D S (data_w m) (data_h m) ls b2t i j c)
    as -> by (apply Hmixed; done || (unfold mixed; lia)).
  unfold cwm_expected. fold k.
  pose proof (blend_between (byte_at D k) (byte_at S k)
                (byte_at A (mask_row b2t (data_h m) i * data_w m + j))
                (byte_at_uchar _ _ HuD) (byte_at_uchar _ _ HuS)
                (byte_at_uchar _ _ HuA)) as Hb.
  split; [exact Hb|]. intros Heq. rewrite <- Heq in Hb |- *. lia.
Qed.

Lemma copy_with_mask_between_witness :
  ∃ D', copy_with_mask 1%positive (3%positive, 0) (4%positive, 0) 7 true test_heap
        = Some (tt, <[3%positive := Bytes D']> test_heap) ∧
    Forall is_uchar D' ∧
    Z.min 10 200 ≤ byte_at D' (px 7 0 0 0) ≤ Z.max 10 200.
Proof.
  destruct (copy_with_mask_between _ _ _ _ _ _ _ _ _ _ true test_heap_buffers)
    as (D' & Hrun & Hu & Hpx).
  exists D'. split; [exact Hrun|]. split; [exact Hu|].
  apply (Hpx 0 0 0); cbn; lia.
Defined.



Section same_buffer.
Context (h0 : heap) (ma buf : addr) (A B : list Z) (w h ls : Z) (b2t : bool).
Context (HA : h0 !! ma = Some (Bytes A)) (HB : h0 !! buf = Some (Bytes B)).
Context (Hw : 0 ≤ w) (Hh : 0 ≤ h) (Hls : 3 * w ≤ ls).
Context (HlenB : h * ls ≤ Z.of_nat (length B)).
Context (HlenA : w * h ≤ Z.of_nat (length A)).
Context (HuA : Forall is_uchar A) (HuB : Forall is_uchar B).

Lemma mix_store_self (p u : Z) :
  0 ≤ p < Z.of_nat (length B) → is_uchar u →
  mix_store (buf, p) (buf, p) u (uchar (255 - u)) h0 = Some (tt, h0).
Proof.
  intros Hp Hu. unfold mix_store.
  rewrite (bind_some _ _ _ _ _ (load_bytes _ _ _ _ HB Hp)).
  rewrite (bind_some _ _ _ _ _ (load_bytes _ _ _ _ HB Hp)).
  rewrite (store_bytes _ _ _ _ _ HB Hp).
  pose proof (byte_at_uchar B p HuB) as Hb.
  rewrite (uchar_id (255 - u)) by (unfold is_uchar in *; lia).
  replace (byte_at B p * (255 - u) + byte_at B p * u) with (byte_at B p * 255) by lia.
  rewrite Z.quot_mul by lia. rewrite uchar_id by done.
  rewrite list_insert_id by (by apply byte_at_lookup).
  by rewrite insert_id.
Qed.

Lemma cwm_pixel_self (ka p : Z) :
  0 ≤ ka < Z.of_nat (length A) → 0 ≤ p → p + 2 < Z.of_nat (length B) →
  copy_with_mask_pixel ((ma, ka), (buf, p), (buf, p)) h0
  = Some (((ma, ka + 1), (buf, p + 3), (buf, p + 3)), h0).
Proof.
  intros Hka Hp Hp2. unfold copy_with_mask_pixel.
  rewrite (bind_some _ _ _ _ _ (load_bytes _ _ _ _ HA Hka)).
  pose proof (byte_at_uchar A ka HuA) as Hu.
  unfold padd. cbn [fst snd].
  rewrite (bind_some _ _ _ _ _ (mix_store_self p _ ltac:(lia) Hu)).
  rewrite (bind_some _ _ _ _ _ (mix_store_self (p + 1) _ ltac:(lia) Hu)).
  rewrite (bind_some _ _ _ _ _ (mix_store_self (p + 1 + 1) _ ltac:(lia) Hu)).
  unfold mret, M_ret. f_equal. pair_eq.
Qed.

Lemma cwm_row_self (i : Z) :
  0 ≤ i < h →
  ∃ st, for_upto w ((ma, mask_row b2t h i * w), (buf, i * ls), (buf, i * ls))
          (λ j st, copy_with_mask_pixel st) h0 = Some (st, h0).
Proof.
  intros Hi.
  assert (0 ≤ mask_row b2t h i < h) as Hr by (unfold mask_row; destruct b2t; lia).
  destruct (for_upto_inv
    (λ j st s, s = h0 ∧
       st = ((ma, mask_row b2t h i * w + j), (buf, i * ls + 3 * j),
             (buf, i * ls + 3 * j)))
    w ((ma, mask_row b2t h i * w), (buf, i * ls), (buf, i * ls))
    (λ j st, copy_with_mask_pixel st) h0) as (st' & s' & Hrun & -> & _);
    [done| | |by exists st'].
  - split; [done|]. pair_eq.
  - intros j st s Hj [-> ->]. eexists _, h0. split.
    + apply cwm_pixel_self; nia.
    + split; [done|]. pair_eq.
Qed.
End same_buffer.

(** X3. Mixing a buffer with itself: when the background and the
    foreground pointer are the same, [copy_with_mask] returns and leaves
    the heap as it was, whatever the mask holds. *)
Theorem copy_with_mask_same_buffer (h0 : heap) (mask ma buf : addr)
    (m : Fl_RGB_Image) (A B : list Z) (ls : Z) (b2t : bool) :
  h0 !! mask = Some (Rgb m) → array m = (ma, 0) →
  h0 !! ma = Some (Bytes A) → h0 !! buf = Some (Bytes B) →
  0 ≤ data_w m → 0 ≤ data_h m → 3 * data_w m ≤ ls →
  data_h m * ls ≤ Z.of_nat (length B) → data_h m * ls ≤ INT_MAX →
  data_w m * data_h m ≤ Z.of_nat (length A) →
  Forall is_uchar A → Forall is_uchar B →
  copy_with_mask mask (buf, 0) (buf, 0) ls b2t h0 = Some (tt, h0).
Proof.
  intros Hmask Harr HA HB Hw Hh Hls HlenB Hint HlenA HuA HuB.
  unfold copy_with_mask.
  erewrite bind_some; last first.
  { unfold load_img. by rewrite Hmask. }
  rewrite Harr.
  destruct (for_upto_inv (λ _ _ s, s = h0) (data_h m) tt
    (λ i _,
       row ← int_ (mask_row b2t (data_h m) i * data_w m);
       off ← int_ (i * ls);
       for_upto (data_w m)
         (padd (ma, 0) row, padd (buf, 0) off, padd (buf, 0) off)
         (λ j st, copy_with_mask_pixel st);;
       mret tt) h0) as (st' & s' & Hrun & ->); [lia|done| |].
  - intros i [] s Hi ->. exists tt, h0. split; [|done].
    assert (0 ≤ mask_row b2t (data_h m) i < data_h m) as Hr
      by (unfold mask_row; destruct b2t; lia).
    erewrite bind_some; last first.
    { apply int_ok. unfold INT_MIN, INT_MAX in *. nia. }
    erewrite bind_some; last first.
    { apply int_ok. unfold INT_MIN, INT_MAX in *. nia. }
    unfold padd. cbn [fst snd]. rewrite !Z.add_0_l.
    destruct (cwm_row_self h0 ma buf A B (data_w m) (data_h m) ls b2t
                HA HB Hw Hh Hls HlenB HlenA HuA HuB i Hi) as (st & Hst).
    by rewrite (bind_some _ _ _ _ _ Hst).
  - by rewrite (bind_some _ _ _ _ _ Hrun).
Qed.

Lemma copy_with_mask_same_buffer_witness :
  copy_with_mask 1%positive (3%positive, 0) (3%positive, 0) 7 true test_heap
  = Some (tt, test_heap).
Proof.
  apply (copy_with_mask_same_buffer test_heap 1%positive 2%positive 3%positive
           (mkRGB (2%positive, 0) false 2 2 1 0 2 2)
           [0; 255; 128; 64]
           [10; 20; 30; 40; 50; 60; 7; 70; 80; 90; 100; 110; 120; 7]);
    try reflexivity; try (cbn; unfold INT_MAX; lia);
    repeat constructor; unfold is_uchar; lia.
Defined.

(** A larger mask value brings the mix at least as close to the
    foreground. *)
Lemma blend_closer (b f a a' : Z) :
  is_uchar b → is_uchar f → is_uchar a → is_uchar a' → a ≤ a' →
  Z.abs (blend b f a' - f) ≤ Z.abs (blend b f a - f).
Proof.
  intros Hb Hf Ha Ha' Hle.
  pose proof (blend_between b f a Hb Hf Ha) as H1.
  pose proof (blend_between b f a' Hb Hf Ha') as H2.
  unfold is_uchar, blend in *.
  assert (0 ≤ b * (255 - a) + f * a) as Hx by nia.
  assert (0 ≤ b * (255 - a') + f * a') as Hx' by nia.
  rewrite !Z.quot_div_nonneg in * by lia.
  destruct (decide (b ≤ f)) as [Hbf|Hbf].
  - assert ((b * (255 - a) + f * a) `div` 255 ≤ (b * (255 - a') + f * a') `div` 255)
      by (apply Z.div_le_mono; nia).
    lia.
  - assert ((b * (255 - a') + f * a') `div` 255 ≤ (b * (255 - a) + f * a) `div` 255)
      by (apply Z.div_le_mono; nia).
    lia.
Qed.

(** X23. The mask values order the results.  Of two masks of the same
    size on the same background and foreground, the one whose values are
    nowhere smaller leaves every channel of every pixel at least as close
    to the foreground: a whiter mask pixel lets more of the foreground
    through. *)
Theorem copy_with_mask_monotone (h0 : heap) (mask dstb srcb : addr) (ls : Z)
    (m : Fl_RGB_Image) (ma : addr) (A A' D S : list Z) (b2t : bool) :
  cwm_buffers h0 mask dstb srcb ls m ma A D S →
  srcb ≠ ma → length A' = length A → Forall is_uchar A' →
  (∀ k, byte_at A k ≤ byte_at A' k) →
  let h0' := <[ma := Bytes A']> h0 in
  ∃ D1 D2,
    copy_with_mask mask (dstb, 0) (srcb, 0) ls b2t h0
    = Some (tt, <[dstb := Bytes D1]> h0) ∧
    copy_with_mask mask (dstb, 0) (srcb, 0) ls b2t h0'
    = Some (tt, <[dstb := Bytes D2]> h0') ∧
    ∀ i j c, 0 ≤ i < data_h m → 0 ≤ j < data_w m → 0 ≤ c < 3 →
      let k := px ls i j c in
      Z.abs (byte_at D2 k - byte_at S k) ≤ Z.abs (byte_at D1 k - byte_at S k).
Proof.
  intros Hpre Hsa Hlen HuA' Hle h0'.
  destruct (cwm_buffers_run _ _ _ _ _ _ _ _ _ _ b2t Hpre)
    as (D1 & (_ & Hmixed1 & _) & Hrun1).
  assert (cwm_buffers h0' mask dstb srcb ls m ma A' D S) as Hpre'.
  { destruct Hpre. subst h0'. constructor; try done.
    - rewrite lookup_insert_ne; [done|]. intros ->. congruence.
    - apply lookup_insert_eq.
    - by rewrite lookup_insert_ne.
    - by rewrite lookup_insert_ne.
    - by rewrite Hlen. }
  destruct (cwm_buffers_run _ _ _ _ _ _ _ _ _ _ b2t Hpre')
    as (D2 & (_ & Hmixed2 & _) & Hrun2).
  exists D1, D2. split; [exact Hrun1|]. split; [exact Hrun2|].
  intros i j c Hi Hj Hc k.
  assert (byte_at D1 k = cwm_expected A D S (data_w m) (data_h m) ls b2t i j c)
    as -> by (apply Hmixed1; done || (unfold mixed; lia)).
  assert (byte_at D2 k = cwm_expected A' D S (data_w m) (data_h m) ls b2t i j c)
    as -> by (apply Hmixed2; done || (unfold mixed; lia)).
  unfold cwm_expected. fold k.
  destruct Hpre as [_ _ _ _ _ _ _ _ _ _ _ _ _ HuD HuS HuA _].
  apply blend_closer; try (by apply byte_at_uchar). apply Hle.
Qed.

Lemma copy_with_mask_monotone_witness :
  ∃ D1 D2,
    copy_with_mask 1%positive (3%positive, 0) (4%positive, 0) 7 false test_heap
    = Some (tt, <[3%positive := Bytes D1]> test_heap) ∧
    copy_with_mask 1%positive (3%positive, 0) (4%positive, 0) 7 false
      (<[2%positive := Bytes [0; 255; 200; 64]]> test_heap)
    = Some (tt, <[3%positive := Bytes D2]>
                  (<[2%positive := Bytes [0; 255; 200; 64]]> test_heap)) ∧
    Z.abs (byte_at D2 (px 7 1 0 0) - 1) ≤ Z.abs (byte_at D1 (px 7 1 0 0) - 1).
Proof.
  destruct (copy_with_mask_monotone _ _ _ _ _ _ _ _ [0; 255; 200; 64] _ _ false
              test_heap_buffers)
    as (D1 & D2 & H1 & H2 & H3).
  - done.
  - reflexivity.
  - repeat constructor; unfold is_uchar; lia.
  - intros k. unfold byte_at. case_decide; [|lia].
    destruct (Z.to_nat k) as [|[|[|[|n]]]]; cbn; lia.
  - exists D1, D2. split; [exact H1|]. split; [exact H2|].
    apply (H3 1 0 0); cbn; lia.
Defined.

(** ** Further properties of [RGB3_to_RGB1] *)

Lemma gray_between (Src : list Z) (ld i j : Z) :
  Forall is_uchar Src →
  let r := byte_at Src (i * ld + 3 * j) in
  let g := byte_at Src (i * ld + 3 * j + 1) in
  let b := byte_at Src (i * ld + 3 * j + 2) in
  Z.min r (Z.min g b) ≤ gray Src ld i j ≤ Z.max r (Z.max g b).
Proof.
  intros HS r g b. unfold gray. fold r g b.
  pose proof (byte_at_uchar Src (i * ld + 3 * j) HS).
  pose proof (byte_at_uchar Src (i * ld + 3 * j + 1) HS).
  pose proof (byte_at_uchar Src (i * ld + 3 * j + 2) HS).
  unfold is_uchar in *. fold r g b in H, H0, H1.
  rewrite Z.quot_div_nonneg by lia. split.
  - apply Z.div_le_lower_bound; lia.
  - apply Z.div_le_upper_bound; lia.
Qed.

Lemma reduced_source_uchar
    (resample : Fl_RGB_Image → list Z → Z → Z → list Z)
    (img : Fl_RGB_Image) (Sb : list Z) (W H : Z) :
  resampler resample → Forall is_uchar Sb →
  Forall is_uchar (reduced_source resample img Sb W H).1.
Proof.
  intros [_ Hu] HSb. unfold reduced_source.
  case_decide; cbn [fst]; [by apply Hu|done].
Qed.

(** X4. The intensity [RGB3_to_RGB1] gives a pixel lies between the
    smallest and the largest of the three channels it reads, so a pixel
    whose channels are equal keeps their value: black stays 0 and white
    stays 255. *)
Theorem RGB3_to_RGB1_between (resample : Fl_RGB_Image → list Z → Z → Z → list Z)
    (h0 : heap) (rgb3 : addr) (img : Fl_RGB_Image) (sb : addr) (Sb : list Z)
    (W H : Z) :
  resampler resample →
  rgb3_source h0 rgb3 img sb Sb W H →
  ∃ (rgb1 : addr) (h' : heap) (out : Fl_RGB_Image) (O : list Z),
    RGB3_to_RGB1 resample rgb3 W H h0 = Some (rgb1, h') ∧
    h' !! rgb1 = Some (Rgb out) ∧ h' !! (array out).1 = Some (Bytes O) ∧
    (array out).2 = 0 ∧
    let Src := (reduced_source resample img Sb W H).1 in
    let ld := (reduced_source resample img Sb W H).2 in
    ∀ i j, 0 ≤ i < H → 0 ≤ j < W →
      let r := byte_at Src (i * ld + 3 * j) in
      let g := byte_at Src (i * ld + 3 * j + 1) in
      let b := byte_at Src (i * ld + 3 * j + 2) in
      Z.min r (Z.min g b) ≤ byte_at O (i * W + j) ≤ Z.max r (Z.max g b) ∧
      (r = g → g = b → byte_at O (i * W + j) = r).
Proof.
  intros Hres Hsrc.
  destruct (RGB3_to_RGB1_run resample h0 rgb3 img sb Sb W H Hres Hsrc)
    as (O & data & rgb1 & Hdata & Hrgb1 & Hne & HlenO & HO & Hrun & _).
  eexists rgb1, _, _, O. split; [exact Hrun|].
  split; [apply lookup_insert_eq|]. cbn [array fst snd].
  split; [rewrite lookup_insert_ne by done; apply lookup_insert_eq|].
  split; [done|]. intros i j Hi Hj.
  set (Src := (reduced_source resample img Sb W H).1).
  set (ld' := (reduced_source resample img Sb W H).2).
  rewrite (HO i j Hi Hj). fold Src ld'.
  set (r := byte_at Src (i * ld' + 3 * j)).
  set (g := byte_at Src (i * ld' + 3 * j + 1)).
  set (b := byte_at Src (i * ld' + 3 * j + 2)).
  assert (Forall is_uchar Src) as HuS.
  { apply reduced_source_uchar; [done|]. by destruct Hsrc. }
  pose proof (gray_between Src ld' i j HuS) as Hb. cbn zeta in Hb.
  fold r g b in Hb. split; [exact Hb|]. intros Hrg Hgb. lia.
Qed.

Lemma RGB3_to_RGB1_between_witness :
  ∃ rgb1 h' out O,
    RGB3_to_RGB1 nearest 1%positive 2 2 rgb_heap = Some (rgb1, h') ∧
    h' !! rgb1 = Some (Rgb out) ∧ h' !! (array out).1 = Some (Bytes O) ∧
    byte_at O (1 * 2 + 1) = 255.
Proof.
  destruct (RGB3_to_RGB1_between nearest rgb_heap 1%positive _ _ _ 2 2
              nearest_resampler (rgb_heap_source 2 2 ltac:(lia) ltac:(lia)))
    as (rgb1 & h' & out & O & H1 & H2 & H3 & _ & H4).
  exists rgb1, h', out, O.
  split; [exact H1|]. split; [exact H2|]. split; [exact H3|].
  apply (H4 1 1 ltac:(lia) ltac:(lia)); reflexivity.
Defined.

(** X5. The image [RGB3_to_RGB1] returns owns its pixel array: deleting
    it releases both, and the heap is again the heap the routine was
    called on. *)
Theorem RGB3_to_RGB1_then_delete
    (resample : Fl_RGB_Image → list Z → Z → Z → list Z)
    (h0 : heap) (rgb3 : addr) (img : Fl_RGB_Image) (sb : addr) (Sb : list Z)
    (W H : Z) :
  resampler resample →
  rgb3_source h0 rgb3 img sb Sb W H →
  (rgb1 ← RGB3_to_RGB1 resample rgb3 W H; delete_Fl_RGB_Image rgb1) h0
  = Some (tt, h0).
Proof.
  intros Hres Hsrc.
  destruct (RGB3_to_RGB1_run resample h0 rgb3 img sb Sb W H Hres Hsrc)
    as (O & data & rgb1 & Hdata & Hrgb1 & Hne & HlenO & HO & Hrun & _).
  cbn zeta in Hrun. rewrite (bind_some _ _ _ _ _ Hrun).
  erewrite (delete_owning_image _ rgb1 _ data 0);
    [|apply lookup_insert_eq|reflexivity|reflexivity| |done].
  - f_equal. f_equal.
    rewrite delete_insert_ne by done. rewrite delete_insert_eq.
    rewrite delete_insert_id by done. by apply delete_id.
  - rewrite lookup_insert_ne by done. rewrite lookup_insert_eq. by eexists.
Qed.

Lemma RGB3_to_RGB1_then_delete_witness :
  (rgb1 ← RGB3_to_RGB1 nearest 1%positive 4 1; delete_Fl_RGB_Image rgb1) rgb_heap
  = Some (tt, rgb_heap).
Proof.
  exact (RGB3_to_RGB1_then_delete nearest rgb_heap 1%positive _ _ _ 4 1
           nearest_resampler (rgb_heap_source 4 1 ltac:(lia) ltac:(lia))).
Defined.

(** ** The two routines together *)

Lemma cells_uchar (O : list Z) (W H : Z) (f : Z → Z → Z) :
  0 ≤ W → 0 ≤ H → Z.of_nat (length O) = W * H →
  (∀ i j, 0 ≤ i < H → 0 ≤ j < W → byte_at O (i * W + j) = f i j) →
  (∀ i j, is_uchar (f i j)) →
  Forall is_uchar O.
Proof.
  intros HW HH Hlen HO Hf. apply Forall_lookup. intros n x Hn.
  assert (n < length O)%nat as Hlt by (by eapply lookup_lt_Some).
  assert (x = byte_at O (Z.of_nat n)) as ->.
  { pose proof (byte_at_lookup O (Z.of_nat n) ltac:(lia)) as Hb.
    rewrite Nat2Z.id in Hb. congruence. }
  assert (0 < W) as HW' by nia.
  pose proof (Z.div_mod (Z.of_nat n) W ltac:(lia)) as Hdm.
  pose proof (Z.mod_pos_bound (Z.of_nat n) W HW') as Hmod.
  pose proof (Z.div_pos (Z.of_nat n) W ltac:(lia) HW') as Hdiv.
  assert (Z.of_nat n `div` W < H) as Hi by (apply Z.div_lt_upper_bound; lia).
  replace (Z.of_nat n) with (Z.of_nat n `div` W * W + Z.of_nat n `mod` W) by lia.
  rewrite HO by lia. apply Hf.
Qed.

(** X6. The image [RGB3_to_RGB1] returns is a mask [copy_with_mask]
    accepts: run on it, the compositor returns and mixes every pixel of
    the background with the foreground in proportion to the intensity of
    the source pixel of the mask row it reads.  Where the source is white
    the foreground is copied, where it is black the background stays. *)
Theorem luminance_mask_blend
    (resample : Fl_RGB_Image → list Z → Z → Z → list Z)
    (h0 : heap) (rgb3 : addr) (img : Fl_RGB_Image) (sb : addr) (Sb : list Z)
    (W H : Z) (dstb srcb : addr) (D S : list Z) (ls : Z) (b2t : bool) :
  resampler resample →
  rgb3_source h0 rgb3 img sb Sb W H →
  h0 !! dstb = Some (Bytes D) → h0 !! srcb = Some (Bytes S) → dstb ≠ srcb →
  3 * W ≤ ls →
  H * ls ≤ Z.of_nat (length D) → H * ls ≤ Z.of_nat (length S) →
  H * ls ≤ INT_MAX →
  Forall is_uchar D → Forall is_uchar S →
  ∃ (rgb1 : addr) (h1 : heap) (D' : list Z),
    RGB3_to_RGB1 resample rgb3 W H h0 = Some (rgb1, h1) ∧
    copy_with_mask rgb1 (dstb, 0) (srcb, 0) ls b2t h1
    = Some (tt, <[dstb := Bytes D']> h1) ∧
    ∀ i j c, 0 ≤ i < H → 0 ≤ j < W → 0 ≤ c < 3 →
      let Src := (reduced_source resample img Sb W H).1 in
      let ld := (reduced_source resample img Sb W H).2 in
      let k := px ls i j c in
      let r := mask_row b2t H i in
      byte_at D' k = blend (byte_at D k) (byte_at S k) (gray Src ld r j) ∧
      ((∀ c', 0 ≤ c' < 3 → byte_at Src (r * ld + 3 * j + c') = 255) →
       byte_at D' k = byte_at S k) ∧
      ((∀ c', 0 ≤ c' < 3 → byte_at Src (r * ld + 3 * j + c') = 0) →
       byte_at D' k = byte_at D k).
Proof.
  intros Hres Hsrc HD HS Hds Hls HlenD HlenS Hint HuD HuS.
  destruct (RGB3_to_RGB1_run resample h0 rgb3 img sb Sb W H Hres Hsrc)
    as (O & data & rgb1 & Hdata & Hrgb1 & Hne & HlenO & HO & Hrun & _).
  cbn zeta in Hrun.
  set (m := mkRGB (data, 0) true W H 1 0 W H) in *.
  set (h1 := <[rgb1 := Rgb m]> (<[data := Bytes O]> h0)) in *.
  assert (Forall is_uchar (reduced_source resample img Sb W H).1) as HuSrc.
  { apply reduced_source_uchar; [done|]. by destruct Hsrc. }
  assert (0 ≤ W ∧ 0 ≤ H) as [HW HH] by (by destruct Hsrc).
  assert (Forall is_uchar O) as HuO.
  { eapply (cells_uchar O W H); [done..|exact HO|].
    intros i j. by apply gray_uchar. }
  assert (cwm_buffers h1 rgb1 dstb srcb ls m data O D S) as Hpre.
  { constructor; try done; subst h1 m; cbn [data_w data_h]; try lia.
    - apply lookup_insert_eq.
    - rewrite lookup_insert_ne by done. apply lookup_insert_eq.
    - rewrite !lookup_insert_ne; [done|intros ->; congruence..].
    - rewrite !lookup_insert_ne; [done|intros ->; congruence..].
    - intros ->. congruence. }
  destruct (cwm_buffers_run _ _ _ _ _ _ _ _ _ _ b2t Hpre)
    as (D' & (_ & Hmixed & _) & Hcwm).
  exists rgb1, h1, D'. split; [exact Hrun|]. split; [exact Hcwm|].
  intros i j c Hi Hj Hc.
  set (Src := (reduced_source resample img Sb W H).1) in *.
  set (ld' := (reduced_source resample img Sb W H).2) in *.
  set (k := px ls i j c). set (r := mask_row b2t H i).
  assert (0 ≤ r < H) as Hr by (subst r; unfold mask_row; destruct b2t; lia).
  assert (byte_at D' k = blend (byte_at D k) (byte_at S k) (gray Src ld' r j))
    as Hk.
  { subst k. unfold m in Hmixed. cbn [data_w data_h] in Hmixed.
    rewrite (Hmixed i j c); [|done..|unfold mixed; lia].
    unfold cwm_expected. fold r. by rewrite (HO r j). }
  split; [exact Hk|]. rewrite Hk. unfold gray. split; intros Hall.
  - rewrite <- (Z.add_0_r (r * ld' + 3 * j)) at 1.
    rewrite !Hall by lia. apply blend_255.
  - rewrite <- (Z.add_0_r (r * ld' + 3 * j)) at 1.
    rewrite !Hall by lia. apply blend_0.
Qed.

Lemma luminance_mask_blend_witness :
  let h0 : heap :=
    <[3%positive := Bytes [1; 2; 3; 4; 5; 6; 7; 8; 9; 10; 11; 12]]>
      (<[4%positive := Bytes [90; 91; 92; 93; 94; 95; 96; 97; 98; 99; 100; 101]]>
         rgb_heap) in
  ∃ rgb1 h1 D',
    RGB3_to_RGB1 nearest 1%positive 2 2 h0 = Some (rgb1, h1) ∧
    copy_with_mask rgb1 (3%positive, 0) (4%positive, 0) 6 false h1
    = Some (tt, <[3%positive := Bytes D']> h1) ∧
    byte_at D' (px 6 1 1 2) = 101.
Proof.
  intros h0.
  assert (rgb3_source h0 1%positive (mkRGB (2%positive, 0) false 2 2 3 0 2 2)
            2%positive [10; 20; 30; 40; 50; 60; 70; 80; 91; 255; 255; 255] 2 2)
    as Hsrc.
  { constructor; try reflexivity; try lia.
    - repeat constructor; unfold is_uchar; lia.
    - unfold INT_MAX. lia.
    - unfold INT_MAX. lia.
    - intros _ _. unfold stride, INT_MAX. cbn. case_decide; lia. }
  destruct (luminance_mask_blend nearest h0 1%positive _ _ _ 2 2
              3%positive 4%positive
              [1; 2; 3; 4; 5; 6; 7; 8; 9; 10; 11; 12]
              [90; 91; 92; 93; 94; 95; 96; 97; 98; 99; 100; 101] 6 false
              nearest_resampler Hsrc eq_refl eq_refl)
    as (rgb1 & h1 & D' & H1 & H2 & H3);
    [done|lia|cbn; lia|cbn; lia|unfold INT_MAX; lia
    |repeat constructor; unfold is_uchar; lia
    |repeat constructor; unfold is_uchar; lia|].
  exists rgb1, h1, D'. split; [exact H1|]. split; [exact H2|].
  destruct (H3 1 1 2 ltac:(lia) ltac:(lia) ltac:(lia)) as (_ & Hwhite & _).
  rewrite Hwhite; [reflexivity|].
  intros c' Hc'.
  assert (c' = 0 ∨ c' = 1 ∨ c' = 2) as [-> | [-> | ->]] by lia; reflexivity.
Defined.

(** ** Further properties of the surface object *)

Lemma surface_new_run_any (W : World) (w h high_res off : Z) :
  Fl_Image_Surface_new w h high_res off W
  = Some (new_surface_addr W, with_constructed w h high_res off W).
Proof.
  destruct (new_addrs_fresh W) as (_ & _ & Hne).
  assert (new_driver_addr W ≠ new_surface_addr W) as Hne' by done.
  unfold Fl_Image_Surface_new, newImageSurfaceDriver, with_constructed,
    constructed_driver, constructed_pixmap.
  destruct (decide (off ≠ 0)) as [Hoff|Hoff].
  - unfold_monad. world_simpl.
    fold (new_surface_addr W). fold (new_driver_addr W).
    repeat (progress (world_simpl; rewrite ?lookup_insert_eq;
                      rewrite ?lookup_insert_ne by done)).
    do 2 f_equal. unfold with_heap, with_buffers. world_simpl. f_equal.
    apply map_eq. intros k. rewrite !lookup_insert.
    repeat case_decide; congruence.
  - unfold_monad. world_simpl.
    fold (new_surface_addr W). fold (new_driver_addr W). fold (new_handle W).
    repeat (progress (world_simpl; rewrite ?lookup_insert_eq;
                      rewrite ?lookup_insert_ne by done)).
    do 2 f_equal. unfold with_heap, with_buffers. world_simpl. f_equal.
    apply map_eq. intros k. rewrite !lookup_insert.
    repeat case_decide; congruence.
Qed.

Lemma delete_fresh_pair {K} `{Countable K} {A} (m : gmap K A) (a b : K) (x y : A) :
  m !! a = None → m !! b = None →
  delete a (delete b (<[b := y]> (<[a := x]> m))) = m.
Proof.
  intros Ha Hb. apply map_eq. intros k.
  destruct (decide (k = a)) as [->|Hka]; [by rewrite lookup_delete_eq|].
  rewrite lookup_delete_ne by done.
  destruct (decide (k = b)) as [->|Hkb]; [by rewrite lookup_delete_eq|].
  rewrite lookup_delete_ne by done. by rewrite !lookup_insert_ne.
Qed.

Lemma delete_fresh_pair_rev {K} `{Countable K} {A} (m : gmap K A) (a b : K)
    (x y : A) :
  m !! a = None → m !! b = None →
  delete a (delete b (<[a := x]> (<[b := y]> m))) = m.
Proof.
  intros Ha Hb. apply map_eq. intros k.
  destruct (decide (k = a)) as [->|Hka]; [by rewrite lookup_delete_eq|].
  rewrite lookup_delete_ne by done.
  destruct (decide (k = b)) as [->|Hkb]; [by rewrite lookup_delete_eq|].
  rewrite lookup_delete_ne by done. by rewrite !lookup_insert_ne.
Qed.

(** X7. The constructor and the destructor.  [new Fl_Image_Surface(w, h,
    high_res, off)] returns a new surface served by a new driver that
    points back to it and records [w] and [h], which [printable_rect]
    reports.  Around a buffer [off] of the caller the driver borrows it and
    no buffer is made; without one the driver owns a new buffer, of
    [w] x [h] pixels, or of the pixel size of [w] x [h] units at the current
    scale factor when [high_res] is set.  Deleting the surface right away,
    its driver not being the current surface, gives back the state before
    the constructor: the driver and an owned buffer go with it, a borrowed
    buffer is left to the caller. *)
Theorem surface_new_then_delete (W : World) (w h high_res off : Z) :
  ∃ (s ps : addr) (drv : Fl_Image_Surface_Driver) (W1 : World),
    Fl_Image_Surface_new w h high_res off W = Some (s, W1) ∧
    heap_ W !! s = None ∧ heap_ W !! ps = None ∧
    heap_ W1 !! s = Some (Surf (mkSurface (Some ps))) ∧
    heap_ W1 !! ps = Some (Drv drv) ∧
    image_surface_ drv = Some s ∧ width drv = w ∧ height drv = h ∧
    (off ≠ 0 →
       offscreen drv = off ∧ external_offscreen drv = true ∧
       buffers W1 = buffers W) ∧
    (off = 0 →
       offscreen drv ≠ 0 ∧ external_offscreen drv = false ∧
       buffers W !! offscreen drv = None ∧
       ∃ pm, buffers W1 = <[offscreen drv := pm]> (buffers W) ∧
         pm_w pm = (if decide (high_res ≠ 0) then physical (scale_ W) w else w) ∧
         pm_h pm = (if decide (high_res ≠ 0) then physical (scale_ W) h else h)) ∧
    printable_rect s W1 = Some ((w, h), W1) ∧
    Fl_Image_Surface_offscreen s W1 = Some (offscreen drv, W1) ∧
    (surface_ W ≠ ps → Fl_Image_Surface_delete s W1 = Some (tt, W)).
Proof.
  destruct (new_addrs_fresh W) as (Hs & Hps & Hne).
  destruct (new_handle_fresh W) as (Hh0 & Hhb).
  set (W1 := with_constructed w h high_res off W).
  assert (heap_ W1 !! new_surface_addr W
          = Some (Surf (mkSurface (Some (new_driver_addr W))))) as Hs1.
  { subst W1. unfold with_constructed. world_simpl.
    rewrite lookup_insert_ne by done. apply lookup_insert_eq. }
  assert (heap_ W1 !! new_driver_addr W
          = Some (Drv (constructed_driver w h off W))) as Hps1.
  { subst W1. unfold with_constructed. world_simpl. apply lookup_insert_eq. }
  exists (new_surface_addr W), (new_driver_addr W),
    (constructed_driver w h off W), W1.
  split; [apply surface_new_run_any|].
  split; [done|]. split; [done|]. split; [done|]. split; [done|].
  split; [unfold constructed_driver; by case_decide|].
  split; [unfold constructed_driver; by case_decide|].
  split; [unfold constructed_driver; by case_decide|].
  split.
  { intros Hoff. subst W1. unfold constructed_driver, with_constructed.
    rewrite !decide_True by done. by world_simpl. }
  split.
  { intros Hoff. subst W1. unfold constructed_driver, with_constructed.
    rewrite !decide_False by lia. world_simpl.
    split; [done|]. split; [done|]. split; [done|].
    eexists. split; [reflexivity|]. by unfold constructed_pixmap. }
  split.
  { unfold printable_rect, driver_printable_rect.
    rewrite (bind_some _ _ _ _ _ (load_surface_run _ _ _ Hs1)).
    cbn [platform_surface]. erewrite bind_some by reflexivity.
    rewrite (bind_some _ _ _ _ _ (load_driver_run _ _ _ Hps1)).
    unfold constructed_driver; by case_decide. }
  split.
  { apply offscreen_run. unfold handle_of. rewrite Hs1. cbn [platform_surface].
    by rewrite Hps1. }
  intros Hcur.
  rewrite (surface_delete_run W1 _ _ _ Hs1 Hps1) by done. do 2 f_equal.
  unfold without_surface. subst W1. unfold with_constructed, constructed_driver.
  apply world_eq; world_simpl; try done.
  - by apply delete_fresh_pair.
  - destruct (decide (off ≠ 0)) as [Hoff|Hoff]; world_simpl; [done|].
    rewrite bool_decide_eq_true_2 by done. cbn [negb andb].
    rewrite delete_insert_eq. by apply delete_id.
Qed.

Lemma surface_new_then_delete_witness :
  ∃ s W1,
    Fl_Image_Surface_new 2 1 1 0 (initial_world (2, 1)) = Some (s, W1) ∧
    Fl_Image_Surface_delete s W1 = Some (tt, initial_world (2, 1)).
Proof.
  destruct (surface_new_then_delete (initial_world (2, 1)) 2 1 1 0)
    as (s & ps & drv & W1 & H1 & _ & Hps & _ & _ & _ & _ & _ & _ & _ & _ & _ & Hdel).
  exists s, W1. split; [exact H1|]. apply Hdel.
  intros E. rewrite <- E in Hps. vm_compute in Hps. discriminate.
Defined.

(** X8. [get_offscreen_before_delete_] returns the buffer handle of the
    driver and clears it in the driver, so [offscreen()] returns the null
    handle from then on, and deleting the surface then, the surface not
    being the current one, destroys the surface and its driver and leaves
    every buffer, the returned one with them, and the current surface and
    the stack as they are. *)
Theorem get_offscreen_before_delete_keeps_buffer (W : World) (s ps : addr)
    (drv : Fl_Image_Surface_Driver) :
  heap_ W !! s = Some (Surf (mkSurface (Some ps))) →
  heap_ W !! ps = Some (Drv drv) →
  surface_ W ≠ ps →
  ∃ W1 W2,
    get_offscreen_before_delete_ s W = Some (offscreen drv, W1) ∧
    Fl_Image_Surface_offscreen s W1 = Some (0, W1) ∧
    buffers W1 = buffers W ∧
    Fl_Image_Surface_delete s W1 = Some (tt, W2) ∧
    heap_ W2 = delete s (delete ps (heap_ W)) ∧
    buffers W2 = buffers W ∧
    surface_ W2 = surface_ W ∧ surface_stack W2 = surface_stack W ∧
    offscreen_api_surface W2 = offscreen_api_surface W.
Proof.
  intros Hs Hps Hcur. assert (s ≠ ps) as Hne by congruence.
  set (drv0 := mkDriver (image_surface_ drv) (width drv) (height drv) 0
                        (external_offscreen drv)).
  set (W1 := with_heap (<[ps := Drv drv0]> (heap_ W)) W).
  assert (heap_ W1 !! s = Some (Surf (mkSurface (Some ps)))) as Hs1.
  { subst W1. world_simpl. by rewrite lookup_insert_ne. }
  assert (heap_ W1 !! ps = Some (Drv drv0)) as Hps1.
  { subst W1. world_simpl. apply lookup_insert_eq. }
  exists W1, (without_surface s ps drv0 W1).
  split.
  { unfold get_offscreen_before_delete_.
    rewrite (bind_some _ _ _ _ _ (load_surface_run _ _ _ Hs)).
    cbn [platform_surface]. erewrite bind_some by reflexivity.
    rewrite (bind_some _ _ _ _ _ (load_driver_run _ _ _ Hps)).
    unfold_monad. by rewrite Hps. }
  split.
  { apply offscreen_run. unfold handle_of. rewrite Hs1. cbn [platform_surface].
    by rewrite Hps1. }
  split; [done|].
  split; [by apply surface_delete_run|].
  unfold without_surface. subst W1 drv0. world_simpl.
  split.
  { by rewrite delete_insert_eq. }
  split; [|done].
  rewrite bool_decide_eq_false_2 by (intros Hc; by apply Hc).
  by rewrite andb_false_r.
Qed.

Lemma get_offscreen_before_delete_keeps_buffer_witness :
  ∃ W1 W2,
    get_offscreen_before_delete_ 2%positive hires_world = Some (1, W1) ∧
    Fl_Image_Surface_delete 2%positive W1 = Some (tt, W2) ∧
    buffers W2 = buffers hires_world.
Proof.
  destruct hires_world_surface as (Hs & Hps & _).
  destruct (get_offscreen_before_delete_keeps_buffer hires_world _ _ _ Hs Hps)
    as (W1 & W2 & H1 & _ & _ & H2 & _ & H3 & _).
  - vm_compute. discriminate.
  - exists W1, W2. split; [exact H1|]. split; [exact H2|exact H3].
Defined.

(** X9. Activation.  [push_current] of a surface with a driver makes that
    driver the current surface, so [is_current()] returns true, and keeps
    the surface that was current on the stack; [pop_current] then gives
    back the state before the push. *)
Theorem push_then_pop_current (W : World) (s ps : addr)
    (drv : Fl_Image_Surface_Driver) :
  heap_ W !! s = Some (Surf (mkSurface (Some ps))) →
  heap_ W !! ps = Some (Drv drv) →
  ∃ W1,
    push_current s W = Some (tt, W1) ∧
    surface_ W1 = ps ∧ surface_stack W1 = surface_ W :: surface_stack W ∧
    is_current s W1 = Some (true, W1) ∧
    pop_current W1 = Some (tt, W).
Proof.
  intros Hs Hps.
  exists (with_surface ps (surface_ W :: surface_stack W) W).
  split.
  { unfold push_current, set_current, Fl_Image_Surface_set_current,
      driver_set_current. unfold_monad. world_simpl.
    rewrite Hs. world_simpl. by rewrite Hs. }
  split; [done|]. split; [done|]. split.
  { unfold is_current. unfold_monad. world_simpl. rewrite Hs. world_simpl.
    by rewrite bool_decide_eq_true_2. }
  unfold pop_current. unfold_monad. world_simpl. do 2 f_equal. by destruct W.
Qed.

Lemma push_then_pop_current_witness :
  ∃ W1,
    push_current 2%positive hires_world = Some (tt, W1) ∧
    is_current 2%positive W1 = Some (true, W1) ∧
    pop_current W1 = Some (tt, hires_world).
Proof.
  destruct hires_world_surface as (Hs & Hps & _).
  destruct (push_then_pop_current hires_world _ _ _ Hs Hps)
    as (W1 & H1 & _ & _ & H2 & H3).
  exists W1. split; [exact H1|]. split; [exact H2|exact H3].
Defined.

(** X10. The image [image()] returns is the caller's: deleting it
    releases the image and the pixel array it owns, and the state is
    again the state before [image()], the buffer of the surface being as
    it was throughout. *)
Theorem image_then_delete (W : World) (s ps : addr)
    (drv : Fl_Image_Surface_Driver) (pm : pixmap) :
  surface_at W s ps drv pm →
  (img ← image s; in_heap (delete_Fl_RGB_Image img)) W = Some (tt, W).
Proof.
  intros Hat.
  destruct (image_addrs_fresh W pm) as (Hb & Hi & Hbi).
  rewrite (bind_some _ _ _ _ _ (image_run W s ps drv pm Hat)).
  erewrite in_heap_run; last first.
  { apply (delete_owning_image _ _ (extracted W drv pm) (image_bits_addr W) 0).
    - unfold with_image. world_simpl. apply lookup_insert_eq.
    - reflexivity.
    - reflexivity.
    - unfold with_image. world_simpl. rewrite lookup_insert_ne by done.
      rewrite lookup_insert_eq. by eexists.
    - done. }
  do 2 f_equal. unfold with_image. world_simpl.
  rewrite (delete_fresh_pair_rev (heap_ W)) by done. by destruct W.
Qed.

Lemma image_then_delete_witness :
  (img ← image 2%positive; in_heap (delete_Fl_RGB_Image img)) hires_world
  = Some (tt, hires_world).
Proof.
  exact (image_then_delete hires_world _ _ _ _ hires_world_surface).
Defined.

(** X11. [highres_image()] on a surface with a driver returns a new
    shared image that wraps the image [image()] returns: its pixels are
    those of the buffer, at the buffer's pixel size, and the size it
    reports is the [width] and [height] [printable_rect] gives.  The
    buffers, the current surface and the stack are as before. *)
Theorem highres_image_wraps_image (W : World) (s ps : addr)
    (drv : Fl_Image_Surface_Driver) (pm : pixmap) :
  surface_at W s ps drv pm →
  ∃ (sh rgb : addr) (hdr : Fl_RGB_Image) (W' W1 : World),
    highres_image s W = Some (Some sh, W') ∧
    image s W = Some (rgb, W1) ∧
    heap_ W !! sh = None ∧ sh ≠ rgb ∧
    heap_ W' !! sh = Some (Shared rgb (width drv) (height drv)) ∧
    driver_printable_rect ps W' = Some ((width drv, height drv), W') ∧
    heap_ W' !! rgb = Some (Rgb hdr) ∧
    data_w hdr = pm_w pm ∧ data_h hdr = pm_h pm ∧
    heap_ W' !! (array hdr).1 = Some (Bytes (pm_bytes pm)) ∧
    (∀ a, is_Some (heap_ W !! a) → heap_ W' !! a = heap_ W !! a) ∧
    buffers W' = buffers W ∧
    surface_ W' = surface_ W ∧ surface_stack W' = surface_stack W.
Proof.
  intros Hat. pose proof Hat as (Hs & Hps & Hpm).
  destruct (image_addrs_fresh W pm) as (Hb & Hi & Hbi).
  set (bits := image_bits_addr W) in *. set (img := image_addr W pm) in *.
  set (W1 := with_image drv pm W).
  assert (heap_ W1 = <[img := Rgb (extracted W drv pm)]>
                       (<[bits := Bytes (pm_bytes pm)]> (heap_ W))) as H1
    by reflexivity.
  set (sh := fresh (dom (heap_ W1))).
  assert (heap_ W1 !! sh = None) as Hsh by apply fresh_lookup.
  assert (sh ≠ img) as Hshi.
  { intros E. rewrite E, H1, lookup_insert_eq in Hsh. done. }
  assert (sh ≠ bits) as Hshb.
  { intros E. rewrite E, H1, lookup_insert_ne, lookup_insert_eq in Hsh; done. }
  assert (∀ a, is_Some (heap_ W !! a) → a ≠ sh ∧ a ≠ img ∧ a ≠ bits) as Hlive.
  { intros a [o Ha]. split; [|split]; intros ->; [|congruence..].
    rewrite H1 in Hsh. rewrite !lookup_insert_ne in Hsh; [congruence|..];
      intros <-; congruence. }
  set (W' := with_heap (<[sh := Shared img (width drv) (height drv)]> (heap_ W1)) W1).
  exists sh, img, (extracted W drv pm), W', W1.
  assert (highres_image s W = Some (Some sh, W')) as Hrun.
  { unfold highres_image.
    rewrite (bind_some _ _ _ _ _ (load_surface_run _ _ _ Hs)).
    cbn [platform_surface].
    rewrite (bind_some _ _ _ _ _ (image_run W s ps drv pm Hat)).
    fold img W1.
    erewrite bind_some; last first.
    { unfold Fl_Shared_Image_get.
      erewrite bind_some; last first.
      { apply in_heap_run. unfold load_img. rewrite H1, lookup_insert_eq.
        reflexivity. }
      rewrite <- H1, with_heap_id. apply in_heap_run. apply alloc_run. }
    fold sh. cbn [w_ h_ extracted].
    set (W2 := with_heap _ W1).
    assert (heap_ W2 !! ps = Some (Drv drv)) as Hps2.
    { subst W2. world_simpl. rewrite H1.
      destruct (Hlive ps ltac:(by eexists)) as (? & ? & ?).
      by rewrite !lookup_insert_ne by done. }
    erewrite bind_some; last first.
    { unfold driver_printable_rect.
      rewrite (bind_some _ _ _ _ _ (load_driver_run _ _ _ Hps2)). reflexivity. }
    cbv beta iota.
    erewrite bind_some; last first.
    { unfold Fl_Shared_Image_scale. subst W2. world_simpl.
      rewrite lookup_insert_eq. reflexivity. }
    unfold mret, M_ret. do 2 f_equal. subst W2 W'. world_simpl.
    unfold with_heap. world_simpl. by rewrite insert_insert_eq. }
  split; [exact Hrun|]. split; [exact (image_run W s ps drv pm Hat)|].
  split.
  { destruct (heap_ W !! sh) eqn:E; [|done].
    by destruct (Hlive sh ltac:(by eexists)) as (? & _). }
  split; [done|].
  split; [subst W'; world_simpl; apply lookup_insert_eq|].
  split.
  { unfold driver_printable_rect.
    erewrite bind_some; [reflexivity|]. apply load_driver_run.
    subst W'. world_simpl. rewrite H1.
    destruct (Hlive ps ltac:(by eexists)) as (? & ? & ?).
    by rewrite !lookup_insert_ne by done. }
  split.
  { subst W'. world_simpl. rewrite lookup_insert_ne by done.
    rewrite H1. apply lookup_insert_eq. }
  split; [done|]. split; [done|].
  split.
  { subst W'. world_simpl. cbn [extracted array fst]. fold bits.
    rewrite lookup_insert_ne by done. rewrite H1.
    rewrite lookup_insert_ne by done. apply lookup_insert_eq. }
  split; [|done].
  intros a Ha. destruct (Hlive a Ha) as (? & ? & ?).
  subst W'. world_simpl. rewrite H1. by rewrite !lookup_insert_ne by done.
Qed.

Lemma highres_image_wraps_image_witness :
  ∃ sh rgb hdr W',
    highres_image 2%positive hires_world = Some (Some sh, W') ∧
    heap_ W' !! sh = Some (Shared rgb 2 1) ∧
    heap_ W' !! rgb = Some (Rgb hdr) ∧ data_w hdr = 4 ∧ data_h hdr = 2.
Proof.
  destruct (highres_image_wraps_image hires_world _ _ _ _ hires_world_surface)
    as (sh & rgb & hdr & W' & W1 & H1 & _ & _ & _ & H2 & _ & H3 & H4 & H5 & _).
  exists sh, rgb, hdr, W'.
  split; [exact H1|]. split; [exact H2|]. split; [exact H3|].
  split; [exact H4|exact H5].
Defined.

(** X12. A surface whose driver pointer is null.  [set_current()],
    [translate()], [untranslate()] and [origin(int*, int* )] test the
    pointer: they return with the state, and the two integers, as they
    were, and [is_current()] is false; the destructor releases the
    surface alone.  [origin(int, int)], [mask()], [printable_rect()],
    [image()], [get_offscreen_before_delete_()] and [rescale()] dereference
    the pointer without a test.  With a driver, the five forwarding members
    are the driver's members on the same arguments. *)
Theorem null_driver_members
    (driver_origin : addr → Z → Z → M World unit)
    (driver_get_origin : addr → Z → Z → M World (Z * Z))
    (driver_translate : addr → Z → Z → M World unit)
    (driver_untranslate : addr → M World unit)
    (driver_mask : addr → addr → M World unit)
    (paint : Fl_RGB_Image → list Z → Z → Z → pixmap → list Z)
    (W : World) (this : addr) (sf : Fl_Image_Surface) (x y : Z) (m : addr) :
  heap_ W !! this = Some (Surf sf) →
  match platform_surface sf with
  | None =>
      Fl_Image_Surface_set_current this W = Some (tt, W) ∧
      translate driver_translate this x y W = Some (tt, W) ∧
      untranslate driver_untranslate this W = Some (tt, W) ∧
      get_origin driver_get_origin this x y W = Some ((x, y), W) ∧
      is_current this W = Some (false, W) ∧
      Fl_Image_Surface_delete this W
      = Some (tt, with_heap (delete this (heap_ W)) W) ∧
      origin driver_origin this x y W = None ∧
      mask driver_mask this m W = None ∧
      printable_rect this W = None ∧
      image this W = None ∧
      get_offscreen_before_delete_ this W = None ∧
      rescale paint this W = None
  | Some ps =>
      origin driver_origin this x y W = driver_origin ps x y W ∧
      get_origin driver_get_origin this x y W = driver_get_origin ps x y W ∧
      translate driver_translate this x y W = driver_translate ps x y W ∧
      untranslate driver_untranslate this W = driver_untranslate ps W ∧
      mask driver_mask this m W = driver_mask ps m W
  end.
Proof.
  intros Hs. pose proof (load_surface_run _ _ _ Hs) as Hl.
  destruct sf as [[ps|]]; cbn [platform_surface].
  - unfold origin, get_origin, translate, untranslate, mask.
    rewrite !(bind_some _ _ _ _ _ Hl). cbn [platform_surface].
    by erewrite !bind_some by reflexivity.
  - assert (image this W = None) as Himg.
    { unfold image, image_with. by rewrite (bind_some _ _ _ _ _ Hl). }
    assert (is_current this W = Some (false, W)) as Hcur.
    { unfold is_current. by rewrite (bind_some _ _ _ _ _ Hl). }
    unfold Fl_Image_Surface_set_current, translate, untranslate, get_origin,
      origin, mask, printable_rect, get_offscreen_before_delete_.
    rewrite !(bind_some _ _ _ _ _ Hl). cbn [platform_surface].
    repeat split; try done.
    + unfold Fl_Image_Surface_delete.
      rewrite (bind_some _ _ _ _ _ Hcur), (bind_some _ _ _ _ _ Hl).
      cbn [platform_surface when_]. erewrite !bind_some by reflexivity.
      unfold_monad. by rewrite Hs.
    + unfold rescale, mbind, M_bind. by rewrite Himg.
Qed.

Lemma null_driver_members_witness :
  let W := with_heap (<[2%positive := Surf (mkSurface None)]> {[1%positive := Device]})
             (initial_world (1, 1)) in
  translate (λ _ _ _, mfail_) 2%positive 3 4 W = Some (tt, W) ∧
  get_origin (λ _ _ _, mfail_) 2%positive 3 4 W = Some ((3, 4), W) ∧
  origin (λ _ _ _, mret tt) 2%positive 3 4 W = None ∧
  image 2%positive W = None.
Proof.
  intros W.
  destruct (null_driver_members (λ _ _ _, mret tt) (λ _ _ _, mfail_)
              (λ _ _ _, mfail_) (λ _, mfail_) (λ _ _, mfail_) stretch
              W 2%positive (mkSurface None) 3 4 1%positive eq_refl)
    as (_ & H1 & _ & H2 & _ & _ & H3 & _ & _ & H4 & _).
  split; [exact H1|]. split; [exact H2|]. split; [exact H3|exact H4].
Defined.

(** ** Further properties of the registry *)

Lemma slot_owner_handle (W : World) (i : Z) (s ps : addr)
    (drv : Fl_Image_Surface_Driver) :
  slot_owner W i s ps drv → handle_of W s = Some (offscreen drv).
Proof.
  intros (_ & _ & Hs & Hps). unfold handle_of. rewrite Hs.
  cbn [platform_surface]. by rewrite Hps.
Qed.

(** Under the invariant the handle of a slot is held by no other slot. *)
Lemma inv_misses_others (W : World) (i : Z) (s ps : addr)
    (drv : Fl_Image_Surface_Driver) :
  registry_inv W → slot_owner W i s ps drv →
  ∀ k, 0 ≤ k < count_offscreens W → k ≠ i → slot_misses W (offscreen drv) k.
Proof.
  intros Hinv Ho k Hk Hne.
  destruct (lookup_lt_is_Some_2 (offscreen_api_surface W) (Z.to_nat k))
    as [c Hc].
  { pose proof (ri_count _ Hinv). pose proof (ri_length _ Hinv). lia. }
  destruct c as [s'|]; [|by exists None].
  destruct (ri_live _ Hinv k s' Hk Hc) as (ps' & drv' & Ho' & _).
  exists (Some s'). split; [done|]. exists (offscreen drv'). split.
  - by eapply slot_owner_handle.
  - intros E. apply Hne. eapply (ri_inj _ Hinv); eauto.
Qed.

Lemma slot_hits_slot_owner (W : World) (ctx i : Z) (s : addr) :
  registry_inv W → 0 ≤ i < count_offscreens W → slot_hits W ctx i s →
  ∃ ps drv, slot_owner W i s ps drv ∧ offscreen drv = ctx ∧ ctx ≠ 0 ∧
    external_offscreen drv = false ∧ is_Some (buffers W !! ctx).
Proof.
  intros Hinv Hi [Hslot Hh].
  destruct (ri_live _ Hinv i s Hi Hslot) as (ps & drv & Ho & Hext & Hoff & Hb).
  pose proof (slot_owner_handle _ _ _ _ _ Ho) as Hh'.
  assert (offscreen drv = ctx) as <- by congruence.
  by exists ps, drv.
Qed.

Lemma begin_run_miss (W : World) (ctx : Z) :
  (∀ k, 0 ≤ k < count_offscreens W → slot_misses W ctx k) →
  fl_begin_offscreen ctx W = Some (tt, W).
Proof.
  intros Hmiss. unfold fl_begin_offscreen.
  erewrite bind_some by reflexivity.
  erewrite bind_some; last first.
  { apply find_offscreen_miss; [lia|]. intros k Hk. apply Hmiss. lia. }
  reflexivity.
Qed.

Lemma rescale_offscreen_run_miss
    (paint : Fl_RGB_Image → list Z → Z → Z → pixmap → list Z)
    (W : World) (ctx : Z) :
  (∀ k, 0 ≤ k < count_offscreens W → slot_misses W ctx k) →
  fl_rescale_offscreen paint ctx W = Some (ctx, W).
Proof.
  intros Hmiss. unfold fl_rescale_offscreen.
  erewrite bind_some by reflexivity.
  erewrite bind_some; last first.
  { apply find_offscreen_miss; [lia|]. intros k Hk. apply Hmiss. lia. }
  reflexivity.
Qed.

Lemma push_surface_run (W : World) (s ps : addr) (drv : Fl_Image_Surface_Driver) :
  heap_ W !! s = Some (Surf (mkSurface (Some ps))) →
  push_current s W
  = Some (tt, with_surface ps (surface_ W :: surface_stack W) W).
Proof.
  intros Hs.
  unfold push_current, set_current, Fl_Image_Surface_set_current,
    driver_set_current. unfold_monad. world_simpl.
  rewrite Hs. world_simpl. by rewrite Hs.
Qed.

Lemma begin_run_hit (W : World) (ctx i : Z) (s ps : addr)
    (drv : Fl_Image_Surface_Driver) :
  slot_owner W i s ps drv → offscreen drv = ctx →
  (∀ k, 0 ≤ k < i → slot_misses W ctx k) →
  fl_begin_offscreen ctx W
  = Some (tt, with_surface ps (surface_ W :: surface_stack W) W).
Proof.
  intros Ho Hctx Hmiss. pose proof Ho as (Hi & Hslot & Hs & Hps).
  assert (slot_hits W ctx i s) as Hhit.
  { split; [done|]. rewrite <- Hctx. by eapply slot_owner_handle. }
  unfold fl_begin_offscreen.
  erewrite bind_some by reflexivity.
  erewrite bind_some; last first.
  { by apply (find_offscreen_hit _ 0 i ctx W s); [lia|lia|done|]. }
  cbv beta iota.
  rewrite (bind_some _ _ _ _ _ (read_slot_run W i _ ltac:(lia) Hslot)).
  erewrite bind_some by reflexivity.
  by apply (push_surface_run W s ps drv).
Qed.

(** ** [rescale] and the registry *)

Section rescaled_objects.
Context (paint : Fl_RGB_Image → list Z → Z → Z → pixmap → list Z).
Context (W : World) (s ps : addr) (drv : Fl_Image_Surface_Driver) (pm : pixmap).
Context (Hat : surface_at W s ps drv pm).

Let W' := rescaled paint s ps drv pm W.
Let ps' := rescaled_driver_addr ps drv pm W.
Let handle' := rescaled_handle ps drv pm W.

(** The objects other than the surface and its driver, and the buffers
    other than its buffer, are kept by [rescale()], and the new driver and
    buffer are none of them. *)
Lemma rescaled_heap_frame (a : addr) (o : obj) :
  heap_ W !! a = Some o → a ≠ s → a ≠ ps →
  heap_ W' !! a = Some o ∧ a ≠ ps'.
Proof.
  intros Ha Has Hap.
  destruct (rescale_addrs W s ps drv pm Hat)
    as (Hsp & Hsb & Hsi & Hpb & Hpi & Hbi & Hps's & Hps'b & Hps'i & Hfresh).
  destruct (image_addrs_fresh W pm) as (Hb & Hi & _).
  assert (a ≠ image_bits_addr W) as Hab by congruence.
  assert (a ≠ image_addr W pm) as Hai by congruence.
  assert (a ≠ ps') as Hap'.
  { intros ->. unfold with_driver_deleted, with_image in Hfresh.
    cbn [heap_ with_heap] in Hfresh.
    rewrite lookup_delete_ne in Hfresh by done.
    rewrite !lookup_insert_ne in Hfresh by done.
    unfold ps' in Ha. congruence. }
  split; [|done]. subst W'. unfold rescaled. world_simpl.
  rewrite !lookup_delete_ne by done. rewrite !lookup_insert_ne by done.
  unfold with_driver_deleted, with_image. world_simpl.
  rewrite lookup_delete_ne by done. by rewrite !lookup_insert_ne by done.
Qed.

Lemma rescaled_buffers_frame (z : Z) (p : pixmap) :
  buffers W !! z = Some p → z ≠ offscreen drv →
  buffers W' !! z = Some p ∧ z ≠ handle'.
Proof.
  intros Hz Hne.
  destruct (new_handle_fresh (with_driver_deleted ps drv pm W)) as (_ & Hf).
  fold (rescaled_handle ps drv pm W) in Hf. fold handle' in Hf.
  unfold with_driver_deleted in Hf. cbn [buffers with_buffers with_heap] in Hf.
  assert (z ≠ handle') as Hzh.
  { intros ->. rewrite lookup_delete_ne in Hf by done. congruence. }
  split; [|done]. subst W'. unfold rescaled. world_simpl.
  rewrite lookup_insert_ne by done.
  unfold with_driver_deleted. world_simpl. by rewrite lookup_delete_ne.
Qed.
End rescaled_objects.

Lemma inv_rescaled (paint : Fl_RGB_Image → list Z → Z → Z → pixmap → list Z)
    (W : World) (i : Z) (s ps : addr) (drv : Fl_Image_Surface_Driver)
    (pm : pixmap) :
  registry_inv W → slot_owner W i s ps drv →
  buffers W !! offscreen drv = Some pm →
  registry_inv (rescaled paint s ps drv pm W).
Proof.
  intros Hinv Ho Hpm. pose proof Ho as (Hi & Hslot & Hs & Hps).
  assert (surface_at W s ps drv pm) as Hat by done.
  destruct (rescaled_surface paint W s ps drv pm Hat) as ((Hs' & Hps' & Hpm') & Hh0 & _).
  set (W' := rescaled paint s ps drv pm W) in *.
  set (ps' := rescaled_driver_addr ps drv pm W) in *.
  set (handle' := rescaled_handle ps drv pm W) in *.
  set (drv' := mkDriver None (width drv) (height drv) handle' false) in *.
  assert (offscreen_api_surface W' = offscreen_api_surface W) as Hreg by reflexivity.
  assert (count_offscreens W' = count_offscreens W) as Hcnt by reflexivity.
  assert (max W' = max W) as Hmax by reflexivity.
  (* the owner of a slot after the call *)
  assert (∀ j sj psj drvj, slot_owner W j sj psj drvj → j ≠ i →
            slot_owner W' j sj psj drvj ∧ sj ≠ s ∧ psj ≠ ps' ∧
            offscreen drvj ≠ handle' ∧
            is_Some (buffers W' !! offscreen drvj)) as Hother.
  { intros j sj psj drvj Hoj Hne. pose proof Hoj as (Hj & Hslotj & Hsj & Hpsj).
    assert (sj ≠ s) as Hss.
    { intros ->. apply Hne. eapply (ri_inj _ Hinv); eauto. }
    assert (psj ≠ ps) as Hpp.
    { intros ->. apply Hne. eapply (ri_inj _ Hinv); eauto. }
    assert (offscreen drvj ≠ offscreen drv) as Hoo.
    { intros E. apply Hne. eapply (ri_inj _ Hinv); eauto. }
    assert (sj ≠ ps) as Hsp by congruence.
    assert (psj ≠ s) as Hps_s by congruence.
    destruct (rescaled_heap_frame paint W s ps drv pm Hat sj _ Hsj Hss Hsp)
      as (Hsj' & _).
    destruct (rescaled_heap_frame paint W s ps drv pm Hat psj _ Hpsj Hps_s Hpp)
      as (Hpsj' & Hpsj'').
    destruct (ri_live _ Hinv j sj Hj Hslotj) as (p0 & d0 & Ho0 & _ & _ & [pmj Hpmj]).
    destruct (slot_owner_fun _ _ _ _ _ _ _ Ho0 Hsj Hpsj) as [-> ->].
    destruct (rescaled_buffers_frame paint W s ps drv pm _ _ Hpmj Hoo)
      as (Hb' & Hb'').
    split; [by split; [|split; [|split]]|]. split; [done|]. split; [done|].
    split; [done|by eexists]. }
  assert (slot_owner W' i s ps' drv') as Ho'.
  { by split; [|split; [|split]]. }
  assert (∀ j sj psj drvj, slot_owner W' j sj psj drvj →
            (j = i ∧ sj = s ∧ psj = ps' ∧ drvj = drv') ∨
            (j ≠ i ∧ slot_owner W j sj psj drvj)) as Hback.
  { intros j sj psj drvj (Hj & Hslotj & Hsj & Hpsj).
    rewrite Hcnt in Hj. rewrite Hreg in Hslotj.
    destruct (decide (j = i)) as [->|Hne].
    - left. assert (sj = s) as -> by congruence.
      assert (psj = ps') as -> by congruence.
      split; [done|]. split; [done|]. split; [done|]. congruence.
    - right. split; [done|].
      destruct (ri_live _ Hinv j sj Hj Hslotj) as (p0 & d0 & Ho0 & _).
      destruct (Hother j sj p0 d0 Ho0 Hne) as ((_ & _ & Hsj0 & Hpsj0) & _).
      assert (psj = p0) as -> by congruence.
      assert (drvj = d0) as -> by congruence. done. }
  constructor.
  - rewrite Hcnt, Hmax. apply Hinv.
  - rewrite Hreg, Hmax. apply Hinv.
  - rewrite Hmax. apply Hinv.
  - intros j sj Hj Hslotj. rewrite Hcnt in Hj. rewrite Hreg in Hslotj.
    destruct (decide (j = i)) as [->|Hne].
    + assert (sj = s) as -> by congruence.
      exists ps', drv'. split; [done|]. split; [done|]. split; [done|].
      by eexists.
    + destruct (ri_live _ Hinv j sj Hj Hslotj)
        as (p0 & d0 & Ho0 & Hext & Hoff & _).
      destruct (Hother j sj p0 d0 Ho0 Hne) as (Hoj & _ & _ & _ & Hbj).
      by exists p0, d0.
  - intros j1 j2 s1 s2 p1 p2 d1 d2 Ho1 Ho2 Hsame.
    destruct (Hback _ _ _ _ Ho1) as [(-> & -> & -> & ->)|(Hne1 & Ho1')];
      destruct (Hback _ _ _ _ Ho2) as [(-> & -> & -> & ->)|(Hne2 & Ho2')];
      try done.
    + destruct (Hother _ _ _ _ Ho2' Hne2) as (_ & ? & ? & ? & _).
      unfold drv' in Hsame. cbn [offscreen] in Hsame.
      destruct Hsame as [?|[?|?]]; congruence.
    + destruct (Hother _ _ _ _ Ho1' Hne1) as (_ & ? & ? & ? & _).
      unfold drv' in Hsame. cbn [offscreen] in Hsame.
      destruct Hsame as [?|[?|?]]; congruence.
    + by eapply (ri_inj _ Hinv).
Qed.

Lemma rescale_offscreen_run_hit
    (paint : Fl_RGB_Image → list Z → Z → Z → pixmap → list Z)
    (W : World) (i : Z) (s ps : addr) (drv : Fl_Image_Surface_Driver)
    (pm : pixmap) :
  registry_inv W → slot_owner W i s ps drv →
  buffers W !! offscreen drv = Some pm → surface_ W ≠ ps →
  fl_rescale_offscreen paint (offscreen drv) W
  = Some (rescaled_handle ps drv pm W, rescaled paint s ps drv pm W).
Proof.
  intros Hinv Ho Hpm Hcur. pose proof Ho as (Hi & Hslot & Hs & Hps).
  destruct (ri_live _ Hinv i s Hi Hslot)
    as (ps0 & drv0 & Ho0 & Hext & Hoff & _).
  destruct (slot_owner_fun _ _ _ _ _ _ _ Ho0 Hs Hps) as [-> ->].
  assert (surface_at W s ps drv pm) as Hat by done.
  destruct (rescaled_surface paint W s ps drv pm Hat) as ((Hs' & Hps' & _) & _).
  unfold fl_rescale_offscreen.
  erewrite bind_some by reflexivity.
  erewrite bind_some; last first.
  { apply (find_offscreen_hit _ 0 i _ W s); [lia|lia| |].
    - intros k Hk. apply (inv_misses_others W i s ps drv Hinv Ho); lia.
    - split; [done|]. by eapply slot_owner_handle. }
  cbv beta iota.
  rewrite (bind_some _ _ _ _ _ (read_slot_run W i _ ltac:(lia) Hslot)).
  erewrite bind_some by reflexivity.
  rewrite (bind_some _ _ _ _ _
             (rescale_run paint W s ps drv pm Hat Hext Hoff Hcur)).
  erewrite bind_some; last first.
  { apply (read_slot_run _ i (Some s)); [lia|exact Hslot]. }
  erewrite bind_some by reflexivity.
  apply offscreen_run. unfold handle_of. rewrite Hs'. cbn [platform_surface].
  by rewrite Hps'.
Qed.

(** *** The states the fl_XXX_offscreen() functions reach *)

Lemma reachable_api (W : World) : reachable W → api_reachable W.
Proof.
  induction 1 as [sc|W W' w h ctx _ IH Hrun|W W' ctx _ IH Hrun].
  - apply api_start.
  - by eapply api_create.
  - by eapply api_delete.
Qed.

Lemma begin_run_cases (W : World) (ctx : Z) :
  registry_inv W →
  ∃ W', fl_begin_offscreen ctx W = Some (tt, W') ∧
    (W' = W ∨ ∃ ps, W' = with_surface ps (surface_ W :: surface_stack W) W).
Proof.
  intros Hinv.
  destruct (handle_slot_cases W ctx Hinv) as [Hmiss|(i & s & Hi & Hmiss & Hhit)].
  - exists W. split; [by apply begin_run_miss|by left].
  - destruct (slot_hits_slot_owner W ctx i s Hinv Hi Hhit)
      as (ps & drv & Ho & Hctx & _).
    eexists. split; [by apply (begin_run_hit W ctx i s ps drv)|].
    right. by exists ps.
Qed.

Lemma end_run_cases (W W' : World) :
  fl_end_offscreen W = Some (tt, W') →
  ∃ prev rest, W' = with_surface prev rest W.
Proof.
  unfold fl_end_offscreen, pop_current. unfold_monad.
  destruct (surface_stack W) as [|prev rest]; [done|].
  intros [= <-]. by exists prev, rest.
Qed.

Lemma rescale_offscreen_run_cases
    (paint : Fl_RGB_Image → list Z → Z → Z → pixmap → list Z)
    (W : World) (ctx : Z) :
  registry_inv W →
  (∀ i s ps drv, slot_owner W i s ps drv → offscreen drv = ctx →
     surface_ W ≠ ps) →
  fl_rescale_offscreen paint ctx W = Some (ctx, W) ∨
  ∃ i s ps drv pm,
    slot_owner W i s ps drv ∧ offscreen drv = ctx ∧
    buffers W !! ctx = Some pm ∧
    fl_rescale_offscreen paint ctx W
    = Some (rescaled_handle ps drv pm W, rescaled paint s ps drv pm W).
Proof.
  intros Hinv Hcur.
  destruct (handle_slot_cases W ctx Hinv) as [Hmiss|(i & s & Hi & Hmiss & Hhit)].
  - left. by apply rescale_offscreen_run_miss.
  - right.
    destruct (slot_hits_slot_owner W ctx i s Hinv Hi Hhit)
      as (ps & drv & Ho & Hctx & _ & _ & [pm Hpm]).
    exists i, s, ps, drv, pm. split; [done|]. split; [done|]. split; [done|].
    subst ctx. apply (rescale_offscreen_run_hit paint W i s ps drv pm Hinv Ho Hpm).
    by eapply Hcur.
Qed.

Lemma api_reachable_inv (W : World) : api_reachable W → registry_inv W.
Proof.
  induction 1 as [sc|W W' w h ctx _ IH Hrun|W W' ctx _ IH Hrun
                 |W W' ctx _ IH Hrun|W W' _ IH Hrun
                 |paint W W' ctx ctx' _ IH Hcur Hrun].
  - apply initial_inv.
  - by eapply inv_create.
  - by eapply inv_delete.
  - destruct (begin_run_cases W ctx IH) as (W1 & Hrun' & Hcase).
    rewrite Hrun in Hrun'. injection Hrun' as ->.
    destruct Hcase as [->|(ps & ->)]; [done|by apply inv_with_surface].
  - destruct (end_run_cases W W' Hrun) as (prev & rest & ->).
    by apply inv_with_surface.
  - destruct (rescale_offscreen_run_cases paint W ctx IH Hcur)
      as [Hrun'|(i & s & ps & drv & pm & Ho & Hctx & Hpm & Hrun')];
      rewrite Hrun in Hrun'; injection Hrun' as _ ->; [done|].
    apply (inv_rescaled paint W i s ps drv pm IH Ho). by rewrite Hctx.
Qed.

(** In every state the fl_XXX_offscreen() functions reach, the display is
    object 1 and lies at the bottom of the activation stack. *)
Lemma api_display (W : World) : api_reachable W → display_inv W.
Proof.
  induction 1 as [sc|W W' w h ctx Hreach IH Hrun|W W' ctx Hreach IH Hrun
                 |W W' ctx Hreach IH Hrun|W W' Hreach IH Hrun
                 |paint W W' ctx ctx' Hreach IH Hcur Hrun];
    try pose proof (api_reachable_inv _ Hreach) as Hinv;
    try destruct IH as [Hdev Hlast].
  - done.
  - destruct (create_keeps_surface W W' w h ctx Hinv Hrun) as (Hc & Hk & Hh).
    split; [|by rewrite Hc, Hk].
    unfold is_device in *. rewrite Hh; [done|by eexists].
  - destruct (delete_keeps_display W W' ctx Hinv Hrun)
      as (Hd' & [(Hc & Hk)|(drv & _ & Hstk)]).
    + split; [by apply Hd'|by rewrite Hc, Hk].
    + split; [by apply Hd'|]. rewrite Hstk in Hlast. exact Hlast.
  - destruct (begin_run_cases W ctx Hinv) as (W1 & Hrun' & Hcase).
    rewrite Hrun in Hrun'. injection Hrun' as ->.
    by destruct Hcase as [->|(ps & ->)].
  - revert Hrun Hlast. unfold fl_end_offscreen, pop_current. unfold_monad.
    destruct (surface_stack W) as [|prev rest]; [done|].
    intros [= <-] Hlast. split; [done|]. exact Hlast.
  - destruct (rescale_offscreen_run_cases paint W ctx Hinv Hcur)
      as [Hrun'|(i & s & ps & drv & pm & Ho & Hctx & Hpm & Hrun')];
      rewrite Hrun in Hrun'; injection Hrun' as _ ->; [done|].
    split; [|exact Hlast].
    destruct Ho as (_ & _ & Hs & Hps).
    assert (surface_at W s ps drv pm) as Hat.
    { split; [done|]. split; [done|]. by rewrite Hctx. }
    unfold is_device in *.
    apply (rescaled_heap_frame paint W s ps drv pm Hat 1%positive Device Hdev);
      congruence.
Qed.

(** In such a state the surface of a slot can always be deactivated: a
    driver that is the current surface has the display under it. *)
Lemma display_deactivated (W : World) (ps : addr) (drv : Fl_Image_Surface_Driver) :
  display_inv W → heap_ W !! ps = Some (Drv drv) →
  ∃ cur stk, deactivated W ps cur stk.
Proof.
  intros [Hdev Hlast] Hps.
  destruct (deactivated_cases W ps) as [[Hcur Hstk]|Hde]; [|done].
  rewrite Hcur, Hstk in Hlast. injection Hlast as ->.
  unfold is_device in Hdev. congruence.
Qed.

(** X13. The handles of the registry.  In every state a program reaches
    through the fl_XXX_offscreen() functions, the slots in use lie within
    the array, and every taken slot holds a live surface whose buffer handle
    is not null, names a live buffer, and is the handle of no other slot: a
    handle identifies one offscreen. *)
Theorem reachable_handles_unique (W : World) :
  api_reachable W →
  0 ≤ count_offscreens W ≤ Z.of_nat (length (offscreen_api_surface W)) ∧
  ∀ i s, 0 ≤ i < count_offscreens W →
    offscreen_api_surface W !! Z.to_nat i = Some (Some s) →
    ∃ ctx pm,
      Fl_Image_Surface_offscreen s W = Some (ctx, W) ∧
      ctx ≠ 0 ∧ buffers W !! ctx = Some pm ∧
      ∀ j s', 0 ≤ j < count_offscreens W →
        offscreen_api_surface W !! Z.to_nat j = Some (Some s') →
        s' = s ∨ Fl_Image_Surface_offscreen s' W = Some (ctx, W) → j = i.
Proof.
  intros Hinv%api_reachable_inv. split.
  { pose proof (ri_count _ Hinv). pose proof (ri_length _ Hinv). lia. }
  intros i s Hi Hslot.
  destruct (ri_live _ Hinv i s Hi Hslot) as (ps & drv & Ho & Hext & Hoff & [pm Hpm]).
  exists (offscreen drv), pm.
  split; [by eapply offscreen_run, slot_owner_handle|].
  split; [done|]. split; [done|].
  intros j s' Hj Hslot' Hsame.
  destruct (ri_live _ Hinv j s' Hj Hslot') as (ps' & drv' & Ho' & _).
  apply (ri_inj _ Hinv j i s' s ps' ps drv' drv Ho' Ho).
  destruct Hsame as [->|Hrun]; [by left|]. right. right.
  rewrite (offscreen_run _ _ _ (slot_owner_handle _ _ _ _ _ Ho')) in Hrun.
  congruence.
Qed.

Lemma reachable_handles_unique_witness :
  ∃ ctx pm,
    Fl_Image_Surface_offscreen 4%positive three_offscreens
    = Some (ctx, three_offscreens) ∧
    ctx ≠ 0 ∧ buffers three_offscreens !! ctx = Some pm.
Proof.
  destruct (reachable_handles_unique three_offscreens
              (reachable_api _ three_offscreens_reachable))
    as (_ & Hall).
  destruct (Hall 1 4%positive) as (ctx & pm & H1 & H2 & H3 & _).
  - rewrite three_offscreens_count. lia.
  - apply three_offscreens_slots.
  - exists ctx, pm. split; [exact H1|]. split; [exact H2|exact H3].
Defined.

(** The capacity is a multiple of 20 with fewer than 20 unused slots. *)
Lemma api_reachable_bounds (W : World) :
  api_reachable W →
  max W `mod` 20 = 0 ∧ count_offscreens W ≤ max W < count_offscreens W + 20.
Proof.
  induction 1 as [sc|W W' w h ctx Hreach IH Hrun|W W' ctx Hreach IH Hrun
                 |W W' ctx Hreach IH Hrun|W W' Hreach IH Hrun
                 |paint W W' ctx ctx' Hreach IH Hcur Hrun];
    try pose proof (api_reachable_inv _ Hreach) as Hinv.
  - unfold initial_world. world_simpl. split; [reflexivity|lia].
  - destruct (create_run W w h Hinv) as (rank & W1 & Hrun' & _ & Hcase).
    rewrite Hrun in Hrun'. injection Hrun' as _ ->.
    unfold with_slot, with_new_surface. world_simpl.
    destruct Hcase as [(_ & _ & _ & ->)|(_ & _ & ->)]; [done|].
    destruct (appended_slot_fields W Hinv) as (_ & _ & Hc & _ & _ & Hm & Hmax & _).
    cbn zeta in Hc, Hm, Hmax. rewrite Hc, Hmax. rewrite Hmax in Hm.
    split; [done|]. case_bool_decide; lia.
  - destruct (delete_run W ctx Hinv)
      as [Hrun'|(i & s & ps & drv & _ & _ & _ &
                 [(_ & _ & Hrun')|(cur & stk & _ & Hrun')])];
      rewrite Hrun in Hrun'; [|discriminate|];
      injection Hrun' as ->; [done|].
    unfold with_slot, without_surface. by world_simpl.
  - destruct (begin_run_cases W ctx Hinv) as (W1 & Hrun' & Hcase).
    rewrite Hrun in Hrun'. injection Hrun' as ->.
    by destruct Hcase as [->|(ps & ->)].
  - by destruct (end_run_cases W W' Hrun) as (prev & rest & ->).
  - destruct (rescale_offscreen_run_cases paint W ctx Hinv Hcur)
      as [Hrun'|(i & s & ps & drv & pm & _ & _ & _ & Hrun')];
      rewrite Hrun in Hrun'; injection Hrun' as _ ->; done.
Qed.

(** X14. The capacity of the registry.  In every state a program reaches
    through the fl_XXX_offscreen() functions the capacity [max] that
    [find_slot] keeps is the least multiple of 20 that holds the slots in
    use: the array is grown only when every slot is in use, and never holds
    20 unused slots or more. *)
Theorem reachable_capacity (W : World) :
  api_reachable W →
  max W = 20 * ((count_offscreens W + 19) `div` 20) ∧
  count_offscreens W ≤ max W < count_offscreens W + 20.
Proof.
  intros [Hmod Hb]%api_reachable_bounds. split; [|done].
  pose proof (Z.div_mod (max W) 20 ltac:(lia)) as Hdm.
  rewrite Hmod in Hdm.
  assert ((count_offscreens W + 19) `div` 20 = max W `div` 20) as ->; [|lia].
  symmetry.
  apply (Z.div_unique _ 20 _ (count_offscreens W + 19 - max W)); lia.
Qed.

Lemma reachable_capacity_witness :
  max three_offscreens = 20 * ((count_offscreens three_offscreens + 19) `div` 20).
Proof.
  exact (proj1 (reachable_capacity three_offscreens
                  (reachable_api _ three_offscreens_reachable))).
Defined.

Lemma new_surface_frame (W W1 : World) (w h rank : Z) :
  heap_ W1 = heap_ W → buffers W1 = buffers W →
  let W' := with_slot rank (Some (new_surface_addr W1)) (with_new_surface w h W1) in
  (∀ a, is_Some (heap_ W !! a) → heap_ W' !! a = heap_ W !! a) ∧
  (∀ z, is_Some (buffers W !! z) → buffers W' !! z = buffers W !! z) ∧
  (∀ s, is_Some (handle_of W s) → handle_of W' s = handle_of W s).
Proof.
  intros Hh Hb W'.
  destruct (new_addrs_fresh W1) as (Hs & Hps & Hne).
  destruct (new_handle_fresh W1) as (_ & Hhb).
  rewrite Hh in Hs, Hps. rewrite Hb in Hhb.
  assert (∀ a, is_Some (heap_ W !! a) → heap_ W' !! a = heap_ W !! a) as Hframe.
  { intros a [o Ha]. subst W'. unfold with_slot, with_new_surface. world_simpl.
    rewrite Hh. rewrite !lookup_insert_ne; [done|intros <-; congruence..]. }
  split; [exact Hframe|]. split.
  - intros z [pm Hz]. subst W'. unfold with_slot, with_new_surface. world_simpl.
    rewrite Hb. rewrite lookup_insert_ne; [done|intros <-; congruence].
  - intros s [z Hz]. unfold handle_of in *.
    destruct (heap_ W !! s) as [[| |?|sf|? ? ?|]|] eqn:Es; try done.
    rewrite (Hframe s) by (by rewrite Es). rewrite Es.
    destruct (platform_surface sf) as [ps|]; [|done].
    destruct (heap_ W !! ps) as [[| |drv|?|? ? ?|]|] eqn:Ep; try done.
    rewrite (Hframe ps) by (by rewrite Ep). by rewrite Ep.
Qed.

(** X15. [fl_create_offscreen(w, h)] in a state reached through the
    fl_XXX_offscreen() functions returns a handle that is not null and named no
    buffer before; the buffer it names has the pixel size of [w] x [h]
    units at the current scale factor.  Every object and buffer that was
    live, every offscreen of the registry with its handle, the current
    surface and the stack are as they were. *)
Theorem create_keeps_others (W : World) (w h : Z) :
  api_reachable W →
  ∃ (ctx : Z) (W' : World) (pm : pixmap),
    fl_create_offscreen w h W = Some (ctx, W') ∧
    ctx ≠ 0 ∧ buffers W !! ctx = None ∧ buffers W' !! ctx = Some pm ∧
    pm_w pm = physical (scale_ W) w ∧ pm_h pm = physical (scale_ W) h ∧
    Z.of_nat (length (pm_bytes pm)) = Z.max 0 (3 * pm_w pm * pm_h pm) ∧
    (∀ a, is_Some (heap_ W !! a) → heap_ W' !! a = heap_ W !! a) ∧
    (∀ z, is_Some (buffers W !! z) → buffers W' !! z = buffers W !! z) ∧
    (∀ k s, 0 ≤ k < count_offscreens W →
       offscreen_api_surface W !! Z.to_nat k = Some (Some s) →
       offscreen_api_surface W' !! Z.to_nat k = Some (Some s) ∧
       Fl_Image_Surface_offscreen s W' = Some (default 0 (handle_of W s), W') ∧
       Fl_Image_Surface_offscreen s W = Some (default 0 (handle_of W s), W)) ∧
    surface_ W' = surface_ W ∧ surface_stack W' = surface_stack W ∧
    scale_ W' = scale_ W.
Proof.
  intros Hinv%api_reachable_inv.
  destruct (create_run W w h Hinv) as (rank & W1 & Hrun & Hinv' & Hcase).
  set (W' := with_slot rank (Some (new_surface_addr W1)) (with_new_surface w h W1))
    in *.
  assert (heap_ W1 = heap_ W ∧ buffers W1 = buffers W ∧ scale_ W1 = scale_ W ∧
          surface_ W1 = surface_ W ∧ surface_stack W1 = surface_stack W ∧
          ∀ k, 0 ≤ k < count_offscreens W → k ≠ rank ∧
            offscreen_api_surface W1 !! Z.to_nat k
            = offscreen_api_surface W !! Z.to_nat k ∨
            offscreen_api_surface W !! Z.to_nat k = Some None)
    as (Hh & Hb & Hsc & Hcur & Hstk & Hslots).
  { destruct Hcase as [(Hr & _ & Hfree & ->)|(_ & -> & ->)].
    - repeat (split; [done|]). intros k Hk.
      destruct (decide (k = rank)) as [->|Hne]; [by right|by left].
    - destruct (appended_slot_fields W Hinv) as (H1 & H2 & _ & _ & _ & _ & _ & H3).
      split; [done|]. split; [done|].
      split; [unfold with_appended_slot; by case_bool_decide|].
      split; [unfold with_appended_slot; by case_bool_decide|].
      split; [unfold with_appended_slot; by case_bool_decide|].
      intros k Hk. left. split; [lia|]. by apply H3. }
  destruct (new_surface_frame W W1 w h rank Hh Hb) as (Hfh & Hfb & Hfo).
  fold W' in Hfh, Hfb, Hfo.
  destruct (new_handle_fresh W1) as (Hn0 & Hnb).
  exists (new_handle W1), W', (new_pixmap W1 w h).
  split; [exact Hrun|]. split; [done|]. split; [by rewrite <- Hb|].
  split.
  { subst W'. unfold with_slot, with_new_surface. world_simpl.
    apply lookup_insert_eq. }
  unfold new_pixmap. cbn [pm_w pm_h pm_bytes]. rewrite Hsc.
  split; [done|]. split; [done|].
  split; [rewrite length_replicate; lia|].
  split; [exact Hfh|]. split; [exact Hfb|].
  split; [|by subst W'; unfold with_slot, with_new_surface; world_simpl].
  intros k s Hk Hslot.
  destruct (ri_live _ Hinv k s Hk Hslot) as (ps & drv & Ho & _).
  pose proof (slot_owner_handle _ _ _ _ _ Ho) as Hho.
  split.
  { destruct (Hslots k Hk) as [[Hne Heq]|Hnone]; [|congruence].
    subst W'. unfold with_slot, with_new_surface. world_simpl.
    rewrite list_lookup_insert_ne by lia. by rewrite Heq. }
  rewrite Hho. cbn [default]. split.
  - apply offscreen_run. rewrite Hfo; [done|by rewrite Hho].
  - by apply offscreen_run.
Qed.

Lemma create_keeps_others_witness :
  ∃ ctx W' pm,
    fl_create_offscreen 5 7 three_offscreens = Some (ctx, W') ∧
    ctx ≠ 0 ∧ buffers W' !! ctx = Some pm ∧ pm_w pm = 10 ∧ pm_h pm = 14 ∧
    Fl_Image_Surface_offscreen 4%positive W' = Some (2, W').
Proof.
  destruct (create_keeps_others three_offscreens 5 7
              (reachable_api _ three_offscreens_reachable))
    as (ctx & W' & pm & H1 & H2 & _ & H3 & H4 & H5 & _ & _ & _ & H6 & _).
  exists ctx, W', pm.
  split; [exact H1|]. split; [exact H2|]. split; [exact H3|].
  split; [exact H4|]. split; [exact H5|].
  destruct (H6 1 4%positive) as (_ & H7 & _).
  - rewrite three_offscreens_count. lia.
  - apply three_offscreens_slots.
  - destruct three_offscreens_handles as (_ & Hh & _).
    rewrite Hh in H7. exact H7.
Defined.

(** The slot a creation fills is the first slot that holds the handle it
    returns. *)
Lemma created_slot_hits (W1 : World) (w h rank : Z) :
  let W' := with_slot rank (Some (new_surface_addr W1)) (with_new_surface w h W1) in
  registry_inv W' →
  0 ≤ rank < count_offscreens W1 →
  rank < Z.of_nat (length (offscreen_api_surface W1)) →
  slot_owner W' rank (new_surface_addr W1) (new_driver_addr W1)
    (mkDriver (Some (new_surface_addr W1)) w h (new_handle W1) false) ∧
  slot_hits W' (new_handle W1) rank (new_surface_addr W1) ∧
  ∀ k, 0 ≤ k < rank → slot_misses W' (new_handle W1) k.
Proof.
  intros W' Hinv Hr Hlen.
  destruct (new_addrs_fresh W1) as (_ & _ & Hne).
  assert (slot_owner W' rank (new_surface_addr W1) (new_driver_addr W1)
            (mkDriver (Some (new_surface_addr W1)) w h (new_handle W1) false))
    as Ho.
  { subst W'. unfold slot_owner, with_slot, with_new_surface. world_simpl.
    split; [done|]. split; [apply list_lookup_insert_eq; lia|].
    split; [rewrite lookup_insert_ne by done; apply lookup_insert_eq|].
    apply lookup_insert_eq. }
  split; [exact Ho|]. split.
  - split; [by destruct Ho as (_ & ? & _)|]. apply handle_of_new_surface.
  - intros k Hk.
    apply (inv_misses_others W' rank _ _ _ Hinv Ho k); [|lia].
    subst W'. unfold with_slot, with_new_surface. world_simpl. lia.
Qed.

(** X16. Creating an offscreen and deleting it again.  In a state reached
    through the fl_XXX_offscreen() functions, [fl_delete_offscreen] of the
    handle [fl_create_offscreen] has just returned finds the new surface
    and destroys it with its driver and buffer: the objects, the buffers
    and every slot that was in use are as before the creation.  When the
    current surface is a live object, so that the new surface is not the
    current one, the current surface and the stack are as before too, and
    the whole state is when the creation took a free slot. *)
Theorem create_then_delete (W : World) (w h : Z) :
  api_reachable W →
  ∃ (ctx : Z) (W1 W2 : World),
    fl_create_offscreen w h W = Some (ctx, W1) ∧
    fl_delete_offscreen ctx W1 = Some (tt, W2) ∧
    heap_ W2 = heap_ W ∧ buffers W2 = buffers W ∧
    (∀ k, 0 ≤ k < count_offscreens W →
       offscreen_api_surface W2 !! Z.to_nat k
       = offscreen_api_surface W !! Z.to_nat k) ∧
    (is_Some (heap_ W !! surface_ W) →
     surface_ W2 = surface_ W ∧ surface_stack W2 = surface_stack W ∧
     ((∃ k, 0 ≤ k < count_offscreens W ∧
            offscreen_api_surface W !! Z.to_nat k = Some None) → W2 = W)).
Proof.
  intros Hreach. pose proof (api_reachable_inv W Hreach) as Hinv.
  destruct (create_run W w h Hinv) as (rank & W1 & Hrun & Hinv' & Hcase).
  pose proof (api_display _ (api_create W _ w h _ Hreach Hrun)) as Hdisp.
  set (s := new_surface_addr W1) in *. set (ps := new_driver_addr W1) in *.
  set (ctx := new_handle W1) in *.
  set (drv := mkDriver (Some s) w h ctx false).
  set (W' := with_slot rank (Some s) (with_new_surface w h W1)) in *.
  assert (heap_ W1 = heap_ W ∧ buffers W1 = buffers W ∧
          surface_ W1 = surface_ W ∧ surface_stack W1 = surface_stack W ∧
          0 ≤ rank < count_offscreens W1 ∧
          rank < Z.of_nat (length (offscreen_api_surface W1)) ∧
          (∀ k, 0 ≤ k < count_offscreens W →
             (<[Z.to_nat rank := None]> (offscreen_api_surface W1)) !! Z.to_nat k
             = offscreen_api_surface W !! Z.to_nat k))
    as (Hh & Hb & Hcur & Hstk & Hr & Hlen & Hslots).
  { destruct Hcase as [(Hr & _ & Hfree & ->)|(_ & Hrk & ->)].
    - repeat (split; [done|]). split.
      { by apply lookup_lt_Some in Hfree; lia. }
      intros k Hk. by rewrite list_insert_id.
    - destruct (appended_slot_fields W Hinv)
        as (H1 & H2 & H3 & H4 & H5 & _ & _ & H6).
      cbn zeta in *. pose proof (ri_count _ Hinv).
      split; [done|]. split; [done|].
      split; [unfold with_appended_slot; by case_bool_decide|].
      split; [unfold with_appended_slot; by case_bool_decide|].
      split; [lia|]. split; [lia|].
      intros k Hk. rewrite list_lookup_insert_ne by lia. by apply H6. }
  destruct (created_slot_hits W1 w h rank Hinv' Hr Hlen) as (Ho & Hhit & Hmiss).
  fold s ps ctx W' in Ho, Hhit, Hmiss. fold drv in Ho.
  destruct (new_addrs_fresh W1) as (Hs & Hps & Hne). fold s ps in Hs, Hps, Hne.
  destruct (new_handle_fresh W1) as (Hn0 & Hnb). fold ctx in Hn0, Hnb.
  pose proof Ho as (_ & _ & Hs' & Hps').
  destruct (display_deactivated W' ps drv Hdisp Hps') as (cur & stk & Hde).
  exists ctx, W',
    (with_surface cur stk (with_slot rank None (without_surface s ps drv W'))).
  split; [exact Hrun|].
  split.
  { apply delete_run_hit_any; done. }
  assert (heap_ (with_slot rank None (without_surface s ps drv W')) = heap_ W)
    as Hheap.
  { unfold with_slot, without_surface. subst W'.
    unfold with_slot, with_new_surface. world_simpl. fold s ps.
    rewrite delete_fresh_pair by done. exact Hh. }
  assert (buffers (with_slot rank None (without_surface s ps drv W')) = buffers W)
    as Hbuf.
  { unfold with_slot, without_surface. subst W' drv.
    unfold with_slot, with_new_surface. world_simpl. fold ctx.
    rewrite bool_decide_eq_true_2 by done. cbn [negb andb].
    rewrite delete_insert_eq, delete_id by done. exact Hb. }
  assert (offscreen_api_surface (with_slot rank None (without_surface s ps drv W'))
          = <[Z.to_nat rank := None]> (offscreen_api_surface W1)) as Hreg.
  { unfold with_slot, without_surface. subst W'.
    unfold with_slot, with_new_surface. world_simpl.
    by rewrite list_insert_insert_eq. }
  split; [exact Hheap|]. split; [exact Hbuf|].
  split.
  { intros k Hk.
    change (offscreen_api_surface
              (with_slot rank None (without_surface s ps drv W')) !! Z.to_nat k
            = offscreen_api_surface W !! Z.to_nat k).
    rewrite Hreg. by apply Hslots. }
  intros [o Hlive].
  assert (surface_ W' ≠ ps) as Hnot.
  { change (surface_ W1 ≠ ps). rewrite Hcur. rewrite <- Hh in Hlive. congruence. }
  destruct Hde as [(_ & -> & ->)|(Hc & _)]; [|done].
  split; [exact Hcur|]. split; [exact Hstk|].
  intros (k & Hk & Hfree).
  destruct Hcase as [(_ & _ & Hfree' & HW1)|(Hfull & _)].
  - apply world_eq; [exact Hheap|exact Hbuf|..];
      [| | |change (offscreen_api_surface
                      (with_slot rank None (without_surface s ps drv W'))
                    = offscreen_api_surface W);
            rewrite Hreg, HW1; by rewrite list_insert_id| |];
      unfold with_slot, without_surface; subst W';
      unfold with_slot, with_new_surface; world_simpl; by rewrite HW1.
  - destruct (Hfull k Hk) as (s' & Hs''). congruence.
Qed.

Lemma create_then_delete_witness :
  ∃ ctx W1 W2,
    fl_create_offscreen 5 7 three_offscreens = Some (ctx, W1) ∧
    fl_delete_offscreen ctx W1 = Some (tt, W2) ∧
    heap_ W2 = heap_ three_offscreens ∧ buffers W2 = buffers three_offscreens ∧
    surface_ W2 = surface_ three_offscreens ∧
    surface_stack W2 = surface_stack three_offscreens.
Proof.
  destruct (create_then_delete three_offscreens 5 7
              (reachable_api _ three_offscreens_reachable))
    as (ctx & W1 & W2 & H1 & H2 & H3 & H4 & _ & H5).
  destruct H5 as (H5 & H6 & _).
  { vm_compute. by eexists. }
  exists ctx, W1, W2.
  split; [exact H1|]. split; [exact H2|]. split; [exact H3|].
  split; [exact H4|]. split; [exact H5|exact H6].
Defined.

(** After the surface of slot [i] is deleted no slot holds its handle. *)
Lemma deleted_handle_misses (W : World) (i : Z) (s ps : addr)
    (drv : Fl_Image_Surface_Driver) :
  registry_inv W → slot_owner W i s ps drv →
  let W' := with_slot i None (without_surface s ps drv W) in
  ∀ k, 0 ≤ k < count_offscreens W' → slot_misses W' (offscreen drv) k.
Proof.
  intros Hinv Ho W' k Hk.
  pose proof (inv_without_surface W i s ps drv Hinv Ho) as Hinv'. fold W' in Hinv'.
  assert (count_offscreens W' = count_offscreens W) as Hc by reflexivity.
  assert (offscreen_api_surface W'
          = <[Z.to_nat i := None]> (offscreen_api_surface W)) as Hreg
    by reflexivity.
  assert (heap_ W' = delete s (delete ps (heap_ W))) as Hheap by reflexivity.
  destruct (lookup_lt_is_Some_2 (offscreen_api_surface W') (Z.to_nat k))
    as [c Hc'].
  { pose proof (ri_count _ Hinv'). pose proof (ri_length _ Hinv'). lia. }
  destruct c as [s'|]; [|by exists None].
  destruct (ri_live _ Hinv' k s' Hk Hc') as (ps' & drv' & Ho' & _).
  exists (Some s'). split; [done|]. exists (offscreen drv').
  split; [by eapply slot_owner_handle|]. intros E.
  destruct Ho as (Hi & Hslot & Hs & Hps).
  assert (k ≠ i) as Hne.
  { intros ->. rewrite Hreg in Hc'.
    rewrite list_lookup_insert_eq in Hc'; [done|].
    apply lookup_lt_Some in Hslot. lia. }
  destruct Ho' as (_ & _ & Hs' & Hps').
  rewrite Hheap in Hs', Hps'.
  apply lookup_delete_Some in Hs' as (_ & (_ & Hs')%lookup_delete_Some).
  apply lookup_delete_Some in Hps' as (_ & (_ & Hps')%lookup_delete_Some).
  rewrite Hreg, list_lookup_insert_ne in Hc' by lia.
  apply Hne.
  apply (ri_inj _ Hinv k i s' s ps' ps drv' drv); [|done|by right; right].
  rewrite Hc in Hk. done.
Qed.

(** X17. A handle that was deleted.  In a state reached through the
    fl_XXX_offscreen() functions [fl_delete_offscreen] returns, and no slot holds
    the handle afterwards: deleting it a second time, [fl_begin_offscreen]
    and [fl_rescale_offscreen] on it all leave the state as it is. *)
Theorem delete_twice
    (paint : Fl_RGB_Image → list Z → Z → Z → pixmap → list Z)
    (W : World) (ctx : Z) :
  api_reachable W →
  ∃ W1,
    fl_delete_offscreen ctx W = Some (tt, W1) ∧
    fl_delete_offscreen ctx W1 = Some (tt, W1) ∧
    fl_begin_offscreen ctx W1 = Some (tt, W1) ∧
    fl_rescale_offscreen paint ctx W1 = Some (ctx, W1).
Proof.
  intros Hreach. pose proof (api_reachable_inv W Hreach) as Hinv.
  pose proof (api_display W Hreach) as Hdisp.
  assert (∃ W1, fl_delete_offscreen ctx W = Some (tt, W1) ∧
            ∀ k, 0 ≤ k < count_offscreens W1 → slot_misses W1 ctx k)
    as (W1 & Hrun & Hmiss).
  { destruct (handle_slot_cases W ctx Hinv)
      as [Hmiss|(i & s & Hi & Hmiss & Hhit)].
    - exists W. split; [by apply delete_run_miss|done].
    - destruct (slot_hits_slot_owner W ctx i s Hinv Hi Hhit)
        as (ps & drv & Ho & <- & Hn0 & _).
      pose proof Ho as (_ & _ & Hs & Hps).
      destruct (display_deactivated W ps drv Hdisp Hps) as (cur & stk & Hde).
      exists (with_surface cur stk
                (with_slot i None (without_surface s ps drv W))). split.
      + by apply delete_run_hit_any.
      + exact (deleted_handle_misses W i s ps drv Hinv Ho). }
  exists W1. split; [exact Hrun|]. split; [by apply delete_run_miss|].
  split; [by apply begin_run_miss|by apply rescale_offscreen_run_miss].
Qed.

Lemma delete_twice_witness :
  ∃ W1,
    fl_delete_offscreen 2 three_offscreens = Some (tt, W1) ∧
    fl_delete_offscreen 2 W1 = Some (tt, W1) ∧
    fl_begin_offscreen 2 W1 = Some (tt, W1).
Proof.
  destruct (delete_twice stretch three_offscreens 2
              (reachable_api _ three_offscreens_reachable))
    as (W1 & H1 & H2 & H3 & _).
  exists W1. split; [exact H1|]. split; [exact H2|exact H3].
Defined.

(** X18. [fl_begin_offscreen] and [fl_end_offscreen].  In a state that
    satisfies the registry invariant, [fl_begin_offscreen] on the handle of
    the surface of a slot makes the driver of that surface the current
    surface and puts the surface that was current on the stack, leaving
    everything else, so the invariant still holds and calls nest;
    [fl_end_offscreen] then gives back the state before the call. *)
Theorem begin_then_end (W : World) (i : Z) (s ps : addr)
    (drv : Fl_Image_Surface_Driver) :
  registry_inv W → slot_owner W i s ps drv →
  ∃ W1,
    fl_begin_offscreen (offscreen drv) W = Some (tt, W1) ∧
    surface_ W1 = ps ∧ surface_stack W1 = surface_ W :: surface_stack W ∧
    is_current s W1 = Some (true, W1) ∧
    heap_ W1 = heap_ W ∧ buffers W1 = buffers W ∧
    registry_inv W1 ∧
    fl_end_offscreen W1 = Some (tt, W) ∧
    (fl_begin_offscreen (offscreen drv);; fl_end_offscreen) W = Some (tt, W).
Proof.
  intros Hinv Ho. pose proof Ho as (Hi & Hslot & Hs & Hps).
  set (W1 := with_surface ps (surface_ W :: surface_stack W) W).
  assert (fl_begin_offscreen (offscreen drv) W = Some (tt, W1)) as Hrun.
  { apply (begin_run_hit W _ i s ps drv Ho eq_refl).
    intros k Hk. apply (inv_misses_others W i s ps drv Hinv Ho); lia. }
  assert (fl_end_offscreen W1 = Some (tt, W)) as Hend.
  { unfold fl_end_offscreen, pop_current. unfold_monad. subst W1. world_simpl.
    do 2 f_equal. by destruct W. }
  exists W1. split; [exact Hrun|]. split; [done|]. split; [done|].
  split.
  { unfold is_current. unfold_monad. subst W1. world_simpl. rewrite Hs.
    world_simpl. by rewrite bool_decide_eq_true_2. }
  split; [done|]. split; [done|].
  split; [by destruct Hinv|].
  split; [exact Hend|]. by rewrite (bind_some _ _ _ _ _ Hrun).
Qed.

Lemma begin_then_end_witness :
  ∃ W1,
    fl_begin_offscreen 2 three_offscreens = Some (tt, W1) ∧
    surface_ W1 = 5%positive ∧
    fl_end_offscreen W1 = Some (tt, three_offscreens).
Proof.
  destruct (begin_then_end three_offscreens 1 _ _ _
              (reachable_inv _ three_offscreens_reachable)
              three_offscreens_slot_1)
    as (W1 & H1 & H2 & _ & _ & _ & _ & _ & H3 & _).
  exists W1. split; [exact H1|]. split; [exact H2|exact H3].
Defined.

(** X19. [fl_begin_offscreen] on a handle that no slot holds pushes
    nothing, so the [fl_end_offscreen] that follows it is a bare
    [pop_current]: it pops the caller's own stack, making the surface on
    top of it the current one, and the current surface is not the one
    before the pair of calls. *)
Theorem begin_stale_then_end (W : World) (ctx : Z) :
  (∀ k, 0 ≤ k < count_offscreens W → slot_misses W ctx k) →
  (fl_begin_offscreen ctx;; fl_end_offscreen) W = pop_current W ∧
  ∀ prev rest, surface_stack W = prev :: rest →
    (fl_begin_offscreen ctx;; fl_end_offscreen) W
    = Some (tt, with_surface prev rest W).
Proof.
  intros Hmiss.
  assert ((fl_begin_offscreen ctx;; fl_end_offscreen) W = pop_current W) as Hrun.
  { by rewrite (bind_some _ _ _ _ _ (begin_run_miss W ctx Hmiss)). }
  split; [exact Hrun|]. rewrite Hrun. unfold pop_current. unfold_monad.
  by intros prev rest ->.
Qed.

Lemma begin_stale_then_end_witness :
  let W := with_surface 5%positive [1%positive] three_offscreens in
  (fl_begin_offscreen 9;; fl_end_offscreen) W = Some (tt, three_offscreens).
Proof.
  intros W.
  destruct (begin_stale_then_end W 9) as [_ H].
  - intros k Hk.
    assert (0 ≤ k < 3) as Hk'.
    { replace 3 with (count_offscreens three_offscreens)
        by exact three_offscreens_count. exact Hk. }
    exact (three_offscreens_misses 9 k ltac:(lia) ltac:(lia) ltac:(lia) Hk').
  - rewrite (H 1%positive [] eq_refl). vm_compute. reflexivity.
Defined.

(** The buffers a creation leaves: those there were, and the new one. *)
Lemma create_buffers (W : World) (w h : Z) :
  registry_inv W →
  ∃ (ctx : Z) (W' : World) (pm : pixmap),
    fl_create_offscreen w h W = Some (ctx, W') ∧
    ctx ≠ 0 ∧ buffers W !! ctx = None ∧
    buffers W' = <[ctx := pm]> (buffers W).
Proof.
  intros Hinv.
  destruct (create_run W w h Hinv) as (rank & W1 & Hrun & _ & Hcase).
  assert (buffers W1 = buffers W) as Hb.
  { destruct Hcase as [(_ & _ & _ & ->)|(_ & _ & ->)]; [done|].
    by destruct (appended_slot_fields W Hinv) as (_ & ? & _). }
  destruct (new_handle_fresh W1) as (Hn0 & Hnb).
  eexists _, _, _. split; [exact Hrun|]. split; [done|].
  split; [by rewrite <- Hb|].
  unfold with_slot, with_new_surface. world_simpl. by rewrite Hb.
Qed.

Lemma create_n_handles (n : nat) (w h : Z) (W : World) :
  api_reachable W →
  ∃ (ctxs : list Z) (W' : World),
    create_n n w h W = Some (ctxs, W') ∧ api_reachable W' ∧
    length ctxs = n ∧ NoDup ctxs ∧
    (∀ ctx, ctx ∈ ctxs →
       ctx ≠ 0 ∧ buffers W !! ctx = None ∧ is_Some (buffers W' !! ctx)) ∧
    (∀ z, is_Some (buffers W !! z) → is_Some (buffers W' !! z)).
Proof.
  revert W. induction n as [|n IH]; intros W Hreach.
  - exists [], W. split; [done|]. split; [done|]. split; [done|].
    split; [constructor|]. split; [|done]. intros ctx Hin. by apply elem_of_nil in Hin.
  - pose proof (api_reachable_inv W Hreach) as Hinv.
    destruct (create_buffers W w h Hinv) as (ctx & W1 & pm & Hrun & Hn0 & Hnb & Hb).
    assert (api_reachable W1) as Hreach1 by (by eapply api_create).
    destruct (IH W1 Hreach1) as (ctxs & W' & Hn & Hreach' & Hlen & Hnd & Hall & Hmono).
    assert (∀ z, is_Some (buffers W !! z) → is_Some (buffers W1 !! z)) as Hmono1.
    { intros z [p Hz]. rewrite Hb. rewrite lookup_insert_ne; [by eexists|].
      intros <-. congruence. }
    assert (buffers W1 !! ctx = Some pm) as Hctx1.
    { rewrite Hb. apply lookup_insert_eq. }
    exists (ctx :: ctxs), W'. split.
    { cbn [create_n]. rewrite (bind_some _ _ _ _ _ Hrun).
      by rewrite (bind_some _ _ _ _ _ Hn). }
    split; [done|]. split; [cbn; lia|]. split.
    { constructor; [|done]. intros Hin.
      destruct (Hall ctx Hin) as (_ & Hnone & _). congruence. }
    split.
    + intros c [->|Hin]%elem_of_cons.
      * split; [done|]. split; [done|]. apply Hmono. by eexists.
      * destruct (Hall c Hin) as (Hc0 & Hc1 & Hc').
        split; [done|]. split; [|done].
        destruct (buffers W !! c) eqn:E; [|done].
        destruct (Hmono1 c ltac:(by eexists)) as [? ?]. congruence.
    + intros z Hz. by apply Hmono, Hmono1.
Qed.

(** Creating [n] offscreens when every slot in use is taken uses [n] new
    slots. *)
Lemma create_n_slots (n : nat) (w h : Z) (W : World) :
  registry_inv W →
  (∀ k, 0 ≤ k < count_offscreens W → slot_taken W k) →
  ∃ (ctxs : list Z) (W' : World),
    create_n n w h W = Some (ctxs, W') ∧
    count_offscreens W' = count_offscreens W + Z.of_nat n ∧
    (∀ k, 0 ≤ k < count_offscreens W' → slot_taken W' k).
Proof.
  revert W. induction n as [|n IH]; intros W Hinv Hall.
  - exists [], W. split; [done|]. split; [lia|done].
  - destruct (create_run W w h Hinv) as (rank & W1 & Hrun & Hinv2 & Hcase).
    destruct Hcase as [(Hr & _ & Hfree & _)|(_ & -> & ->)].
    { destruct (Hall rank Hr) as [s Hs]. congruence. }
    destruct (appended_slot_fields W Hinv)
      as (_ & _ & Hc1 & Hcm1 & Hl1 & _ & _ & Hold1).
    pose proof (ri_count _ Hinv) as Hc.
    set (W2 := with_slot (count_offscreens W)
                 (Some (new_surface_addr (with_appended_slot W)))
                 (with_new_surface w h (with_appended_slot W))) in *.
    assert (count_offscreens W2 = count_offscreens W + 1) as Hc2 by exact Hc1.
    destruct (IH W2 Hinv2) as (ctxs & W' & Hn & Hcount & Hall').
    { intros k Hk. rewrite Hc2 in Hk.
      destruct (decide (k = count_offscreens W)) as [->|Hne].
      - eexists. subst W2. unfold with_slot, with_new_surface. world_simpl.
        apply list_lookup_insert_eq. lia.
      - destruct (Hall k ltac:(lia)) as [s Hs]. exists s.
        subst W2. unfold with_slot, with_new_surface. world_simpl.
        rewrite list_lookup_insert_ne by lia. rewrite Hold1 by lia. done. }
    eexists (_ :: ctxs), W'. split.
    { cbn [create_n]. rewrite (bind_some _ _ _ _ _ Hrun).
      by rewrite (bind_some _ _ _ _ _ Hn). }
    split; [lia|done].
Qed.

(** X22. [n] calls of [fl_create_offscreen] in a state reached through
    the fl_XXX_offscreen() functions all return, with [n] handles that
    differ from one another, none of them null, each naming a buffer that
    did not exist before and exists afterwards.  When every slot in use was
    taken, they use [n] new slots. *)
Theorem create_n_distinct_handles (n : nat) (w h : Z) (W : World) :
  api_reachable W →
  ∃ (ctxs : list Z) (W' : World),
    create_n n w h W = Some (ctxs, W') ∧
    length ctxs = n ∧ NoDup ctxs ∧
    (∀ ctx, ctx ∈ ctxs →
       ctx ≠ 0 ∧ buffers W !! ctx = None ∧ is_Some (buffers W' !! ctx)) ∧
    ((∀ k, 0 ≤ k < count_offscreens W → slot_taken W k) →
     count_offscreens W' = count_offscreens W + Z.of_nat n ∧
     ∀ k, 0 ≤ k < count_offscreens W' → slot_taken W' k).
Proof.
  intros Hreach.
  destruct (create_n_handles n w h W Hreach)
    as (ctxs & W' & Hrun & _ & Hlen & Hnd & Hall & _).
  exists ctxs, W'. split; [exact Hrun|]. split; [done|]. split; [done|].
  split; [done|]. intros Htaken.
  destruct (create_n_slots n w h W (api_reachable_inv W Hreach) Htaken)
    as (ctxs2 & W2 & Hrun2 & Hc & Hall2).
  rewrite Hrun in Hrun2. injection Hrun2 as _ <-. done.
Qed.

Lemma create_n_distinct_handles_witness :
  ∃ ctxs W',
    create_n 25 3 2 (initial_world (1, 1)) = Some (ctxs, W') ∧
    length ctxs = 25%nat ∧ NoDup ctxs ∧ count_offscreens W' = 25.
Proof.
  destruct (create_n_distinct_handles 25 3 2 (initial_world (1, 1))
              (api_start (1, 1)))
    as (ctxs & W' & H1 & H2 & H3 & _ & H4).
  exists ctxs, W'. split; [exact H1|]. split; [exact H2|]. split; [exact H3|].
  destruct H4 as [H4 _]; [|exact H4].
  intros k Hk. cbn in Hk. lia.
Defined.

(** X20. [fl_rescale_offscreen] keeps the registry.  In a state that
    satisfies the registry invariant and whose current surface is not the
    offscreen rescaled, the call returns and the invariant holds again, so
    creation, deletion and rescaling can follow in any order; the handle
    returned is the handle under which the registry finds the surface from
    then on, and every other offscreen keeps its surface, its driver, its
    handle and its buffer. *)
Theorem rescale_offscreen_keeps_registry
    (paint : Fl_RGB_Image → list Z → Z → Z → pixmap → list Z)
    (W : World) (i : Z) (s ps : addr) (drv : Fl_Image_Surface_Driver) :
  registry_inv W → slot_owner W i s ps drv → surface_ W ≠ ps →
  ∃ (ctx' : Z) (W' : World),
    fl_rescale_offscreen paint (offscreen drv) W = Some (ctx', W') ∧
    registry_inv W' ∧
    slot_hits W' ctx' i s ∧
    (∀ k, 0 ≤ k < count_offscreens W' → k ≠ i → slot_misses W' ctx' k) ∧
    ∀ j sj psj drvj, slot_owner W j sj psj drvj → j ≠ i →
      slot_owner W' j sj psj drvj ∧ offscreen drvj ≠ ctx' ∧
      buffers W' !! offscreen drvj = buffers W !! offscreen drvj.
Proof.
  intros Hinv Ho Hcur. pose proof Ho as (Hi & Hslot & Hs & Hps).
  destruct (ri_live _ Hinv i s Hi Hslot)
    as (ps0 & drv0 & Ho0 & Hext & Hoff & [pm Hpm]).
  destruct (slot_owner_fun _ _ _ _ _ _ _ Ho0 Hs Hps) as [-> ->].
  assert (surface_at W s ps drv pm) as Hat by done.
  pose proof (inv_rescaled paint W i s ps drv pm Hinv Ho Hpm) as Hinv'.
  destruct (rescaled_surface paint W s ps drv pm Hat) as ((Hs' & Hps' & Hpm') & _).
  set (W' := rescaled paint s ps drv pm W) in *.
  set (ctx' := rescaled_handle ps drv pm W) in *.
  assert (slot_owner W' i s (rescaled_driver_addr ps drv pm W)
            (mkDriver None (width drv) (height drv) ctx' false)) as Ho'.
  { by split; [|split; [|split]]. }
  exists ctx', W'.
  split; [exact (rescale_offscreen_run_hit paint W i s ps drv pm Hinv Ho Hpm Hcur)|].
  split; [exact Hinv'|].
  split.
  { split; [done|]. apply (slot_owner_handle _ _ _ _ _ Ho'). }
  split.
  { intros k Hk Hne.
    by apply (inv_misses_others W' i _ _ _ Hinv' Ho' k). }
  intros j sj psj drvj Hoj Hne. pose proof Hoj as (Hj & Hslotj & Hsj & Hpsj).
  assert (sj ≠ s) as Hss.
  { intros ->. apply Hne. eapply (ri_inj _ Hinv); eauto. }
  assert (psj ≠ ps) as Hpp.
  { intros ->. apply Hne. eapply (ri_inj _ Hinv); eauto. }
  assert (offscreen drvj ≠ offscreen drv) as Hoo.
  { intros E. apply Hne. eapply (ri_inj _ Hinv); eauto. }
  assert (sj ≠ ps) as Hsp by congruence.
  assert (psj ≠ s) as Hps_s by congruence.
  destruct (rescaled_heap_frame paint W s ps drv pm Hat sj _ Hsj Hss Hsp)
    as (Hsj' & _).
  destruct (rescaled_heap_frame paint W s ps drv pm Hat psj _ Hpsj Hps_s Hpp)
    as (Hpsj' & _).
  destruct (ri_live _ Hinv j sj Hj Hslotj) as (p0 & d0 & Ho1 & _ & _ & [pmj Hpmj]).
  destruct (slot_owner_fun _ _ _ _ _ _ _ Ho1 Hsj Hpsj) as [-> ->].
  destruct (rescaled_buffers_frame paint W s ps drv pm _ _ Hpmj Hoo)
    as (Hb' & Hb'').
  split; [by split; [|split; [|split]]|]. split; [done|]. rewrite Hpmj. exact Hb'.
Qed.

Lemma rescale_offscreen_keeps_registry_witness :
  ∃ ctx' W',
    fl_rescale_offscreen stretch 2 three_offscreens = Some (ctx', W') ∧
    registry_inv W' ∧ slot_hits W' ctx' 1 4%positive.
Proof.
  destruct (rescale_offscreen_keeps_registry stretch three_offscreens 1 _ _ _
              (reachable_inv _ three_offscreens_reachable)
              three_offscreens_slot_1)
    as (ctx' & W' & H1 & H2 & H3 & _).
  - vm_compute. discriminate.
  - exists ctx', W'. split; [exact H1|]. split; [exact H2|exact H3].
Defined.

Section rescale_borrowed.
Context (paint : Fl_RGB_Image → list Z → Z → Z → pixmap → list Z).
Context (W : World) (s ps : addr) (drv : Fl_Image_Surface_Driver) (pm : pixmap).
Context (Hat : surface_at W s ps drv pm).
Context (Hext : external_offscreen drv = true).

Let bits := image_bits_addr W.
Let img := image_addr W pm.
Let W1 := with_image drv pm W.
Let W2 := with_heap (delete ps (heap_ W1)) W1.
Let ps' := rescaled_driver_addr ps drv pm W.
Let handle' := new_handle W.

Lemma rescale_borrowed_run :
  surface_ W ≠ ps →
  rescale paint s W = Some (tt, rescaled_borrowed paint s ps drv pm W).
Proof.
  intros Hcur. pose proof Hat as (Hs & Hps & Hpm).
  destruct (rescale_addrs W s ps drv pm Hat)
    as (Hsp & Hsb & Hsi & Hpb & Hpi & Hbi & Hps's & Hps'b & Hps'i & Hfresh).
  fold bits img ps' in Hsb, Hsi, Hpb, Hpi, Hbi, Hps's, Hps'b, Hps'i, Hfresh.
  assert (heap_ W1 = <[img := Rgb (extracted W drv pm)]>
                       (<[bits := Bytes (pm_bytes pm)]> (heap_ W))) as H1
    by reflexivity.
  assert (heap_ W1 !! s = Some (Surf (mkSurface (Some ps)))) as Hs1.
  { rewrite H1. by rewrite !lookup_insert_ne by done. }
  assert (heap_ W1 !! ps = Some (Drv drv)) as Hps1.
  { rewrite H1. by rewrite !lookup_insert_ne by done. }
  assert (heap_ W2 = delete ps (heap_ W1)) as H2 by reflexivity.
  assert (heap_ W2 !! ps' = None) as Hfresh' by exact Hfresh.
  unfold rescale.
  rewrite (bind_some _ _ _ _ _ (image_run W s ps drv pm Hat)).
  fold img W1.
  erewrite bind_some; last first.
  { unfold printable_rect, driver_printable_rect.
    rewrite (bind_some _ _ _ _ _ (load_surface_run _ _ _ Hs1)).
    cbn [platform_surface]. erewrite bind_some by reflexivity.
    rewrite (bind_some _ _ _ _ _ (load_driver_run _ _ _ Hps1)). reflexivity. }
  cbv beta iota.
  rewrite (bind_some _ _ _ _ _ (load_surface_run _ _ _ Hs1)).
  cbn [platform_surface]. erewrite bind_some by reflexivity.
  assert (delete_driver ps W1 = Some (tt, W2)) as Hdel.
  { unfold delete_driver.
    rewrite (bind_some _ _ _ _ _ (load_driver_run _ _ _ Hps1)).
    erewrite bind_some by reflexivity.
    rewrite Hext. cbn [negb andb when_]. erewrite bind_some by reflexivity.
    unfold_monad. rewrite Hps1. reflexivity. }
  rewrite (bind_some _ _ _ _ _ Hdel).
  set (W3 := with_heap (<[ps' := Drv (mkDriver None (width drv) (height drv)
                                                handle' false)]> (heap_ W2))
               (with_buffers
                  (<[handle' := new_pixmap W (width drv) (height drv)]> (buffers W))
                  W2)).
  assert (newImageSurfaceDriver (width drv) (height drv) 1 0 W2 = Some (ps', W3))
    as Hnew.
  { unfold newImageSurfaceDriver. rewrite decide_False by lia.
    unfold_monad. world_simpl. rewrite !decide_True by lia. reflexivity. }
  rewrite (bind_some _ _ _ _ _ Hnew).
  assert (heap_ W3 = <[ps' := Drv (mkDriver None (width drv) (height drv)
                                            handle' false)]> (heap_ W2)) as H3
    by reflexivity.
  assert (heap_ W3 !! s = Some (Surf (mkSurface (Some ps)))) as Hs3.
  { rewrite H3, H2. rewrite lookup_insert_ne by done.
    by rewrite lookup_delete_ne by done. }
  erewrite bind_some; last first.
  { unfold store_surface. rewrite Hs3. reflexivity. }
  set (W4 := with_heap _ W3).
  assert (heap_ W4 = <[s := Surf (mkSurface (Some ps'))]> (heap_ W3)) as H4
    by reflexivity.
  assert (heap_ W4 !! s = Some (Surf (mkSurface (Some ps')))) as Hs4.
  { rewrite H4. apply lookup_insert_eq. }
  set (W5 := with_surface ps' (surface_ W :: surface_stack W) W4).
  assert (push_current s W4 = Some (tt, W5)) as Hpush.
  { unfold push_current, set_current, Fl_Image_Surface_set_current,
      driver_set_current.
    unfold_monad. world_simpl. run_with Hs4 Hs4. reflexivity. }
  rewrite (bind_some _ _ _ _ _ Hpush).
  assert (heap_ W5 = heap_ W4) as H5 by reflexivity.
  assert (heap_ W5 !! img = Some (Rgb (extracted W drv pm))) as Himg5.
  { rewrite H5, H4, H3, H2, H1.
    rewrite !lookup_insert_ne by done. rewrite lookup_delete_ne by done.
    apply lookup_insert_eq. }
  assert (heap_ W5 !! bits = Some (Bytes (pm_bytes pm))) as Hbits5.
  { rewrite H5, H4, H3, H2, H1.
    rewrite !lookup_insert_ne by done. rewrite lookup_delete_ne by done.
    rewrite lookup_insert_ne by done. apply lookup_insert_eq. }
  assert (heap_ W5 !! ps' = Some (Drv (mkDriver None (width drv) (height drv)
                                                handle' false))) as Hps'5.
  { rewrite H5, H4, H3. rewrite lookup_insert_ne by done.
    apply lookup_insert_eq. }
  set (W6 := with_buffers
               (<[handle' := rescaled_pixmap paint drv pm W]> (buffers W5)) W5).
  assert (Fl_RGB_Image_draw paint img 0 0 W5 = Some (tt, W6)) as Hdraw.
  { unfold Fl_RGB_Image_draw.
    erewrite bind_some; last first.
    { apply in_heap_run. unfold load_img. rewrite Himg5. reflexivity. }
    rewrite with_heap_id.
    erewrite bind_some; last first.
    { apply in_heap_run. unfold extracted. cbn [array].
      apply load_pixels_block. exact Hbits5. }
    rewrite with_heap_id.
    erewrite bind_some by reflexivity.
    replace (surface_ W5) with ps' by reflexivity.
    rewrite Hps'5. cbn [offscreen].
    replace (buffers W5 !! handle')
      with (Some (new_pixmap W (width drv) (height drv))).
    2:{ symmetry. apply lookup_insert_eq. }
    reflexivity. }
  rewrite (bind_some _ _ _ _ _ Hdraw).
  set (W7 := with_surface (surface_ W) (surface_stack W) W6).
  assert (pop_current W6 = Some (tt, W7)) as Hpop by reflexivity.
  rewrite (bind_some _ _ _ _ _ Hpop).
  assert (heap_ W7 = heap_ W4) as H7 by reflexivity.
  erewrite in_heap_run; last first.
  { apply (delete_owning_image _ _ (extracted W drv pm) bits 0);
      [by rewrite H7, <- H5|done|done|rewrite H7, <- H5; by eexists|done]. }
  do 2 f_equal. apply world_eq; try reflexivity.
  unfold rescaled_borrowed. cbv zeta. fold ps' handle'.
  change (<[handle' := rescaled_pixmap paint drv pm W]>
            (<[handle' := new_pixmap W (width drv) (height drv)]> (buffers W))
          = <[handle' := rescaled_pixmap paint drv pm W]> (buffers W)).
  by rewrite insert_insert_eq.
Qed.
End rescale_borrowed.

(** X21. [rescale()] of a surface built around a buffer of the caller.
    The call returns; the caller's buffer and its content stay as they
    are, and the surface is detached from it: its new driver owns a new
    buffer, under a handle that named no buffer before, of the pixel size
    of the unchanged [width] and [height] at the current scale factor and
    holding the captured image drawn at (0, 0).  [offscreen()] returns the
    new handle from then on. *)
Theorem rescale_detaches_borrowed_buffer
    (paint : Fl_RGB_Image → list Z → Z → Z → pixmap → list Z)
    (W : World) (s ps : addr) (drv : Fl_Image_Surface_Driver) (pm : pixmap) :
  surface_at W s ps drv pm →
  external_offscreen drv = true →
  surface_ W ≠ ps →
  ∃ (W' : World) (ps' : addr) (drv' : Fl_Image_Surface_Driver) (pm' : pixmap),
    rescale paint s W = Some (tt, W') ∧
    surface_at W' s ps' drv' pm' ∧
    Fl_Image_Surface_offscreen s W' = Some (offscreen drv', W') ∧
    external_offscreen drv' = false ∧
    offscreen drv' ≠ 0 ∧ offscreen drv' ≠ offscreen drv ∧
    buffers W !! offscreen drv' = None ∧
    buffers W' = <[offscreen drv' := pm']> (buffers W) ∧
    buffers W' !! offscreen drv = Some pm ∧
    width drv' = width drv ∧ height drv' = height drv ∧
    pm_w pm' = physical (scale_ W) (width drv) ∧
    pm_h pm' = physical (scale_ W) (height drv) ∧
    pm_bytes pm' = paint (extracted W drv pm) (pm_bytes pm) 0 0
                     (new_pixmap W (width drv) (height drv)) ∧
    surface_ W' = surface_ W ∧ surface_stack W' = surface_stack W.
Proof.
  intros Hat Hext Hcur. pose proof Hat as (Hs & Hps & Hpm).
  destruct (rescale_addrs W s ps drv pm Hat)
    as (Hsp & Hsb & Hsi & Hpb & Hpi & Hbi & Hps's & Hps'b & Hps'i & Hfresh).
  destruct (new_handle_fresh W) as (Hn0 & Hnb).
  set (ps' := rescaled_driver_addr ps drv pm W) in *.
  set (drv' := mkDriver None (width drv) (height drv) (new_handle W) false).
  set (W' := rescaled_borrowed paint s ps drv pm W).
  assert (heap_ W' !! s = Some (Surf (mkSurface (Some ps')))) as Hs'.
  { subst W'. unfold rescaled_borrowed. world_simpl.
    rewrite !lookup_delete_ne by done. apply lookup_insert_eq. }
  assert (heap_ W' !! ps' = Some (Drv drv')) as Hps''.
  { subst W'. unfold rescaled_borrowed. world_simpl.
    rewrite !lookup_delete_ne by done. rewrite lookup_insert_ne by done.
    apply lookup_insert_eq. }
  assert (new_handle W ≠ offscreen drv) as Hnh by congruence.
  exists W', ps', drv', (rescaled_pixmap paint drv pm W).
  split; [by apply rescale_borrowed_run|].
  split.
  { split; [done|]. split; [done|]. subst W'. unfold rescaled_borrowed.
    world_simpl. apply lookup_insert_eq. }
  split.
  { apply offscreen_run. unfold handle_of. rewrite Hs'. cbn [platform_surface].
    by rewrite Hps''. }
  split; [done|]. split; [done|]. split; [done|]. split; [done|].
  split; [done|].
  split.
  { subst W'. unfold rescaled_borrowed. world_simpl.
    by rewrite lookup_insert_ne. }
  split; [done|]. split; [done|]. split; [done|]. split; [done|].
  split; [done|]. done.
Qed.

Lemma borrowed_world_surface :
  surface_at borrowed_world 4%positive 5%positive
    (mkDriver (Some 4%positive) 2 1 1 true)
    (mkPixmap 4 2 (replicate 24 0)).
Proof. vm_compute. split; [|split]; reflexivity. Qed.

Lemma rescale_detaches_borrowed_buffer_witness :
  ∃ W' ps' drv' pm',
    rescale stretch 4%positive borrowed_world = Some (tt, W') ∧
    surface_at W' 4%positive ps' drv' pm' ∧
    offscreen drv' ≠ 1 ∧
    buffers W' !! 1 = Some (mkPixmap 4 2 (replicate 24 0)).
Proof.
  destruct (rescale_detaches_borrowed_buffer stretch borrowed_world _ _ _ _
              borrowed_world_surface eq_refl)
    as (W' & ps' & drv' & pm' & H1 & H2 & _ & _ & _ & H3 & _ & _ & H4 & _).
  - vm_compute. discriminate.
  - exists W', ps', drv', pm'.
    split; [exact H1|]. split; [exact H2|]. split; [exact H3|exact H4].
Defined.
